(** * CRC-32C checksum engine of AFD: [src/common/get_checksum_crc32c.c]

    A shallow embedding of [get_checksum_crc32c], [get_str_checksum_crc32c]
    and [get_file_checksum_crc32c].  Unsigned 32-bit values are integers in
    [0, 2^32); memory is a total map from addresses to bytes and a pointer
    is the address it holds, so that alignment is visible; [read(2)] is a
    scripted oracle that also records every request it receives. *)

From Stdlib Require Import ZArith List Lia Bool.
From Stdlib Require Import Strings.Byte.
Import ListNotations.
Local Open Scope Z_scope.

(** ** Constants of [afddefs.h] *)

(** Modelled from the spec: [INITIAL_CRC] is defined in [afddefs.h], which is
    not among the sources; the spec gives it as the conventional all-ones
    seed [0xFFFFFFFF]. *)
Definition INITIAL_CRC : Z := 0xFFFFFFFF.

(** Modelled from the spec: [YES] and [NO] of [afddefs.h] (the capability
    flag values). *)
Definition YES : Z := 1.
Definition NO : Z := 0.

(** Modelled from the spec: [SUCCESS] and [INCORRECT] of [afddefs.h] (the
    typed results of the file adapter). *)
Definition SUCCESS : Z := 0.
Definition INCORRECT : Z := -1.

(** ** The eight slicing-by-8 tables, as embedded in the source *)

Definition crc_tableil8_o32 : list Z :=
  [ 0x00000000; 0xF26B8303; 0xE13B70F7; 0x1350F3F4
  ; 0xC79A971F; 0x35F1141C; 0x26A1E7E8; 0xD4CA64EB
  ; 0x8AD958CF; 0x78B2DBCC; 0x6BE22838; 0x9989AB3B
  ; 0x4D43CFD0; 0xBF284CD3; 0xAC78BF27; 0x5E133C24
  ; 0x105EC76F; 0xE235446C; 0xF165B798; 0x030E349B
  ; 0xD7C45070; 0x25AFD373; 0x36FF2087; 0xC494A384
  ; 0x9A879FA0; 0x68EC1CA3; 0x7BBCEF57; 0x89D76C54
  ; 0x5D1D08BF; 0xAF768BBC; 0xBC267848; 0x4E4DFB4B
  ; 0x20BD8EDE; 0xD2D60DDD; 0xC186FE29; 0x33ED7D2A
  ; 0xE72719C1; 0x154C9AC2; 0x061C6936; 0xF477EA35
  ; 0xAA64D611; 0x580F5512; 0x4B5FA6E6; 0xB93425E5
  ; 0x6DFE410E; 0x9F95C20D; 0x8CC531F9; 0x7EAEB2FA
  ; 0x30E349B1; 0xC288CAB2; 0xD1D83946; 0x23B3BA45
  ; 0xF779DEAE; 0x05125DAD; 0x1642AE59; 0xE4292D5A
  ; 0xBA3A117E; 0x4851927D; 0x5B016189; 0xA96AE28A
  ; 0x7DA08661; 0x8FCB0562; 0x9C9BF696; 0x6EF07595
  ; 0x417B1DBC; 0xB3109EBF; 0xA0406D4B; 0x522BEE48
  ; 0x86E18AA3; 0x748A09A0; 0x67DAFA54; 0x95B17957
  ; 0xCBA24573; 0x39C9C670; 0x2A993584; 0xD8F2B687
  ; 0x0C38D26C; 0xFE53516F; 0xED03A29B; 0x1F682198
  ; 0x5125DAD3; 0xA34E59D0; 0xB01EAA24; 0x42752927
  ; 0x96BF4DCC; 0x64D4CECF; 0x77843D3B; 0x85EFBE38
  ; 0xDBFC821C; 0x2997011F; 0x3AC7F2EB; 0xC8AC71E8
  ; 0x1C661503; 0xEE0D9600; 0xFD5D65F4; 0x0F36E6F7
  ; 0x61C69362; 0x93AD1061; 0x80FDE395; 0x72966096
  ; 0xA65C047D; 0x5437877E; 0x4767748A; 0xB50CF789
  ; 0xEB1FCBAD; 0x197448AE; 0x0A24BB5A; 0xF84F3859
  ; 0x2C855CB2; 0xDEEEDFB1; 0xCDBE2C45; 0x3FD5AF46
  ; 0x7198540D; 0x83F3D70E; 0x90A324FA; 0x62C8A7F9
  ; 0xB602C312; 0x44694011; 0x5739B3E5; 0xA55230E6
  ; 0xFB410CC2; 0x092A8FC1; 0x1A7A7C35; 0xE811FF36
  ; 0x3CDB9BDD; 0xCEB018DE; 0xDDE0EB2A; 0x2F8B6829
  ; 0x82F63B78; 0x709DB87B; 0x63CD4B8F; 0x91A6C88C
  ; 0x456CAC67; 0xB7072F64; 0xA457DC90; 0x563C5F93
  ; 0x082F63B7; 0xFA44E0B4; 0xE9141340; 0x1B7F9043
  ; 0xCFB5F4A8; 0x3DDE77AB; 0x2E8E845F; 0xDCE5075C
  ; 0x92A8FC17; 0x60C37F14; 0x73938CE0; 0x81F80FE3
  ; 0x55326B08; 0xA759E80B; 0xB4091BFF; 0x466298FC
  ; 0x1871A4D8; 0xEA1A27DB; 0xF94AD42F; 0x0B21572C
  ; 0xDFEB33C7; 0x2D80B0C4; 0x3ED04330; 0xCCBBC033
  ; 0xA24BB5A6; 0x502036A5; 0x4370C551; 0xB11B4652
  ; 0x65D122B9; 0x97BAA1BA; 0x84EA524E; 0x7681D14D
  ; 0x2892ED69; 0xDAF96E6A; 0xC9A99D9E; 0x3BC21E9D
  ; 0xEF087A76; 0x1D63F975; 0x0E330A81; 0xFC588982
  ; 0xB21572C9; 0x407EF1CA; 0x532E023E; 0xA145813D
  ; 0x758FE5D6; 0x87E466D5; 0x94B49521; 0x66DF1622
  ; 0x38CC2A06; 0xCAA7A905; 0xD9F75AF1; 0x2B9CD9F2
  ; 0xFF56BD19; 0x0D3D3E1A; 0x1E6DCDEE; 0xEC064EED
  ; 0xC38D26C4; 0x31E6A5C7; 0x22B65633; 0xD0DDD530
  ; 0x0417B1DB; 0xF67C32D8; 0xE52CC12C; 0x1747422F
  ; 0x49547E0B; 0xBB3FFD08; 0xA86F0EFC; 0x5A048DFF
  ; 0x8ECEE914; 0x7CA56A17; 0x6FF599E3; 0x9D9E1AE0
  ; 0xD3D3E1AB; 0x21B862A8; 0x32E8915C; 0xC083125F
  ; 0x144976B4; 0xE622F5B7; 0xF5720643; 0x07198540
  ; 0x590AB964; 0xAB613A67; 0xB831C993; 0x4A5A4A90
  ; 0x9E902E7B; 0x6CFBAD78; 0x7FAB5E8C; 0x8DC0DD8F
  ; 0xE330A81A; 0x115B2B19; 0x020BD8ED; 0xF0605BEE
  ; 0x24AA3F05; 0xD6C1BC06; 0xC5914FF2; 0x37FACCF1
  ; 0x69E9F0D5; 0x9B8273D6; 0x88D28022; 0x7AB90321
  ; 0xAE7367CA; 0x5C18E4C9; 0x4F48173D; 0xBD23943E
  ; 0xF36E6F75; 0x0105EC76; 0x12551F82; 0xE03E9C81
  ; 0x34F4F86A; 0xC69F7B69; 0xD5CF889D; 0x27A40B9E
  ; 0x79B737BA; 0x8BDCB4B9; 0x988C474D; 0x6AE7C44E
  ; 0xBE2DA0A5; 0x4C4623A6; 0x5F16D052; 0xAD7D5351 ].

Definition crc_tableil8_o40 : list Z :=
  [ 0x00000000; 0x13A29877; 0x274530EE; 0x34E7A899
  ; 0x4E8A61DC; 0x5D28F9AB; 0x69CF5132; 0x7A6DC945
  ; 0x9D14C3B8; 0x8EB65BCF; 0xBA51F356; 0xA9F36B21
  ; 0xD39EA264; 0xC03C3A13; 0xF4DB928A; 0xE7790AFD
  ; 0x3FC5F181; 0x2C6769F6; 0x1880C16F; 0x0B225918
  ; 0x714F905D; 0x62ED082A; 0x560AA0B3; 0x45A838C4
  ; 0xA2D13239; 0xB173AA4E; 0x859402D7; 0x96369AA0
  ; 0xEC5B53E5; 0xFFF9CB92; 0xCB1E630B; 0xD8BCFB7C
  ; 0x7F8BE302; 0x6C297B75; 0x58CED3EC; 0x4B6C4B9B
  ; 0x310182DE; 0x22A31AA9; 0x1644B230; 0x05E62A47
  ; 0xE29F20BA; 0xF13DB8CD; 0xC5DA1054; 0xD6788823
  ; 0xAC154166; 0xBFB7D911; 0x8B507188; 0x98F2E9FF
  ; 0x404E1283; 0x53EC8AF4; 0x670B226D; 0x74A9BA1A
  ; 0x0EC4735F; 0x1D66EB28; 0x298143B1; 0x3A23DBC6
  ; 0xDD5AD13B; 0xCEF8494C; 0xFA1FE1D5; 0xE9BD79A2
  ; 0x93D0B0E7; 0x80722890; 0xB4958009; 0xA737187E
  ; 0xFF17C604; 0xECB55E73; 0xD852F6EA; 0xCBF06E9D
  ; 0xB19DA7D8; 0xA23F3FAF; 0x96D89736; 0x857A0F41
  ; 0x620305BC; 0x71A19DCB; 0x45463552; 0x56E4AD25
  ; 0x2C896460; 0x3F2BFC17; 0x0BCC548E; 0x186ECCF9
  ; 0xC0D23785; 0xD370AFF2; 0xE797076B; 0xF4359F1C
  ; 0x8E585659; 0x9DFACE2E; 0xA91D66B7; 0xBABFFEC0
  ; 0x5DC6F43D; 0x4E646C4A; 0x7A83C4D3; 0x69215CA4
  ; 0x134C95E1; 0x00EE0D96; 0x3409A50F; 0x27AB3D78
  ; 0x809C2506; 0x933EBD71; 0xA7D915E8; 0xB47B8D9F
  ; 0xCE1644DA; 0xDDB4DCAD; 0xE9537434; 0xFAF1EC43
  ; 0x1D88E6BE; 0x0E2A7EC9; 0x3ACDD650; 0x296F4E27
  ; 0x53028762; 0x40A01F15; 0x7447B78C; 0x67E52FFB
  ; 0xBF59D487; 0xACFB4CF0; 0x981CE469; 0x8BBE7C1E
  ; 0xF1D3B55B; 0xE2712D2C; 0xD69685B5; 0xC5341DC2
  ; 0x224D173F; 0x31EF8F48; 0x050827D1; 0x16AABFA6
  ; 0x6CC776E3; 0x7F65EE94; 0x4B82460D; 0x5820DE7A
  ; 0xFBC3FAF9; 0xE861628E; 0xDC86CA17; 0xCF245260
  ; 0xB5499B25; 0xA6EB0352; 0x920CABCB; 0x81AE33BC
  ; 0x66D73941; 0x7575A136; 0x419209AF; 0x523091D8
  ; 0x285D589D; 0x3BFFC0EA; 0x0F186873; 0x1CBAF004
  ; 0xC4060B78; 0xD7A4930F; 0xE3433B96; 0xF0E1A3E1
  ; 0x8A8C6AA4; 0x992EF2D3; 0xADC95A4A; 0xBE6BC23D
  ; 0x5912C8C0; 0x4AB050B7; 0x7E57F82E; 0x6DF56059
  ; 0x1798A91C; 0x043A316B; 0x30DD99F2; 0x237F0185
  ; 0x844819FB; 0x97EA818C; 0xA30D2915; 0xB0AFB162
  ; 0xCAC27827; 0xD960E050; 0xED8748C9; 0xFE25D0BE
  ; 0x195CDA43; 0x0AFE4234; 0x3E19EAAD; 0x2DBB72DA
  ; 0x57D6BB9F; 0x447423E8; 0x70938B71; 0x63311306
  ; 0xBB8DE87A; 0xA82F700D; 0x9CC8D894; 0x8F6A40E3
  ; 0xF50789A6; 0xE6A511D1; 0xD242B948; 0xC1E0213F
  ; 0x26992BC2; 0x353BB3B5; 0x01DC1B2C; 0x127E835B
  ; 0x68134A1E; 0x7BB1D269; 0x4F567AF0; 0x5CF4E287
  ; 0x04D43CFD; 0x1776A48A; 0x23910C13; 0x30339464
  ; 0x4A5E5D21; 0x59FCC556; 0x6D1B6DCF; 0x7EB9F5B8
  ; 0x99C0FF45; 0x8A626732; 0xBE85CFAB; 0xAD2757DC
  ; 0xD74A9E99; 0xC4E806EE; 0xF00FAE77; 0xE3AD3600
  ; 0x3B11CD7C; 0x28B3550B; 0x1C54FD92; 0x0FF665E5
  ; 0x759BACA0; 0x663934D7; 0x52DE9C4E; 0x417C0439
  ; 0xA6050EC4; 0xB5A796B3; 0x81403E2A; 0x92E2A65D
  ; 0xE88F6F18; 0xFB2DF76F; 0xCFCA5FF6; 0xDC68C781
  ; 0x7B5FDFFF; 0x68FD4788; 0x5C1AEF11; 0x4FB87766
  ; 0x35D5BE23; 0x26772654; 0x12908ECD; 0x013216BA
  ; 0xE64B1C47; 0xF5E98430; 0xC10E2CA9; 0xD2ACB4DE
  ; 0xA8C17D9B; 0xBB63E5EC; 0x8F844D75; 0x9C26D502
  ; 0x449A2E7E; 0x5738B609; 0x63DF1E90; 0x707D86E7
  ; 0x0A104FA2; 0x19B2D7D5; 0x2D557F4C; 0x3EF7E73B
  ; 0xD98EEDC6; 0xCA2C75B1; 0xFECBDD28; 0xED69455F
  ; 0x97048C1A; 0x84A6146D; 0xB041BCF4; 0xA3E32483 ].

Definition crc_tableil8_o48 : list Z :=
  [ 0x00000000; 0xA541927E; 0x4F6F520D; 0xEA2EC073
  ; 0x9EDEA41A; 0x3B9F3664; 0xD1B1F617; 0x74F06469
  ; 0x38513EC5; 0x9D10ACBB; 0x773E6CC8; 0xD27FFEB6
  ; 0xA68F9ADF; 0x03CE08A1; 0xE9E0C8D2; 0x4CA15AAC
  ; 0x70A27D8A; 0xD5E3EFF4; 0x3FCD2F87; 0x9A8CBDF9
  ; 0xEE7CD990; 0x4B3D4BEE; 0xA1138B9D; 0x045219E3
  ; 0x48F3434F; 0xEDB2D131; 0x079C1142; 0xA2DD833C
  ; 0xD62DE755; 0x736C752B; 0x9942B558; 0x3C032726
  ; 0xE144FB14; 0x4405696A; 0xAE2BA919; 0x0B6A3B67
  ; 0x7F9A5F0E; 0xDADBCD70; 0x30F50D03; 0x95B49F7D
  ; 0xD915C5D1; 0x7C5457AF; 0x967A97DC; 0x333B05A2
  ; 0x47CB61CB; 0xE28AF3B5; 0x08A433C6; 0xADE5A1B8
  ; 0x91E6869E; 0x34A714E0; 0xDE89D493; 0x7BC846ED
  ; 0x0F382284; 0xAA79B0FA; 0x40577089; 0xE516E2F7
  ; 0xA9B7B85B; 0x0CF62A25; 0xE6D8EA56; 0x43997828
  ; 0x37691C41; 0x92288E3F; 0x78064E4C; 0xDD47DC32
  ; 0xC76580D9; 0x622412A7; 0x880AD2D4; 0x2D4B40AA
  ; 0x59BB24C3; 0xFCFAB6BD; 0x16D476CE; 0xB395E4B0
  ; 0xFF34BE1C; 0x5A752C62; 0xB05BEC11; 0x151A7E6F
  ; 0x61EA1A06; 0xC4AB8878; 0x2E85480B; 0x8BC4DA75
  ; 0xB7C7FD53; 0x12866F2D; 0xF8A8AF5E; 0x5DE93D20
  ; 0x29195949; 0x8C58CB37; 0x66760B44; 0xC337993A
  ; 0x8F96C396; 0x2AD751E8; 0xC0F9919B; 0x65B803E5
  ; 0x1148678C; 0xB409F5F2; 0x5E273581; 0xFB66A7FF
  ; 0x26217BCD; 0x8360E9B3; 0x694E29C0; 0xCC0FBBBE
  ; 0xB8FFDFD7; 0x1DBE4DA9; 0xF7908DDA; 0x52D11FA4
  ; 0x1E704508; 0xBB31D776; 0x511F1705; 0xF45E857B
  ; 0x80AEE112; 0x25EF736C; 0xCFC1B31F; 0x6A802161
  ; 0x56830647; 0xF3C29439; 0x19EC544A; 0xBCADC634
  ; 0xC85DA25D; 0x6D1C3023; 0x8732F050; 0x2273622E
  ; 0x6ED23882; 0xCB93AAFC; 0x21BD6A8F; 0x84FCF8F1
  ; 0xF00C9C98; 0x554D0EE6; 0xBF63CE95; 0x1A225CEB
  ; 0x8B277743; 0x2E66E53D; 0xC448254E; 0x6109B730
  ; 0x15F9D359; 0xB0B84127; 0x5A968154; 0xFFD7132A
  ; 0xB3764986; 0x1637DBF8; 0xFC191B8B; 0x595889F5
  ; 0x2DA8ED9C; 0x88E97FE2; 0x62C7BF91; 0xC7862DEF
  ; 0xFB850AC9; 0x5EC498B7; 0xB4EA58C4; 0x11ABCABA
  ; 0x655BAED3; 0xC01A3CAD; 0x2A34FCDE; 0x8F756EA0
  ; 0xC3D4340C; 0x6695A672; 0x8CBB6601; 0x29FAF47F
  ; 0x5D0A9016; 0xF84B0268; 0x1265C21B; 0xB7245065
  ; 0x6A638C57; 0xCF221E29; 0x250CDE5A; 0x804D4C24
  ; 0xF4BD284D; 0x51FCBA33; 0xBBD27A40; 0x1E93E83E
  ; 0x5232B292; 0xF77320EC; 0x1D5DE09F; 0xB81C72E1
  ; 0xCCEC1688; 0x69AD84F6; 0x83834485; 0x26C2D6FB
  ; 0x1AC1F1DD; 0xBF8063A3; 0x55AEA3D0; 0xF0EF31AE
  ; 0x841F55C7; 0x215EC7B9; 0xCB7007CA; 0x6E3195B4
  ; 0x2290CF18; 0x87D15D66; 0x6DFF9D15; 0xC8BE0F6B
  ; 0xBC4E6B02; 0x190FF97C; 0xF321390F; 0x5660AB71
  ; 0x4C42F79A; 0xE90365E4; 0x032DA597; 0xA66C37E9
  ; 0xD29C5380; 0x77DDC1FE; 0x9DF3018D; 0x38B293F3
  ; 0x7413C95F; 0xD1525B21; 0x3B7C9B52; 0x9E3D092C
  ; 0xEACD6D45; 0x4F8CFF3B; 0xA5A23F48; 0x00E3AD36
  ; 0x3CE08A10; 0x99A1186E; 0x738FD81D; 0xD6CE4A63
  ; 0xA23E2E0A; 0x077FBC74; 0xED517C07; 0x4810EE79
  ; 0x04B1B4D5; 0xA1F026AB; 0x4BDEE6D8; 0xEE9F74A6
  ; 0x9A6F10CF; 0x3F2E82B1; 0xD50042C2; 0x7041D0BC
  ; 0xAD060C8E; 0x08479EF0; 0xE2695E83; 0x4728CCFD
  ; 0x33D8A894; 0x96993AEA; 0x7CB7FA99; 0xD9F668E7
  ; 0x9557324B; 0x3016A035; 0xDA386046; 0x7F79F238
  ; 0x0B899651; 0xAEC8042F; 0x44E6C45C; 0xE1A75622
  ; 0xDDA47104; 0x78E5E37A; 0x92CB2309; 0x378AB177
  ; 0x437AD51E; 0xE63B4760; 0x0C158713; 0xA954156D
  ; 0xE5F54FC1; 0x40B4DDBF; 0xAA9A1DCC; 0x0FDB8FB2
  ; 0x7B2BEBDB; 0xDE6A79A5; 0x3444B9D6; 0x91052BA8 ].

Definition crc_tableil8_o56 : list Z :=
  [ 0x00000000; 0xDD45AAB8; 0xBF672381; 0x62228939
  ; 0x7B2231F3; 0xA6679B4B; 0xC4451272; 0x1900B8CA
  ; 0xF64463E6; 0x2B01C95E; 0x49234067; 0x9466EADF
  ; 0x8D665215; 0x5023F8AD; 0x32017194; 0xEF44DB2C
  ; 0xE964B13D; 0x34211B85; 0x560392BC; 0x8B463804
  ; 0x924680CE; 0x4F032A76; 0x2D21A34F; 0xF06409F7
  ; 0x1F20D2DB; 0xC2657863; 0xA047F15A; 0x7D025BE2
  ; 0x6402E328; 0xB9474990; 0xDB65C0A9; 0x06206A11
  ; 0xD725148B; 0x0A60BE33; 0x6842370A; 0xB5079DB2
  ; 0xAC072578; 0x71428FC0; 0x136006F9; 0xCE25AC41
  ; 0x2161776D; 0xFC24DDD5; 0x9E0654EC; 0x4343FE54
  ; 0x5A43469E; 0x8706EC26; 0xE524651F; 0x3861CFA7
  ; 0x3E41A5B6; 0xE3040F0E; 0x81268637; 0x5C632C8F
  ; 0x45639445; 0x98263EFD; 0xFA04B7C4; 0x27411D7C
  ; 0xC805C650; 0x15406CE8; 0x7762E5D1; 0xAA274F69
  ; 0xB327F7A3; 0x6E625D1B; 0x0C40D422; 0xD1057E9A
  ; 0xABA65FE7; 0x76E3F55F; 0x14C17C66; 0xC984D6DE
  ; 0xD0846E14; 0x0DC1C4AC; 0x6FE34D95; 0xB2A6E72D
  ; 0x5DE23C01; 0x80A796B9; 0xE2851F80; 0x3FC0B538
  ; 0x26C00DF2; 0xFB85A74A; 0x99A72E73; 0x44E284CB
  ; 0x42C2EEDA; 0x9F874462; 0xFDA5CD5B; 0x20E067E3
  ; 0x39E0DF29; 0xE4A57591; 0x8687FCA8; 0x5BC25610
  ; 0xB4868D3C; 0x69C32784; 0x0BE1AEBD; 0xD6A40405
  ; 0xCFA4BCCF; 0x12E11677; 0x70C39F4E; 0xAD8635F6
  ; 0x7C834B6C; 0xA1C6E1D4; 0xC3E468ED; 0x1EA1C255
  ; 0x07A17A9F; 0xDAE4D027; 0xB8C6591E; 0x6583F3A6
  ; 0x8AC7288A; 0x57828232; 0x35A00B0B; 0xE8E5A1B3
  ; 0xF1E51979; 0x2CA0B3C1; 0x4E823AF8; 0x93C79040
  ; 0x95E7FA51; 0x48A250E9; 0x2A80D9D0; 0xF7C57368
  ; 0xEEC5CBA2; 0x3380611A; 0x51A2E823; 0x8CE7429B
  ; 0x63A399B7; 0xBEE6330F; 0xDCC4BA36; 0x0181108E
  ; 0x1881A844; 0xC5C402FC; 0xA7E68BC5; 0x7AA3217D
  ; 0x52A0C93F; 0x8FE56387; 0xEDC7EABE; 0x30824006
  ; 0x2982F8CC; 0xF4C75274; 0x96E5DB4D; 0x4BA071F5
  ; 0xA4E4AAD9; 0x79A10061; 0x1B838958; 0xC6C623E0
  ; 0xDFC69B2A; 0x02833192; 0x60A1B8AB; 0xBDE41213
  ; 0xBBC47802; 0x6681D2BA; 0x04A35B83; 0xD9E6F13B
  ; 0xC0E649F1; 0x1DA3E349; 0x7F816A70; 0xA2C4C0C8
  ; 0x4D801BE4; 0x90C5B15C; 0xF2E73865; 0x2FA292DD
  ; 0x36A22A17; 0xEBE780AF; 0x89C50996; 0x5480A32E
  ; 0x8585DDB4; 0x58C0770C; 0x3AE2FE35; 0xE7A7548D
  ; 0xFEA7EC47; 0x23E246FF; 0x41C0CFC6; 0x9C85657E
  ; 0x73C1BE52; 0xAE8414EA; 0xCCA69DD3; 0x11E3376B
  ; 0x08E38FA1; 0xD5A62519; 0xB784AC20; 0x6AC10698
  ; 0x6CE16C89; 0xB1A4C631; 0xD3864F08; 0x0EC3E5B0
  ; 0x17C35D7A; 0xCA86F7C2; 0xA8A47EFB; 0x75E1D443
  ; 0x9AA50F6F; 0x47E0A5D7; 0x25C22CEE; 0xF8878656
  ; 0xE1873E9C; 0x3CC29424; 0x5EE01D1D; 0x83A5B7A5
  ; 0xF90696D8; 0x24433C60; 0x4661B559; 0x9B241FE1
  ; 0x8224A72B; 0x5F610D93; 0x3D4384AA; 0xE0062E12
  ; 0x0F42F53E; 0xD2075F86; 0xB025D6BF; 0x6D607C07
  ; 0x7460C4CD; 0xA9256E75; 0xCB07E74C; 0x16424DF4
  ; 0x106227E5; 0xCD278D5D; 0xAF050464; 0x7240AEDC
  ; 0x6B401616; 0xB605BCAE; 0xD4273597; 0x09629F2F
  ; 0xE6264403; 0x3B63EEBB; 0x59416782; 0x8404CD3A
  ; 0x9D0475F0; 0x4041DF48; 0x22635671; 0xFF26FCC9
  ; 0x2E238253; 0xF36628EB; 0x9144A1D2; 0x4C010B6A
  ; 0x5501B3A0; 0x88441918; 0xEA669021; 0x37233A99
  ; 0xD867E1B5; 0x05224B0D; 0x6700C234; 0xBA45688C
  ; 0xA345D046; 0x7E007AFE; 0x1C22F3C7; 0xC167597F
  ; 0xC747336E; 0x1A0299D6; 0x782010EF; 0xA565BA57
  ; 0xBC65029D; 0x6120A825; 0x0302211C; 0xDE478BA4
  ; 0x31035088; 0xEC46FA30; 0x8E647309; 0x5321D9B1
  ; 0x4A21617B; 0x9764CBC3; 0xF54642FA; 0x2803E842 ].

Definition crc_tableil8_o64 : list Z :=
  [ 0x00000000; 0x38116FAC; 0x7022DF58; 0x4833B0F4
  ; 0xE045BEB0; 0xD854D11C; 0x906761E8; 0xA8760E44
  ; 0xC5670B91; 0xFD76643D; 0xB545D4C9; 0x8D54BB65
  ; 0x2522B521; 0x1D33DA8D; 0x55006A79; 0x6D1105D5
  ; 0x8F2261D3; 0xB7330E7F; 0xFF00BE8B; 0xC711D127
  ; 0x6F67DF63; 0x5776B0CF; 0x1F45003B; 0x27546F97
  ; 0x4A456A42; 0x725405EE; 0x3A67B51A; 0x0276DAB6
  ; 0xAA00D4F2; 0x9211BB5E; 0xDA220BAA; 0xE2336406
  ; 0x1BA8B557; 0x23B9DAFB; 0x6B8A6A0F; 0x539B05A3
  ; 0xFBED0BE7; 0xC3FC644B; 0x8BCFD4BF; 0xB3DEBB13
  ; 0xDECFBEC6; 0xE6DED16A; 0xAEED619E; 0x96FC0E32
  ; 0x3E8A0076; 0x069B6FDA; 0x4EA8DF2E; 0x76B9B082
  ; 0x948AD484; 0xAC9BBB28; 0xE4A80BDC; 0xDCB96470
  ; 0x74CF6A34; 0x4CDE0598; 0x04EDB56C; 0x3CFCDAC0
  ; 0x51EDDF15; 0x69FCB0B9; 0x21CF004D; 0x19DE6FE1
  ; 0xB1A861A5; 0x89B90E09; 0xC18ABEFD; 0xF99BD151
  ; 0x37516AAE; 0x0F400502; 0x4773B5F6; 0x7F62DA5A
  ; 0xD714D41E; 0xEF05BBB2; 0xA7360B46; 0x9F2764EA
  ; 0xF236613F; 0xCA270E93; 0x8214BE67; 0xBA05D1CB
  ; 0x1273DF8F; 0x2A62B023; 0x625100D7; 0x5A406F7B
  ; 0xB8730B7D; 0x806264D1; 0xC851D425; 0xF040BB89
  ; 0x5836B5CD; 0x6027DA61; 0x28146A95; 0x10050539
  ; 0x7D1400EC; 0x45056F40; 0x0D36DFB4; 0x3527B018
  ; 0x9D51BE5C; 0xA540D1F0; 0xED736104; 0xD5620EA8
  ; 0x2CF9DFF9; 0x14E8B055; 0x5CDB00A1; 0x64CA6F0D
  ; 0xCCBC6149; 0xF4AD0EE5; 0xBC9EBE11; 0x848FD1BD
  ; 0xE99ED468; 0xD18FBBC4; 0x99BC0B30; 0xA1AD649C
  ; 0x09DB6AD8; 0x31CA0574; 0x79F9B580; 0x41E8DA2C
  ; 0xA3DBBE2A; 0x9BCAD186; 0xD3F96172; 0xEBE80EDE
  ; 0x439E009A; 0x7B8F6F36; 0x33BCDFC2; 0x0BADB06E
  ; 0x66BCB5BB; 0x5EADDA17; 0x169E6AE3; 0x2E8F054F
  ; 0x86F90B0B; 0xBEE864A7; 0xF6DBD453; 0xCECABBFF
  ; 0x6EA2D55C; 0x56B3BAF0; 0x1E800A04; 0x269165A8
  ; 0x8EE76BEC; 0xB6F60440; 0xFEC5B4B4; 0xC6D4DB18
  ; 0xABC5DECD; 0x93D4B161; 0xDBE70195; 0xE3F66E39
  ; 0x4B80607D; 0x73910FD1; 0x3BA2BF25; 0x03B3D089
  ; 0xE180B48F; 0xD991DB23; 0x91A26BD7; 0xA9B3047B
  ; 0x01C50A3F; 0x39D46593; 0x71E7D567; 0x49F6BACB
  ; 0x24E7BF1E; 0x1CF6D0B2; 0x54C56046; 0x6CD40FEA
  ; 0xC4A201AE; 0xFCB36E02; 0xB480DEF6; 0x8C91B15A
  ; 0x750A600B; 0x4D1B0FA7; 0x0528BF53; 0x3D39D0FF
  ; 0x954FDEBB; 0xAD5EB117; 0xE56D01E3; 0xDD7C6E4F
  ; 0xB06D6B9A; 0x887C0436; 0xC04FB4C2; 0xF85EDB6E
  ; 0x5028D52A; 0x6839BA86; 0x200A0A72; 0x181B65DE
  ; 0xFA2801D8; 0xC2396E74; 0x8A0ADE80; 0xB21BB12C
  ; 0x1A6DBF68; 0x227CD0C4; 0x6A4F6030; 0x525E0F9C
  ; 0x3F4F0A49; 0x075E65E5; 0x4F6DD511; 0x777CBABD
  ; 0xDF0AB4F9; 0xE71BDB55; 0xAF286BA1; 0x9739040D
  ; 0x59F3BFF2; 0x61E2D05E; 0x29D160AA; 0x11C00F06
  ; 0xB9B60142; 0x81A76EEE; 0xC994DE1A; 0xF185B1B6
  ; 0x9C94B463; 0xA485DBCF; 0xECB66B3B; 0xD4A70497
  ; 0x7CD10AD3; 0x44C0657F; 0x0CF3D58B; 0x34E2BA27
  ; 0xD6D1DE21; 0xEEC0B18D; 0xA6F30179; 0x9EE26ED5
  ; 0x36946091; 0x0E850F3D; 0x46B6BFC9; 0x7EA7D065
  ; 0x13B6D5B0; 0x2BA7BA1C; 0x63940AE8; 0x5B856544
  ; 0xF3F36B00; 0xCBE204AC; 0x83D1B458; 0xBBC0DBF4
  ; 0x425B0AA5; 0x7A4A6509; 0x3279D5FD; 0x0A68BA51
  ; 0xA21EB415; 0x9A0FDBB9; 0xD23C6B4D; 0xEA2D04E1
  ; 0x873C0134; 0xBF2D6E98; 0xF71EDE6C; 0xCF0FB1C0
  ; 0x6779BF84; 0x5F68D028; 0x175B60DC; 0x2F4A0F70
  ; 0xCD796B76; 0xF56804DA; 0xBD5BB42E; 0x854ADB82
  ; 0x2D3CD5C6; 0x152DBA6A; 0x5D1E0A9E; 0x650F6532
  ; 0x081E60E7; 0x300F0F4B; 0x783CBFBF; 0x402DD013
  ; 0xE85BDE57; 0xD04AB1FB; 0x9879010F; 0xA0686EA3 ].

Definition crc_tableil8_o72 : list Z :=
  [ 0x00000000; 0xEF306B19; 0xDB8CA0C3; 0x34BCCBDA
  ; 0xB2F53777; 0x5DC55C6E; 0x697997B4; 0x8649FCAD
  ; 0x6006181F; 0x8F367306; 0xBB8AB8DC; 0x54BAD3C5
  ; 0xD2F32F68; 0x3DC34471; 0x097F8FAB; 0xE64FE4B2
  ; 0xC00C303E; 0x2F3C5B27; 0x1B8090FD; 0xF4B0FBE4
  ; 0x72F90749; 0x9DC96C50; 0xA975A78A; 0x4645CC93
  ; 0xA00A2821; 0x4F3A4338; 0x7B8688E2; 0x94B6E3FB
  ; 0x12FF1F56; 0xFDCF744F; 0xC973BF95; 0x2643D48C
  ; 0x85F4168D; 0x6AC47D94; 0x5E78B64E; 0xB148DD57
  ; 0x370121FA; 0xD8314AE3; 0xEC8D8139; 0x03BDEA20
  ; 0xE5F20E92; 0x0AC2658B; 0x3E7EAE51; 0xD14EC548
  ; 0x570739E5; 0xB83752FC; 0x8C8B9926; 0x63BBF23F
  ; 0x45F826B3; 0xAAC84DAA; 0x9E748670; 0x7144ED69
  ; 0xF70D11C4; 0x183D7ADD; 0x2C81B107; 0xC3B1DA1E
  ; 0x25FE3EAC; 0xCACE55B5; 0xFE729E6F; 0x1142F576
  ; 0x970B09DB; 0x783B62C2; 0x4C87A918; 0xA3B7C201
  ; 0x0E045BEB; 0xE13430F2; 0xD588FB28; 0x3AB89031
  ; 0xBCF16C9C; 0x53C10785; 0x677DCC5F; 0x884DA746
  ; 0x6E0243F4; 0x813228ED; 0xB58EE337; 0x5ABE882E
  ; 0xDCF77483; 0x33C71F9A; 0x077BD440; 0xE84BBF59
  ; 0xCE086BD5; 0x213800CC; 0x1584CB16; 0xFAB4A00F
  ; 0x7CFD5CA2; 0x93CD37BB; 0xA771FC61; 0x48419778
  ; 0xAE0E73CA; 0x413E18D3; 0x7582D309; 0x9AB2B810
  ; 0x1CFB44BD; 0xF3CB2FA4; 0xC777E47E; 0x28478F67
  ; 0x8BF04D66; 0x64C0267F; 0x507CEDA5; 0xBF4C86BC
  ; 0x39057A11; 0xD6351108; 0xE289DAD2; 0x0DB9B1CB
  ; 0xEBF65579; 0x04C63E60; 0x307AF5BA; 0xDF4A9EA3
  ; 0x5903620E; 0xB6330917; 0x828FC2CD; 0x6DBFA9D4
  ; 0x4BFC7D58; 0xA4CC1641; 0x9070DD9B; 0x7F40B682
  ; 0xF9094A2F; 0x16392136; 0x2285EAEC; 0xCDB581F5
  ; 0x2BFA6547; 0xC4CA0E5E; 0xF076C584; 0x1F46AE9D
  ; 0x990F5230; 0x763F3929; 0x4283F2F3; 0xADB399EA
  ; 0x1C08B7D6; 0xF338DCCF; 0xC7841715; 0x28B47C0C
  ; 0xAEFD80A1; 0x41CDEBB8; 0x75712062; 0x9A414B7B
  ; 0x7C0EAFC9; 0x933EC4D0; 0xA7820F0A; 0x48B26413
  ; 0xCEFB98BE; 0x21CBF3A7; 0x1577387D; 0xFA475364
  ; 0xDC0487E8; 0x3334ECF1; 0x0788272B; 0xE8B84C32
  ; 0x6EF1B09F; 0x81C1DB86; 0xB57D105C; 0x5A4D7B45
  ; 0xBC029FF7; 0x5332F4EE; 0x678E3F34; 0x88BE542D
  ; 0x0EF7A880; 0xE1C7C399; 0xD57B0843; 0x3A4B635A
  ; 0x99FCA15B; 0x76CCCA42; 0x42700198; 0xAD406A81
  ; 0x2B09962C; 0xC439FD35; 0xF08536EF; 0x1FB55DF6
  ; 0xF9FAB944; 0x16CAD25D; 0x22761987; 0xCD46729E
  ; 0x4B0F8E33; 0xA43FE52A; 0x90832EF0; 0x7FB345E9
  ; 0x59F09165; 0xB6C0FA7C; 0x827C31A6; 0x6D4C5ABF
  ; 0xEB05A612; 0x0435CD0B; 0x308906D1; 0xDFB96DC8
  ; 0x39F6897A; 0xD6C6E263; 0xE27A29B9; 0x0D4A42A0
  ; 0x8B03BE0D; 0x6433D514; 0x508F1ECE; 0xBFBF75D7
  ; 0x120CEC3D; 0xFD3C8724; 0xC9804CFE; 0x26B027E7
  ; 0xA0F9DB4A; 0x4FC9B053; 0x7B757B89; 0x94451090
  ; 0x720AF422; 0x9D3A9F3B; 0xA98654E1; 0x46B63FF8
  ; 0xC0FFC355; 0x2FCFA84C; 0x1B736396; 0xF443088F
  ; 0xD200DC03; 0x3D30B71A; 0x098C7CC0; 0xE6BC17D9
  ; 0x60F5EB74; 0x8FC5806D; 0xBB794BB7; 0x544920AE
  ; 0xB206C41C; 0x5D36AF05; 0x698A64DF; 0x86BA0FC6
  ; 0x00F3F36B; 0xEFC39872; 0xDB7F53A8; 0x344F38B1
  ; 0x97F8FAB0; 0x78C891A9; 0x4C745A73; 0xA344316A
  ; 0x250DCDC7; 0xCA3DA6DE; 0xFE816D04; 0x11B1061D
  ; 0xF7FEE2AF; 0x18CE89B6; 0x2C72426C; 0xC3422975
  ; 0x450BD5D8; 0xAA3BBEC1; 0x9E87751B; 0x71B71E02
  ; 0x57F4CA8E; 0xB8C4A197; 0x8C786A4D; 0x63480154
  ; 0xE501FDF9; 0x0A3196E0; 0x3E8D5D3A; 0xD1BD3623
  ; 0x37F2D291; 0xD8C2B988; 0xEC7E7252; 0x034E194B
  ; 0x8507E5E6; 0x6A378EFF; 0x5E8B4525; 0xB1BB2E3C ].

Definition crc_tableil8_o80 : list Z :=
  [ 0x00000000; 0x68032CC8; 0xD0065990; 0xB8057558
  ; 0xA5E0C5D1; 0xCDE3E919; 0x75E69C41; 0x1DE5B089
  ; 0x4E2DFD53; 0x262ED19B; 0x9E2BA4C3; 0xF628880B
  ; 0xEBCD3882; 0x83CE144A; 0x3BCB6112; 0x53C84DDA
  ; 0x9C5BFAA6; 0xF458D66E; 0x4C5DA336; 0x245E8FFE
  ; 0x39BB3F77; 0x51B813BF; 0xE9BD66E7; 0x81BE4A2F
  ; 0xD27607F5; 0xBA752B3D; 0x02705E65; 0x6A7372AD
  ; 0x7796C224; 0x1F95EEEC; 0xA7909BB4; 0xCF93B77C
  ; 0x3D5B83BD; 0x5558AF75; 0xED5DDA2D; 0x855EF6E5
  ; 0x98BB466C; 0xF0B86AA4; 0x48BD1FFC; 0x20BE3334
  ; 0x73767EEE; 0x1B755226; 0xA370277E; 0xCB730BB6
  ; 0xD696BB3F; 0xBE9597F7; 0x0690E2AF; 0x6E93CE67
  ; 0xA100791B; 0xC90355D3; 0x7106208B; 0x19050C43
  ; 0x04E0BCCA; 0x6CE39002; 0xD4E6E55A; 0xBCE5C992
  ; 0xEF2D8448; 0x872EA880; 0x3F2BDDD8; 0x5728F110
  ; 0x4ACD4199; 0x22CE6D51; 0x9ACB1809; 0xF2C834C1
  ; 0x7AB7077A; 0x12B42BB2; 0xAAB15EEA; 0xC2B27222
  ; 0xDF57C2AB; 0xB754EE63; 0x0F519B3B; 0x6752B7F3
  ; 0x349AFA29; 0x5C99D6E1; 0xE49CA3B9; 0x8C9F8F71
  ; 0x917A3FF8; 0xF9791330; 0x417C6668; 0x297F4AA0
  ; 0xE6ECFDDC; 0x8EEFD114; 0x36EAA44C; 0x5EE98884
  ; 0x430C380D; 0x2B0F14C5; 0x930A619D; 0xFB094D55
  ; 0xA8C1008F; 0xC0C22C47; 0x78C7591F; 0x10C475D7
  ; 0x0D21C55E; 0x6522E996; 0xDD279CCE; 0xB524B006
  ; 0x47EC84C7; 0x2FEFA80F; 0x97EADD57; 0xFFE9F19F
  ; 0xE20C4116; 0x8A0F6DDE; 0x320A1886; 0x5A09344E
  ; 0x09C17994; 0x61C2555C; 0xD9C72004; 0xB1C40CCC
  ; 0xAC21BC45; 0xC422908D; 0x7C27E5D5; 0x1424C91D
  ; 0xDBB77E61; 0xB3B452A9; 0x0BB127F1; 0x63B20B39
  ; 0x7E57BBB0; 0x16549778; 0xAE51E220; 0xC652CEE8
  ; 0x959A8332; 0xFD99AFFA; 0x459CDAA2; 0x2D9FF66A
  ; 0x307A46E3; 0x58796A2B; 0xE07C1F73; 0x887F33BB
  ; 0xF56E0EF4; 0x9D6D223C; 0x25685764; 0x4D6B7BAC
  ; 0x508ECB25; 0x388DE7ED; 0x808892B5; 0xE88BBE7D
  ; 0xBB43F3A7; 0xD340DF6F; 0x6B45AA37; 0x034686FF
  ; 0x1EA33676; 0x76A01ABE; 0xCEA56FE6; 0xA6A6432E
  ; 0x6935F452; 0x0136D89A; 0xB933ADC2; 0xD130810A
  ; 0xCCD53183; 0xA4D61D4B; 0x1CD36813; 0x74D044DB
  ; 0x27180901; 0x4F1B25C9; 0xF71E5091; 0x9F1D7C59
  ; 0x82F8CCD0; 0xEAFBE018; 0x52FE9540; 0x3AFDB988
  ; 0xC8358D49; 0xA036A181; 0x1833D4D9; 0x7030F811
  ; 0x6DD54898; 0x05D66450; 0xBDD31108; 0xD5D03DC0
  ; 0x8618701A; 0xEE1B5CD2; 0x561E298A; 0x3E1D0542
  ; 0x23F8B5CB; 0x4BFB9903; 0xF3FEEC5B; 0x9BFDC093
  ; 0x546E77EF; 0x3C6D5B27; 0x84682E7F; 0xEC6B02B7
  ; 0xF18EB23E; 0x998D9EF6; 0x2188EBAE; 0x498BC766
  ; 0x1A438ABC; 0x7240A674; 0xCA45D32C; 0xA246FFE4
  ; 0xBFA34F6D; 0xD7A063A5; 0x6FA516FD; 0x07A63A35
  ; 0x8FD9098E; 0xE7DA2546; 0x5FDF501E; 0x37DC7CD6
  ; 0x2A39CC5F; 0x423AE097; 0xFA3F95CF; 0x923CB907
  ; 0xC1F4F4DD; 0xA9F7D815; 0x11F2AD4D; 0x79F18185
  ; 0x6414310C; 0x0C171DC4; 0xB412689C; 0xDC114454
  ; 0x1382F328; 0x7B81DFE0; 0xC384AAB8; 0xAB878670
  ; 0xB66236F9; 0xDE611A31; 0x66646F69; 0x0E6743A1
  ; 0x5DAF0E7B; 0x35AC22B3; 0x8DA957EB; 0xE5AA7B23
  ; 0xF84FCBAA; 0x904CE762; 0x2849923A; 0x404ABEF2
  ; 0xB2828A33; 0xDA81A6FB; 0x6284D3A3; 0x0A87FF6B
  ; 0x17624FE2; 0x7F61632A; 0xC7641672; 0xAF673ABA
  ; 0xFCAF7760; 0x94AC5BA8; 0x2CA92EF0; 0x44AA0238
  ; 0x594FB2B1; 0x314C9E79; 0x8949EB21; 0xE14AC7E9
  ; 0x2ED97095; 0x46DA5C5D; 0xFEDF2905; 0x96DC05CD
  ; 0x8B39B544; 0xE33A998C; 0x5B3FECD4; 0x333CC01C
  ; 0x60F48DC6; 0x08F7A10E; 0xB0F2D456; 0xD8F1F89E
  ; 0xC5144817; 0xAD1764DF; 0x15121187; 0x7D113D4F ].

Definition crc_tableil8_o88 : list Z :=
  [ 0x00000000; 0x493C7D27; 0x9278FA4E; 0xDB448769
  ; 0x211D826D; 0x6821FF4A; 0xB3657823; 0xFA590504
  ; 0x423B04DA; 0x0B0779FD; 0xD043FE94; 0x997F83B3
  ; 0x632686B7; 0x2A1AFB90; 0xF15E7CF9; 0xB86201DE
  ; 0x847609B4; 0xCD4A7493; 0x160EF3FA; 0x5F328EDD
  ; 0xA56B8BD9; 0xEC57F6FE; 0x37137197; 0x7E2F0CB0
  ; 0xC64D0D6E; 0x8F717049; 0x5435F720; 0x1D098A07
  ; 0xE7508F03; 0xAE6CF224; 0x7528754D; 0x3C14086A
  ; 0x0D006599; 0x443C18BE; 0x9F789FD7; 0xD644E2F0
  ; 0x2C1DE7F4; 0x65219AD3; 0xBE651DBA; 0xF759609D
  ; 0x4F3B6143; 0x06071C64; 0xDD439B0D; 0x947FE62A
  ; 0x6E26E32E; 0x271A9E09; 0xFC5E1960; 0xB5626447
  ; 0x89766C2D; 0xC04A110A; 0x1B0E9663; 0x5232EB44
  ; 0xA86BEE40; 0xE1579367; 0x3A13140E; 0x732F6929
  ; 0xCB4D68F7; 0x827115D0; 0x593592B9; 0x1009EF9E
  ; 0xEA50EA9A; 0xA36C97BD; 0x782810D4; 0x31146DF3
  ; 0x1A00CB32; 0x533CB615; 0x8878317C; 0xC1444C5B
  ; 0x3B1D495F; 0x72213478; 0xA965B311; 0xE059CE36
  ; 0x583BCFE8; 0x1107B2CF; 0xCA4335A6; 0x837F4881
  ; 0x79264D85; 0x301A30A2; 0xEB5EB7CB; 0xA262CAEC
  ; 0x9E76C286; 0xD74ABFA1; 0x0C0E38C8; 0x453245EF
  ; 0xBF6B40EB; 0xF6573DCC; 0x2D13BAA5; 0x642FC782
  ; 0xDC4DC65C; 0x9571BB7B; 0x4E353C12; 0x07094135
  ; 0xFD504431; 0xB46C3916; 0x6F28BE7F; 0x2614C358
  ; 0x1700AEAB; 0x5E3CD38C; 0x857854E5; 0xCC4429C2
  ; 0x361D2CC6; 0x7F2151E1; 0xA465D688; 0xED59ABAF
  ; 0x553BAA71; 0x1C07D756; 0xC743503F; 0x8E7F2D18
  ; 0x7426281C; 0x3D1A553B; 0xE65ED252; 0xAF62AF75
  ; 0x9376A71F; 0xDA4ADA38; 0x010E5D51; 0x48322076
  ; 0xB26B2572; 0xFB575855; 0x2013DF3C; 0x692FA21B
  ; 0xD14DA3C5; 0x9871DEE2; 0x4335598B; 0x0A0924AC
  ; 0xF05021A8; 0xB96C5C8F; 0x6228DBE6; 0x2B14A6C1
  ; 0x34019664; 0x7D3DEB43; 0xA6796C2A; 0xEF45110D
  ; 0x151C1409; 0x5C20692E; 0x8764EE47; 0xCE589360
  ; 0x763A92BE; 0x3F06EF99; 0xE44268F0; 0xAD7E15D7
  ; 0x572710D3; 0x1E1B6DF4; 0xC55FEA9D; 0x8C6397BA
  ; 0xB0779FD0; 0xF94BE2F7; 0x220F659E; 0x6B3318B9
  ; 0x916A1DBD; 0xD856609A; 0x0312E7F3; 0x4A2E9AD4
  ; 0xF24C9B0A; 0xBB70E62D; 0x60346144; 0x29081C63
  ; 0xD3511967; 0x9A6D6440; 0x4129E329; 0x08159E0E
  ; 0x3901F3FD; 0x703D8EDA; 0xAB7909B3; 0xE2457494
  ; 0x181C7190; 0x51200CB7; 0x8A648BDE; 0xC358F6F9
  ; 0x7B3AF727; 0x32068A00; 0xE9420D69; 0xA07E704E
  ; 0x5A27754A; 0x131B086D; 0xC85F8F04; 0x8163F223
  ; 0xBD77FA49; 0xF44B876E; 0x2F0F0007; 0x66337D20
  ; 0x9C6A7824; 0xD5560503; 0x0E12826A; 0x472EFF4D
  ; 0xFF4CFE93; 0xB67083B4; 0x6D3404DD; 0x240879FA
  ; 0xDE517CFE; 0x976D01D9; 0x4C2986B0; 0x0515FB97
  ; 0x2E015D56; 0x673D2071; 0xBC79A718; 0xF545DA3F
  ; 0x0F1CDF3B; 0x4620A21C; 0x9D642575; 0xD4585852
  ; 0x6C3A598C; 0x250624AB; 0xFE42A3C2; 0xB77EDEE5
  ; 0x4D27DBE1; 0x041BA6C6; 0xDF5F21AF; 0x96635C88
  ; 0xAA7754E2; 0xE34B29C5; 0x380FAEAC; 0x7133D38B
  ; 0x8B6AD68F; 0xC256ABA8; 0x19122CC1; 0x502E51E6
  ; 0xE84C5038; 0xA1702D1F; 0x7A34AA76; 0x3308D751
  ; 0xC951D255; 0x806DAF72; 0x5B29281B; 0x1215553C
  ; 0x230138CF; 0x6A3D45E8; 0xB179C281; 0xF845BFA6
  ; 0x021CBAA2; 0x4B20C785; 0x906440EC; 0xD9583DCB
  ; 0x613A3C15; 0x28064132; 0xF342C65B; 0xBA7EBB7C
  ; 0x4027BE78; 0x091BC35F; 0xD25F4436; 0x9B633911
  ; 0xA777317B; 0xEE4B4C5C; 0x350FCB35; 0x7C33B612
  ; 0x866AB316; 0xCF56CE31; 0x14124958; 0x5D2E347F
  ; 0xE54C35A1; 0xAC704886; 0x7734CFEF; 0x3E08B2C8
  ; 0xC451B7CC; 0x8D6DCAEB; 0x56294D82; 0x1F1530A5 ].

(** ** Machine integers and memory *)

(** Conversions to [unsigned int], [unsigned char], [size_t] and [int]. *)
Definition to_uint (x : Z) : Z := x mod 2 ^ 32.
Definition to_uchar (x : Z) : Z := x mod 2 ^ 8.
Definition to_size_t (x : Z) : Z := x mod 2 ^ 64.
Definition to_int (x : Z) : Z := (x + 2 ^ 31) mod 2 ^ 32 - 2 ^ 31.

(** The range of an [unsigned int] and of a [size_t]. *)
Definition is_uint (x : Z) : Prop := 0 <= x < 2 ^ 32.
Definition is_size_t (x : Z) : Prop := 0 <= x < 2 ^ 64.

(** Memory maps every address to a byte; a pointer is an address. *)
Definition memory : Type := Z -> byte.

Definition load_uint8 (M : memory) (p : Z) : Z := Z.of_N (Byte.to_N (M p)).

(** [*mem] for [char *mem]: plain [char] is signed on the targets of the
    hardware path. *)
Definition load_char (M : memory) (p : Z) : Z :=
  let v := load_uint8 M p in if v <? 128 then v else v - 256.

(** [*(uint16_t * )mem] and [*(uint32_t * )mem], little-endian. *)
Definition load_uint16 (M : memory) (p : Z) : Z :=
  Z.lor (load_uint8 M p) (Z.shiftl (load_uint8 M (p + 1)) 8).

Definition load_uint32 (M : memory) (p : Z) : Z :=
  Z.lor (Z.lor (Z.lor (load_uint8 M p)
                      (Z.shiftl (load_uint8 M (p + 1)) 8))
               (Z.shiftl (load_uint8 M (p + 2)) 16))
        (Z.shiftl (load_uint8 M (p + 3)) 24).

(** The [n] bytes at [p], in address order. *)
Definition mem_bytes (M : memory) (p : Z) (n : nat) : list byte :=
  map (fun i => M (p + Z.of_nat i)) (seq 0 n).

(** [l] written at [p]. *)
Definition store_bytes (M : memory) (p : Z) (l : list byte) : memory :=
  fun a =>
    if (p <=? a) && (a <? p + Z.of_nat (length l))
    then nth (Z.to_nat (a - p)) l x00
    else M a.

(** Table lookup [t[i]]. *)
Definition tbl (t : list Z) (i : Z) : Z := nth (Z.to_nat i) t 0.

(** ** The CRC32 instruction *)

(** One step of the bit-reflected shift register of the Castagnoli
    polynomial [0x11EDC6F41] (reflected: [0x82F63B78]). *)
Definition crc32c_bit (x : Z) : Z :=
  Z.lxor (Z.shiftr x 1) (if Z.odd x then 0x82F63B78 else 0).

Fixpoint crc32c_bits (n : nat) (x : Z) : Z :=
  match n with
  | O => x
  | S k => crc32c_bits k (crc32c_bit x)
  end.

(** Modelled from the spec: the native CRC32 instruction (SSE4.2 [crc32]
    with an 8, 16 or 32-bit source operand) behind the compiler builtins
    [__builtin_ia32_crc32qi], [__builtin_ia32_crc32hi] and
    [__builtin_ia32_crc32si], which are no source of this repository: the
    source operand is folded into the low bits of the accumulator and the
    register is shifted once per operand bit. *)
Definition __builtin_ia32_crc32qi (crc v : Z) : Z := crc32c_bits 8 (Z.lxor crc v).
Definition __builtin_ia32_crc32hi (crc v : Z) : Z := crc32c_bits 16 (Z.lxor crc v).
Definition __builtin_ia32_crc32si (crc v : Z) : Z := crc32c_bits 32 (Z.lxor crc v).

(** ** [get_checksum_crc32c] *)

(** *** Hardware path *)

(** [for (i = 0; i < (size / sizeof(uint32_t)); i++)], [n] iterations. *)
Fixpoint hw_word_loop (M : memory) (n : nat) (crc mem : Z) : Z * Z :=
  match n with
  | O => (crc, mem)
  | S k =>
      hw_word_loop M k (__builtin_ia32_crc32si crc (load_uint32 M mem)) (mem + 4)
  end.

(** [switch (size)] after [size &= sizeof(uint32_t) - 1]; case 3 falls
    through into case 2. *)
Definition hw_tail (M : memory) (crc mem size : Z) : Z :=
  if size =? 3 then
    let crc := __builtin_ia32_crc32qi crc (to_uchar (load_char M mem)) in
    let mem := mem + 1 in
    __builtin_ia32_crc32hi crc (load_uint16 M mem)
  else if size =? 2 then
    __builtin_ia32_crc32hi crc (load_uint16 M mem)
  else if size =? 1 then
    __builtin_ia32_crc32qi crc (to_uchar (load_char M mem))
  else crc.

Definition checksum_hw (M : memory) (icrc mem size : Z) : Z :=
  let '(crc, mem) := hw_word_loop M (Z.to_nat (size / 4)) icrc mem in
  let size := Z.land size (4 - 1) in
  hw_tail M crc mem size.

(** *** Software path (slicing-by-8) *)

(** [crc = crc_tableil8_o32[(crc ^ *mem++) & 0x000000FF] ^ (crc >> 8)] *)
Definition sw_byte_step (M : memory) (crc mem : Z) : Z :=
  Z.lxor (tbl crc_tableil8_o32
              (Z.land (Z.lxor crc (to_uint (load_char M mem))) 0x000000FF))
         (Z.shiftr crc 8).

Fixpoint sw_byte_loop (M : memory) (n : nat) (crc mem : Z) : Z * Z :=
  match n with
  | O => (crc, mem)
  | S k => sw_byte_loop M k (sw_byte_step M crc mem) (mem + 1)
  end.

(** The body of the bulk loop: one 8-byte group. *)
Definition sw_bulk_step (M : memory) (crc mem : Z) : Z :=
  let crc := Z.lxor crc (load_uint32 M mem) in
  let mem := mem + 4 in
  let term1 :=
    Z.lxor (tbl crc_tableil8_o88 (Z.land crc 0x000000FF))
           (tbl crc_tableil8_o80 (Z.land (Z.shiftr crc 8) 0x000000FF)) in
  let term2 := Z.shiftr crc 16 in
  let crc :=
    Z.lxor (Z.lxor term1 (tbl crc_tableil8_o72 (Z.land term2 0x000000FF)))
           (tbl crc_tableil8_o64 (Z.land (Z.shiftr term2 8) 0x000000FF)) in
  let term1 :=
    Z.lxor (tbl crc_tableil8_o56 (Z.land (load_uint32 M mem) 0x000000FF))
           (tbl crc_tableil8_o48
                (Z.land (Z.shiftr (load_uint32 M mem) 8) 0x000000FF)) in
  let term2 := Z.shiftr (load_uint32 M mem) 16 in
  Z.lxor (Z.lxor (Z.lxor crc term1)
                 (tbl crc_tableil8_o40 (Z.land term2 0x000000FF)))
         (tbl crc_tableil8_o32 (Z.land (Z.shiftr term2 8) 0x000000FF)).

Fixpoint sw_bulk_loop (M : memory) (n : nat) (crc mem : Z) : Z * Z :=
  match n with
  | O => (crc, mem)
  | S k => sw_bulk_loop M k (sw_bulk_step M crc mem) (mem + 8)
  end.

Definition checksum_sw (M : memory) (icrc mem size : Z) : Z :=
  let initial_bytes := Z.land (to_size_t (4 - mem)) (4 - 1) in
  let initial_bytes := if size <? initial_bytes then size else initial_bytes in
  let '(crc, mem) := sw_byte_loop M (Z.to_nat initial_bytes) icrc mem in
  let size := size - initial_bytes in
  let running_length := Z.land size (to_size_t (Z.lnot (8 - 1))) in
  let end_bytes := size - running_length in
  let '(crc, mem) := sw_bulk_loop M (Z.to_nat (running_length / 8)) crc mem in
  fst (sw_byte_loop M (Z.to_nat end_bytes) crc mem).

Definition get_checksum_crc32c
    (M : memory) (icrc mem size have_hw_crc32 : Z) : Z :=
  if have_hw_crc32 =? YES
  then checksum_hw M icrc mem size
  else checksum_sw M icrc mem size.

(** ** [get_str_checksum_crc32c] *)

(** The C library's [strlen]: the scan stops at the first NUL; [None] when
    none is met within [fuel] bytes. *)
Fixpoint strlen (fuel : nat) (M : memory) (s : Z) : option Z :=
  match fuel with
  | O => None
  | S k =>
      if Byte.eqb (M s) x00 then Some 0
      else option_map Z.succ (strlen k M (s + 1))
  end.

Definition get_str_checksum_crc32c
    (fuel : nat) (M : memory) (str have_hw_crc32 : Z) : option Z :=
  option_map
    (fun n => get_checksum_crc32c M INITIAL_CRC str n have_hw_crc32)
    (strlen fuel M str).

(** ** [get_file_checksum_crc32c] *)

(** What one call of [read(2)] on the descriptor will do: fail, or deliver
    bytes (cut to the requested count). *)
Inductive outcome : Type :=
| ReadError
| ReadData (l : list byte).

(** The memory, the outcomes still to come from the descriptor, and the
    requests [(buf, count)] issued so far, oldest first. *)
Record world : Type := mkWorld
  { w_mem : memory;
    w_script : list outcome;
    w_log : list (Z * Z) }.

(** [read(fd, buf, count)]: [-1] on error, else the number of bytes stored
    at [buf]; a descriptor with nothing left is at end of file. *)
Definition read (w : world) (buf count : Z) : Z * world :=
  let log := w_log w ++ [(buf, count)] in
  match w_script w with
  | [] => (0, mkWorld (w_mem w) [] log)
  | ReadError :: s => (-1, mkWorld (w_mem w) s log)
  | ReadData l :: s =>
      let d := firstn (Z.to_nat count) l in
      (Z.of_nat (length d), mkWorld (store_bytes (w_mem w) buf d) s log)
  end.

(** The result of the adapter: the returned status, the value left in
    [*crc], and the world afterwards.  The stores to [*crc] are kept as
    this value and not written to [w_mem]: [crc] is taken not to point
    into the buffer, and [w_mem] holds what the reads store. *)
Definition file_result : Type := (Z * Z * world)%type.

(** One pass through the body of the [do ... while] loop: either the
    function returns, or the loop condition is evaluated next on
    [bytes_read]. *)
Inductive pass : Type :=
| Return (r : file_result)
| Test (bytes_read crc : Z) (w : world).

Definition file_loop_body (w : world)
    (buffer buf_size crc have_hw_crc32 : Z) : pass :=
  let ptr := buffer in
  let '(bytes_read, w) := read w ptr (to_size_t buf_size) in
  if 0 <? bytes_read then
    Test bytes_read
         (get_checksum_crc32c (w_mem w) crc ptr (to_size_t bytes_read)
                              have_hw_crc32)
         w
  else if bytes_read =? -1 then Return (INCORRECT, crc, w)
  else Test bytes_read crc w.

(** The [do ... while (bytes_read == buf_size)] loop; [None] when [fuel]
    iterations did not end it. *)
Fixpoint file_loop (fuel : nat) (w : world)
    (buffer buf_size crc have_hw_crc32 : Z) : option file_result :=
  match fuel with
  | O => None
  | S k =>
      match file_loop_body w buffer buf_size crc have_hw_crc32 with
      | Return r => Some r
      | Test bytes_read crc w =>
          if bytes_read =? buf_size
          then file_loop k w buffer buf_size crc have_hw_crc32
          else Some (SUCCESS, crc, w)
      end
  end.

(** The first read and fold, before the loop. *)
Definition file_first (w : world)
    (buffer buf_size offset have_hw_crc32 : Z) : pass :=
  let crc := INITIAL_CRC in
  let ptr := buffer in
  let '(bytes_read, w) :=
    read w (ptr + offset) (to_size_t (buf_size - offset)) in
  if 0 <=? bytes_read then
    let bytes_read := to_int (bytes_read + offset) in
    Test bytes_read
         (get_checksum_crc32c (w_mem w) crc ptr (to_size_t bytes_read)
                              have_hw_crc32)
         w
  else if bytes_read =? -1 then Return (INCORRECT, crc, w)
  else Test bytes_read crc w.

Definition get_file_checksum_crc32c (fuel : nat) (w : world)
    (buffer buf_size offset have_hw_crc32 : Z) : option file_result :=
  match file_first w buffer buf_size offset have_hw_crc32 with
  | Return r => Some r
  | Test bytes_read crc w =>
      if bytes_read =? buf_size
      then file_loop fuel w buffer buf_size crc have_hw_crc32
      else Some (SUCCESS, crc, w)
  end.

(** ** Reference semantics: the CRC-32C register over a byte sequence *)

Definition crc32c_byte (crc : Z) (b : byte) : Z :=
  crc32c_bits 8 (Z.lxor crc (Z.of_N (Byte.to_N b))).

Definition crc32c_fold (crc : Z) (l : list byte) : Z :=
  fold_left crc32c_byte l crc.

(** Sequential folding of contiguous chunks of the given sizes, each call's
    result being the [icrc] of the next; the state is the running CRC and
    the address of the next chunk. *)
Definition chunk_step (M : memory) (hw : Z) (st : Z * Z) (n : Z) : Z * Z :=
  (get_checksum_crc32c M (fst st) (snd st) n hw, snd st + n).

Definition fold_chunks (M : memory) (hw crc mem : Z) (sizes : list Z) : Z :=
  fst (fold_left (chunk_step M hw) sizes (crc, mem)).

Definition sum_sizes (sizes : list Z) : Z := fold_right Z.add 0 sizes.

(** The memory that holds [l] at [base] and NUL elsewhere. *)
Definition mem_of_list (base : Z) (l : list byte) : memory :=
  store_bytes (fun _ => x00) base l.

(** The software path over [l] placed at address [mem], from the seed. *)
Definition sw_checksum_at (mem : Z) (l : list byte) : Z :=
  get_checksum_crc32c (mem_of_list mem l) INITIAL_CRC mem
                      (Z.of_nat (length l)) NO.

(** The ASCII string ["123456789"]. *)
Definition digits_1_9 : list byte := [x31; x32; x33; x34; x35; x36; x37; x38; x39].

(** [M] holds at [str] the bytes [s], none of them NUL, followed by the
    terminating NUL. *)
Definition is_c_string (M : memory) (str : Z) (s : list byte) : Prop :=
  mem_bytes M str (length s) = s /\
  Forall (fun b => b <> x00) s /\
  M (str + Z.of_nat (length s)) = x00.

(** The table whose entry [i] is [i] after [n] shifts of the register. *)
Definition table_of_bits (n : nat) : list Z :=
  map (fun i => crc32c_bits n (Z.of_nat i)) (seq 0 256).

(** The reads of a run that fill the buffer: the first delivers
    [buf_size - offset] bytes, every later one [buf_size]. *)
Definition full_reads (buf_size offset : Z) (chunks : list (list byte)) : Prop :=
  match chunks with
  | [] => True
  | c0 :: cs =>
      Z.of_nat (length c0) = buf_size - offset /\
      Forall (fun c => Z.of_nat (length c) = buf_size) cs
  end.

(** The first [n] requests of a run: one for [buf_size - offset] bytes at
    [buffer + offset], then requests for [buf_size] bytes at [buffer]. *)
Definition requests (buffer buf_size offset : Z) (n : nat) : list (Z * Z) :=
  match n with
  | O => []
  | S k => (buffer + offset, buf_size - offset) :: repeat (buffer, buf_size) k
  end.

(** The bytes a run has folded after the reads [chunks]: the bytes found
    below [offset] and then everything read. *)
Definition folded_bytes (M : memory) (buffer offset : Z)
    (chunks : list (list byte)) : list byte :=
  mem_bytes M buffer (Z.to_nat offset) ++ concat chunks.

(** The status and the value of [*crc] of a result. *)
Definition status_and_crc (r : option file_result) : option (Z * Z) :=
  option_map fst r.

(** A memory of zero bytes and a world over it with the given script and
    no request issued yet. *)
Definition zero_mem : memory := fun _ => x00.

Definition fresh_world (script : list outcome) : world :=
  mkWorld zero_mem script [].

(** ** [detect_cpu_crc32] *)

(** Modelled from the spec: [bit_SSE4_2] of the compiler's [cpuid.h], the
    SSE4.2 feature bit of [ecx] for CPUID leaf 1. *)
Definition bit_SSE4_2 : Z := Z.shiftl 1 20.

(** [cpuid1] is what [__get_cpuid(1, &eax, &ebx, &ecx, &edx)] delivers in
    [(eax, ebx, ecx, edx)], or [None] when the leaf is not supported; the
    registers then keep their values, [ecx] its initial [0]. *)
Definition detect_cpu_crc32 (cpuid1 : option (Z * Z * Z * Z)) : Z :=
  let ecx := match cpuid1 with
             | Some (_, _, ecx, _) => ecx
             | None => 0
             end in
  if negb (Z.land ecx bit_SSE4_2 =? 0) then YES else NO.

(** The little-endian value of a byte sequence. *)
Fixpoint le_value (l : list byte) : Z :=
  match l with
  | [] => 0
  | b :: rest => Z.lor (Z.of_N (Byte.to_N b)) (Z.shiftl (le_value rest) 8)
  end.

(** The effects on the world of a run of the file adapter that has issued
    [n] requests: the requests logged, the outcomes consumed, and memory
    outside the buffer untouched. *)
Definition run_effects (buffer buf_size offset : Z) (w w' : world) (n : nat)
    : Prop :=
  w_log w' = w_log w ++ requests buffer buf_size offset n /\
  w_script w' = skipn n (w_script w) /\
  (forall a, a < buffer \/ buffer + buf_size <= a -> w_mem w' a = w_mem w a).


(** * Properties *)

(** ** Bitwise facts on [Z] *)

Module Bits.

Ltac by_bits :=
  apply Z.bits_inj'; intros ?n ?Hn;
  repeat first [ rewrite Z.lxor_spec | rewrite Z.land_spec
               | rewrite Z.lor_spec | rewrite Z.ldiff_spec
               | rewrite Z.bits_0 ];
  repeat match goal with
         | |- context [Z.testbit ?a ?n] => destruct (Z.testbit a n)
         end;
  reflexivity.

(** Range side conditions, with the powers of two as literals. *)
Ltac ranges :=
  unfold is_uint, is_size_t in *;
  change (2 ^ 64) with 18446744073709551616 in *;
  change (2 ^ 32) with 4294967296 in *;
  change (2 ^ 31) with 2147483648 in *;
  lia.

Lemma odd_lxor (x y : Z) : Z.odd (Z.lxor x y) = xorb (Z.odd x) (Z.odd y).
Proof. rewrite <- !Z.bit0_odd. apply Z.lxor_spec. Qed.

(** A value is its low [k] bits joined with the rest. *)
Lemma split_low (k x : Z) :
  0 <= k ->
  x = Z.lxor (Z.land x (Z.ones k)) (Z.shiftl (Z.shiftr x k) k).
Proof.
  intros Hk. rewrite <- Z.ldiff_ones_r by assumption. by_bits.
Qed.

Lemma land_255_range (x : Z) : 0 <= Z.land x 255 < 256.
Proof.
  change 255 with (Z.ones 8). rewrite Z.land_ones by lia.
  apply Z.mod_pos_bound. reflexivity.
Qed.

Lemma small_land_ones (k b : Z) :
  0 <= k -> 0 <= b < 2 ^ k -> Z.land b (Z.ones k) = b.
Proof.
  intros Hk Hb. rewrite Z.land_ones by assumption. apply Z.mod_small, Hb.
Qed.

(** Disjoint bit ranges: [|] and [^] agree. *)
Lemma lor_shiftl_lxor (k b w : Z) :
  0 <= k -> 0 <= b < 2 ^ k ->
  Z.lor b (Z.shiftl w k) = Z.lxor b (Z.shiftl w k).
Proof.
  intros Hk Hb. symmetry. apply Z.lxor_lor.
  rewrite <- (small_land_ones k b) by assumption.
  apply Z.bits_inj'; intros n Hn.
  rewrite !Z.land_spec, Z.bits_0.
  destruct (Z.lt_ge_cases n k) as [Hlt | Hge].
  - rewrite Z.shiftl_spec_low by assumption. apply andb_false_r.
  - rewrite Z.ones_spec_high by lia. rewrite andb_false_r. reflexivity.
Qed.

Lemma shiftr_small (k b : Z) : 0 <= k -> 0 <= b < 2 ^ k -> Z.shiftr b k = 0.
Proof.
  intros Hk Hb. rewrite Z.shiftr_div_pow2 by assumption.
  apply Z.div_small, Hb.
Qed.

Lemma land_lxor_distr (a b c : Z) :
  Z.land (Z.lxor a b) c = Z.lxor (Z.land a c) (Z.land b c).
Proof. by_bits. Qed.

Lemma lxor_range (k a b : Z) :
  0 <= k -> 0 <= a < 2 ^ k -> 0 <= b < 2 ^ k -> 0 <= Z.lxor a b < 2 ^ k.
Proof.
  intros Hk Ha Hb.
  rewrite <- (small_land_ones k a), <- (small_land_ones k b) by assumption.
  rewrite <- land_lxor_distr, Z.land_ones by assumption.
  apply Z.mod_pos_bound. apply Z.pow_pos_nonneg; lia.
Qed.

Lemma lor_range (k a b : Z) :
  0 <= k -> 0 <= a < 2 ^ k -> 0 <= b < 2 ^ k -> 0 <= Z.lor a b < 2 ^ k.
Proof.
  intros Hk Ha Hb.
  rewrite <- (small_land_ones k a), <- (small_land_ones k b) by assumption.
  rewrite <- Z.land_lor_distr_l, Z.land_ones by assumption.
  apply Z.mod_pos_bound. apply Z.pow_pos_nonneg; lia.
Qed.

(** [size & ~(sizeof(uint64_t) - 1)] rounds a [size_t] down to a multiple
    of 8. *)
Lemma land_lnot7 (s : Z) :
  0 <= s < 2 ^ 64 -> Z.land s (to_size_t (Z.lnot (8 - 1))) = 8 * (s / 8).
Proof.
  intros Hs. unfold to_size_t.
  rewrite <- Z.land_ones by lia.
  rewrite Z.land_assoc, (Z.land_comm s), <- Z.land_assoc.
  rewrite (small_land_ones 64 s) by lia.
  rewrite Z.land_comm, <- Z.ldiff_land.
  change (8 - 1) with (Z.ones 3).
  rewrite Z.ldiff_ones_r by lia.
  rewrite Z.shiftl_mul_pow2, Z.shiftr_div_pow2 by lia.
  change (2 ^ 3) with 8. lia.
Qed.

(** [x & 3] is the remainder modulo 4. *)
Lemma land_3 (x : Z) : Z.land x (4 - 1) = x mod 4.
Proof. change (4 - 1) with (Z.ones 2). apply Z.land_ones. lia. Qed.

End Bits.

(** ** The shift register is linear over XOR *)

Module Register.
Import Bits.

Lemma bit_lxor (x y : Z) :
  crc32c_bit (Z.lxor x y) = Z.lxor (crc32c_bit x) (crc32c_bit y).
Proof.
  unfold crc32c_bit. rewrite Z.shiftr_lxor, odd_lxor.
  generalize 0x82F63B78 (Z.shiftr x 1) (Z.shiftr y 1). intros p a b.
  destruct (Z.odd x), (Z.odd y); cbn [xorb]; by_bits.
Qed.

Lemma bits_lxor (n : nat) :
  forall x y,
    crc32c_bits n (Z.lxor x y) = Z.lxor (crc32c_bits n x) (crc32c_bits n y).
Proof.
  induction n as [| n IH]; intros x y; cbn [crc32c_bits].
  - reflexivity.
  - rewrite bit_lxor. apply IH.
Qed.

Lemma bits_add (n m : nat) :
  forall x, crc32c_bits (n + m) x = crc32c_bits m (crc32c_bits n x).
Proof.
  induction n as [| n IH]; intros x; cbn [crc32c_bits Nat.add].
  - reflexivity.
  - apply IH.
Qed.

Lemma bit_shiftl (n : nat) (y : Z) :
  crc32c_bit (Z.shiftl y (Z.of_nat (S n))) = Z.shiftl y (Z.of_nat n).
Proof.
  unfold crc32c_bit.
  rewrite <- Z.bit0_odd, Z.shiftl_spec_low by lia.
  rewrite Z.lxor_0_r, Z.shiftr_shiftl_l by lia.
  f_equal. lia.
Qed.

(** Bits shifted in above the register come out unchanged. *)
Lemma bits_shiftl (n : nat) :
  forall y, crc32c_bits n (Z.shiftl y (Z.of_nat n)) = y.
Proof.
  induction n as [| n IH]; intros y; cbn [crc32c_bits].
  - apply Z.shiftl_0_r.
  - rewrite bit_shiftl. apply IH.
Qed.

Lemma bits_shiftl_add (n m : nat) (y : Z) :
  crc32c_bits (n + m) (Z.shiftl y (Z.of_nat n)) = crc32c_bits m y.
Proof. rewrite bits_add, bits_shiftl. reflexivity. Qed.

Lemma bits_0 (n : nat) : crc32c_bits n 0 = 0.
Proof.
  induction n as [| n IH]; cbn [crc32c_bits]; [reflexivity | exact IH].
Qed.

(** Slicing: the low byte and the rest go through the register
    independently. *)
Lemma bits_slice (m : nat) (z : Z) :
  crc32c_bits (8 + m) z =
  Z.lxor (crc32c_bits (8 + m) (Z.land z 255)) (crc32c_bits m (Z.shiftr z 8)).
Proof.
  rewrite (split_low 8 z) at 1 by lia.
  rewrite bits_lxor. f_equal.
  apply (bits_shiftl_add 8 m (Z.shiftr z 8)).
Qed.

(** Folding a byte in and then more input [w] above it. *)
Lemma bits_absorb (m : nat) (c b w : Z) :
  0 <= b < 256 ->
  crc32c_bits (8 + m) (Z.lxor c (Z.lor b (Z.shiftl w 8))) =
  crc32c_bits m (Z.lxor (crc32c_bits 8 (Z.lxor c b)) w).
Proof.
  intros Hb.
  rewrite (lor_shiftl_lxor 8) by (change (2 ^ 8) with 256; lia).
  rewrite <- Z.lxor_assoc, bits_add, bits_lxor.
  change (Z.shiftl w 8) with (Z.shiftl w (Z.of_nat 8)). rewrite bits_shiftl.
  reflexivity.
Qed.

Lemma bits8_slice (z : Z) :
  crc32c_bits 8 z =
  Z.lxor (crc32c_bits 8 (Z.land z 255)) (Z.shiftr z 8).
Proof. exact (bits_slice 0 z). Qed.

Lemma bits16_absorb (c b w : Z) :
  0 <= b < 256 ->
  crc32c_bits 16 (Z.lxor c (Z.lor b (Z.shiftl w 8))) =
  crc32c_bits 8 (Z.lxor (crc32c_bits 8 (Z.lxor c b)) w).
Proof. exact (bits_absorb 8 c b w). Qed.

Lemma bits24_absorb (c b w : Z) :
  0 <= b < 256 ->
  crc32c_bits 24 (Z.lxor c (Z.lor b (Z.shiftl w 8))) =
  crc32c_bits 16 (Z.lxor (crc32c_bits 8 (Z.lxor c b)) w).
Proof. exact (bits_absorb 16 c b w). Qed.

Lemma bits32_absorb (c b w : Z) :
  0 <= b < 256 ->
  crc32c_bits 32 (Z.lxor c (Z.lor b (Z.shiftl w 8))) =
  crc32c_bits 24 (Z.lxor (crc32c_bits 8 (Z.lxor c b)) w).
Proof. exact (bits_absorb 24 c b w). Qed.

Lemma bit_range (x : Z) : is_uint x -> is_uint (crc32c_bit x).
Proof.
  unfold is_uint, crc32c_bit. intros Hx.
  apply lxor_range; [lia | |].
  - rewrite Z.shiftr_div_pow2 by lia. change (2 ^ 1) with 2.
    change (2 ^ 32) with 4294967296 in *.
    Z.div_mod_to_equations. lia.
  - destruct (Z.odd x); change (2 ^ 32) with 4294967296; lia.
Qed.

Lemma bits_range (n : nat) : forall x, is_uint x -> is_uint (crc32c_bits n x).
Proof.
  induction n as [| n IH]; intros x Hx; cbn [crc32c_bits].
  - exact Hx.
  - apply IH, bit_range, Hx.
Qed.

End Register.

(** ** The embedded tables are the register's tables *)

Module Tables.

Lemma tbl_table_of_bits (n : nat) (i : Z) :
  0 <= i < 256 -> tbl (table_of_bits n) i = crc32c_bits n i.
Proof.
  intros Hi. unfold tbl, table_of_bits.
  assert (Hlt : (Z.to_nat i < 256)%nat) by lia.
  rewrite (nth_indep _ 0 (crc32c_bits n (Z.of_nat 0)))
    by (rewrite length_map, length_seq; exact Hlt).
  rewrite (map_nth (fun i => crc32c_bits n (Z.of_nat i))).
  rewrite seq_nth by exact Hlt.
  f_equal. lia.
Qed.

Lemma o32_bits : crc_tableil8_o32 = table_of_bits 8.
Proof. vm_compute. reflexivity. Qed.
Lemma o40_bits : crc_tableil8_o40 = table_of_bits 16.
Proof. vm_compute. reflexivity. Qed.
Lemma o48_bits : crc_tableil8_o48 = table_of_bits 24.
Proof. vm_compute. reflexivity. Qed.
Lemma o56_bits : crc_tableil8_o56 = table_of_bits 32.
Proof. vm_compute. reflexivity. Qed.
Lemma o64_bits : crc_tableil8_o64 = table_of_bits 40.
Proof. vm_compute. reflexivity. Qed.
Lemma o72_bits : crc_tableil8_o72 = table_of_bits 48.
Proof. vm_compute. reflexivity. Qed.
Lemma o80_bits : crc_tableil8_o80 = table_of_bits 56.
Proof. vm_compute. reflexivity. Qed.
Lemma o88_bits : crc_tableil8_o88 = table_of_bits 64.
Proof. vm_compute. reflexivity. Qed.

Lemma o32_at (x : Z) :
  tbl crc_tableil8_o32 (Z.land x 255) = crc32c_bits 8 (Z.land x 255).
Proof. rewrite o32_bits. apply tbl_table_of_bits, Bits.land_255_range. Qed.
Lemma o40_at (x : Z) :
  tbl crc_tableil8_o40 (Z.land x 255) = crc32c_bits 16 (Z.land x 255).
Proof. rewrite o40_bits. apply tbl_table_of_bits, Bits.land_255_range. Qed.
Lemma o48_at (x : Z) :
  tbl crc_tableil8_o48 (Z.land x 255) = crc32c_bits 24 (Z.land x 255).
Proof. rewrite o48_bits. apply tbl_table_of_bits, Bits.land_255_range. Qed.
Lemma o56_at (x : Z) :
  tbl crc_tableil8_o56 (Z.land x 255) = crc32c_bits 32 (Z.land x 255).
Proof. rewrite o56_bits. apply tbl_table_of_bits, Bits.land_255_range. Qed.
Lemma o64_at (x : Z) :
  tbl crc_tableil8_o64 (Z.land x 255) = crc32c_bits 40 (Z.land x 255).
Proof. rewrite o64_bits. apply tbl_table_of_bits, Bits.land_255_range. Qed.
Lemma o72_at (x : Z) :
  tbl crc_tableil8_o72 (Z.land x 255) = crc32c_bits 48 (Z.land x 255).
Proof. rewrite o72_bits. apply tbl_table_of_bits, Bits.land_255_range. Qed.
Lemma o80_at (x : Z) :
  tbl crc_tableil8_o80 (Z.land x 255) = crc32c_bits 56 (Z.land x 255).
Proof. rewrite o80_bits. apply tbl_table_of_bits, Bits.land_255_range. Qed.
Lemma o88_at (x : Z) :
  tbl crc_tableil8_o88 (Z.land x 255) = crc32c_bits 64 (Z.land x 255).
Proof. rewrite o88_bits. apply tbl_table_of_bits, Bits.land_255_range. Qed.

End Tables.

(** ** Memory *)

Module Mem.

Lemma load_uint8_range (M : memory) (p : Z) : 0 <= load_uint8 M p < 256.
Proof.
  unfold load_uint8. pose proof (Byte.to_N_bounded (M p)). lia.
Qed.

Lemma load_char_mod (M : memory) (p : Z) :
  load_char M p mod 256 = load_uint8 M p.
Proof.
  unfold load_char. pose proof (load_uint8_range M p) as H.
  destruct (load_uint8 M p <? 128); Z.div_mod_to_equations; lia.
Qed.

Lemma to_uchar_load_char (M : memory) (p : Z) :
  to_uchar (load_char M p) = load_uint8 M p.
Proof. apply load_char_mod. Qed.

(** The low byte of a [char] converted to [unsigned int]. *)
Lemma to_uint_load_char_low (M : memory) (p : Z) :
  Z.land (to_uint (load_char M p)) 255 = load_uint8 M p.
Proof.
  change 255 with (Z.ones 8). rewrite Z.land_ones by lia.
  rewrite <- load_char_mod. unfold to_uint.
  change (2 ^ 32) with 4294967296. change (2 ^ 8) with 256.
  Z.div_mod_to_equations. lia.
Qed.

Lemma load_uint16_nested (M : memory) (p : Z) :
  load_uint16 M p =
  Z.lor (load_uint8 M p) (Z.shiftl (load_uint8 M (p + 1)) 8).
Proof. reflexivity. Qed.

Lemma load_uint32_nested (M : memory) (p : Z) :
  load_uint32 M p =
  Z.lor (load_uint8 M p)
        (Z.shiftl
           (Z.lor (load_uint8 M (p + 1))
                  (Z.shiftl
                     (Z.lor (load_uint8 M (p + 2))
                            (Z.shiftl (load_uint8 M (p + 3)) 8)) 8)) 8).
Proof.
  unfold load_uint32.
  rewrite !Z.shiftl_lor, !Z.shiftl_shiftl by lia.
  change (8 + 8) with 16. change (16 + 8) with 24.
  rewrite !Z.lor_assoc. reflexivity.
Qed.

Lemma load_uint32_range (M : memory) (p : Z) : is_uint (load_uint32 M p).
Proof.
  unfold is_uint, load_uint32.
  pose proof (load_uint8_range M p).
  pose proof (load_uint8_range M (p + 1)).
  pose proof (load_uint8_range M (p + 2)).
  pose proof (load_uint8_range M (p + 3)).
  repeat apply Bits.lor_range; try lia;
    rewrite ?Z.shiftl_mul_pow2 by lia;
    change (2 ^ 32) with 4294967296; change (2 ^ 8) with 256;
    change (2 ^ 16) with 65536; change (2 ^ 24) with 16777216; lia.
Qed.

Lemma mem_bytes_0 (M : memory) (p : Z) : mem_bytes M p 0 = [].
Proof. reflexivity. Qed.

Lemma mem_bytes_S (M : memory) (p : Z) (n : nat) :
  mem_bytes M p (S n) = M p :: mem_bytes M (p + 1) n.
Proof.
  unfold mem_bytes. cbn [seq map].
  rewrite Z.add_0_r. f_equal.
  rewrite <- seq_shift, map_map.
  apply map_ext. intros i. f_equal. lia.
Qed.

Lemma mem_bytes_app (M : memory) (a b : nat) :
  forall p,
    mem_bytes M p (a + b) =
    mem_bytes M p a ++ mem_bytes M (p + Z.of_nat a) b.
Proof.
  induction a as [| a IH]; intros p.
  - cbn [Nat.add]. change (Z.of_nat 0) with 0. rewrite Z.add_0_r.
    reflexivity.
  - cbn [Nat.add]. rewrite !mem_bytes_S, IH. cbn [app].
    do 3 f_equal. lia.
Qed.

Lemma length_mem_bytes (M : memory) (p : Z) (n : nat) :
  length (mem_bytes M p n) = n.
Proof. unfold mem_bytes. rewrite length_map. apply length_seq. Qed.

Lemma nth_mem_bytes (M : memory) (p : Z) (n i : nat) :
  (i < n)%nat -> nth i (mem_bytes M p n) x00 = M (p + Z.of_nat i).
Proof.
  intros Hi. unfold mem_bytes.
  rewrite (nth_indep _ x00 (M (p + Z.of_nat 0)))
    by (rewrite length_map, length_seq; exact Hi).
  rewrite (map_nth (fun i => M (p + Z.of_nat i))).
  rewrite seq_nth by exact Hi. reflexivity.
Qed.

Lemma mem_bytes_ext (M M' : memory) (p : Z) (n : nat) :
  (forall i, (i < n)%nat -> M (p + Z.of_nat i) = M' (p + Z.of_nat i)) ->
  mem_bytes M p n = mem_bytes M' p n.
Proof.
  intros H. unfold mem_bytes. apply map_ext_in.
  intros i Hi. apply in_seq in Hi. apply H. lia.
Qed.

Lemma store_bytes_inside (M : memory) (p : Z) (l : list byte) (i : nat) :
  (i < length l)%nat -> store_bytes M p l (p + Z.of_nat i) = nth i l x00.
Proof.
  intros Hi. unfold store_bytes.
  replace ((p <=? p + Z.of_nat i) && (p + Z.of_nat i <? p + Z.of_nat (length l)))
    with true by (symmetry; apply andb_true_iff; split; lia).
  f_equal. lia.
Qed.

Lemma store_bytes_below (M : memory) (p a : Z) (l : list byte) :
  a < p -> store_bytes M p l a = M a.
Proof.
  intros Ha. unfold store_bytes.
  replace (p <=? a) with false by (symmetry; lia). reflexivity.
Qed.

(** What was read is what the checksum sees. *)
Lemma mem_bytes_store (M : memory) (p : Z) (l : list byte) :
  mem_bytes (store_bytes M p l) p (length l) = l.
Proof.
  apply (nth_ext _ _ x00 x00).
  - apply length_mem_bytes.
  - intros i Hi. rewrite length_mem_bytes in Hi.
    rewrite nth_mem_bytes by exact Hi.
    apply store_bytes_inside, Hi.
Qed.

(** The bytes below the place of a read are kept. *)
Lemma mem_bytes_store_above (M : memory) (p : Z) (k : nat) (l : list byte) :
  mem_bytes (store_bytes M (p + Z.of_nat k) l) p (k + length l) =
  mem_bytes M p k ++ l.
Proof.
  rewrite mem_bytes_app. f_equal.
  - apply mem_bytes_ext. intros i Hi. apply store_bytes_below. lia.
  - apply mem_bytes_store.
Qed.

End Mem.

(** ** Each step of the code folds the bytes it consumes *)

Module Steps.
Import Bits Register Tables Mem.

Lemma byte_range (crc : Z) (b : byte) :
  is_uint crc -> is_uint (crc32c_byte crc b).
Proof.
  intros Hc. unfold crc32c_byte. apply bits_range.
  pose proof (Byte.to_N_bounded b).
  apply lxor_range; [lia | exact Hc |].
  change (2 ^ 32) with 4294967296. lia.
Qed.

Lemma fold_nil (crc : Z) : crc32c_fold crc [] = crc.
Proof. reflexivity. Qed.

Lemma fold_cons (crc : Z) (b : byte) (l : list byte) :
  crc32c_fold crc (b :: l) = crc32c_fold (crc32c_byte crc b) l.
Proof. reflexivity. Qed.

Lemma fold_range (l : list byte) :
  forall crc, is_uint crc -> is_uint (crc32c_fold crc l).
Proof.
  induction l as [| b l IH]; intros crc Hc.
  - exact Hc.
  - rewrite fold_cons. apply IH, byte_range, Hc.
Qed.

Lemma fold_app (crc : Z) (l1 l2 : list byte) :
  crc32c_fold crc (l1 ++ l2) = crc32c_fold (crc32c_fold crc l1) l2.
Proof. apply fold_left_app. Qed.

(** The table step is one byte through the register. *)
Lemma sw_byte_step_fold (M : memory) (crc mem : Z) :
  sw_byte_step M crc mem = crc32c_byte crc (M mem).
Proof.
  unfold sw_byte_step, crc32c_byte.
  change (Z.of_N (to_N (M mem))) with (load_uint8 M mem).
  change 0x000000FF with 255.
  rewrite (bits8_slice (Z.lxor crc (load_uint8 M mem))).
  rewrite Z.shiftr_lxor.
  rewrite (shiftr_small 8 (load_uint8 M mem))
    by (try lia; apply load_uint8_range).
  rewrite Z.lxor_0_r.
  assert (E : Z.land (Z.lxor crc (to_uint (load_char M mem))) 255 =
              Z.land (Z.lxor crc (load_uint8 M mem)) 255).
  { rewrite !land_lxor_distr, to_uint_load_char_low. f_equal.
    symmetry. apply (small_land_ones 8); [lia | apply load_uint8_range]. }
  rewrite E, o32_at. unfold load_uint8. reflexivity.
Qed.

Lemma crc32qi_fold (M : memory) (crc mem : Z) :
  __builtin_ia32_crc32qi crc (to_uchar (load_char M mem)) =
  crc32c_byte crc (M mem).
Proof.
  rewrite to_uchar_load_char.
  unfold __builtin_ia32_crc32qi, crc32c_byte, load_uint8. reflexivity.
Qed.

Lemma crc32hi_fold (M : memory) (crc mem : Z) :
  __builtin_ia32_crc32hi crc (load_uint16 M mem) =
  crc32c_fold crc [M mem; M (mem + 1)].
Proof.
  unfold __builtin_ia32_crc32hi, load_uint16.
  rewrite bits16_absorb by apply load_uint8_range.
  rewrite !fold_cons. unfold crc32c_fold, fold_left, crc32c_byte, load_uint8.
  reflexivity.
Qed.

Lemma crc32si_fold (M : memory) (crc mem : Z) :
  __builtin_ia32_crc32si crc (load_uint32 M mem) =
  crc32c_fold crc [M mem; M (mem + 1); M (mem + 2); M (mem + 3)].
Proof.
  unfold __builtin_ia32_crc32si. rewrite load_uint32_nested.
  rewrite bits32_absorb by apply load_uint8_range.
  rewrite bits24_absorb by apply load_uint8_range.
  rewrite bits16_absorb by apply load_uint8_range.
  rewrite !fold_cons. unfold crc32c_fold, fold_left, crc32c_byte, load_uint8.
  reflexivity.
Qed.

(** Four table lookups are four bytes of a 32-bit value through the
    register, [m] further shifts included. *)
Lemma bits_quad (m : nat) (x : Z) :
  is_uint x ->
  crc32c_bits (32 + m) x =
  Z.lxor
    (Z.lxor
       (Z.lxor (crc32c_bits (32 + m) (Z.land x 255))
               (crc32c_bits (24 + m) (Z.land (Z.shiftr x 8) 255)))
       (crc32c_bits (16 + m) (Z.land (Z.shiftr x 16) 255)))
    (crc32c_bits (8 + m) (Z.land (Z.shiftr (Z.shiftr x 16) 8) 255)).
Proof.
  intros Hx.
  change (32 + m)%nat with (8 + (8 + (8 + (8 + m))))%nat.
  change (24 + m)%nat with (8 + (8 + (8 + m)))%nat.
  change (16 + m)%nat with (8 + (8 + m))%nat.
  rewrite (bits_slice (8 + (8 + (8 + m))) x).
  rewrite (bits_slice (8 + (8 + m)) (Z.shiftr x 8)).
  rewrite (bits_slice (8 + m) (Z.shiftr (Z.shiftr x 8) 8)).
  rewrite (bits_slice m (Z.shiftr (Z.shiftr (Z.shiftr x 8) 8) 8)).
  rewrite !Z.shiftr_shiftr by lia.
  change (8 + 8) with 16. change (16 + 8) with 24. change (24 + 8) with 32.
  rewrite (shiftr_small 32 x) by (try lia; exact Hx).
  rewrite Register.bits_0, Z.lxor_0_r.
  rewrite !Z.lxor_assoc. reflexivity.
Qed.

Lemma mem_bytes_8 (M : memory) (p : Z) :
  mem_bytes M p 8 =
  [M p; M (p + 1); M (p + 2); M (p + 3)] ++
  [M (p + 4); M (p + 4 + 1); M (p + 4 + 2); M (p + 4 + 3)].
Proof.
  unfold mem_bytes. cbn [seq map app]. rewrite Z.add_0_r.
  repeat (f_equal; try lia).
Qed.

(** One bulk group is eight bytes through the register. *)
Lemma sw_bulk_step_fold (M : memory) (crc mem : Z) :
  is_uint crc ->
  sw_bulk_step M crc mem = crc32c_fold crc (mem_bytes M mem 8).
Proof.
  intros Hc.
  rewrite mem_bytes_8, fold_app, <- !crc32si_fold.
  unfold __builtin_ia32_crc32si, sw_bulk_step.
  set (x := Z.lxor crc (load_uint32 M mem)).
  set (w := load_uint32 M (mem + 4)).
  assert (Hx : is_uint x)
    by (apply lxor_range; [lia | exact Hc | apply load_uint32_range]).
  assert (Hw : is_uint w) by apply load_uint32_range.
  rewrite bits_lxor.
  rewrite <- (bits_add 32 32 x).
  rewrite (bits_quad 32 x Hx).
  change (crc32c_bits 32 w) with (crc32c_bits (32 + 0) w).
  rewrite (bits_quad 0 w Hw).
  change 0x000000FF with 255.
  rewrite o88_at, o80_at, o72_at, o64_at, o56_at, o48_at, o40_at, o32_at.
  change (32 + 32)%nat with 64%nat. change (24 + 32)%nat with 56%nat.
  change (16 + 32)%nat with 48%nat. change (8 + 32)%nat with 40%nat.
  change (32 + 0)%nat with 32%nat. change (24 + 0)%nat with 24%nat.
  change (16 + 0)%nat with 16%nat. change (8 + 0)%nat with 8%nat.
  rewrite !Z.lxor_assoc. reflexivity.
Qed.

End Steps.

(** ** Both paths fold the buffer through the CRC-32C register *)

Module Core.
Import Bits Register Tables Mem Steps.

Lemma mem_bytes_4 (M : memory) (p : Z) :
  mem_bytes M p 4 = [M p; M (p + 1); M (p + 2); M (p + 3)].
Proof. unfold mem_bytes. cbn [seq map]. rewrite Z.add_0_r. reflexivity. Qed.

Lemma sw_byte_loop_fold (M : memory) (n : nat) :
  forall crc p,
    sw_byte_loop M n crc p =
    (crc32c_fold crc (mem_bytes M p n), p + Z.of_nat n).
Proof.
  induction n as [| n IH]; intros crc p; cbn [sw_byte_loop].
  - change (Z.of_nat 0) with 0.
    rewrite Z.add_0_r, mem_bytes_0, fold_nil. reflexivity.
  - rewrite IH, sw_byte_step_fold, mem_bytes_S, fold_cons.
    f_equal. lia.
Qed.

Lemma hw_word_loop_fold (M : memory) (n : nat) :
  forall crc p,
    hw_word_loop M n crc p =
    (crc32c_fold crc (mem_bytes M p (4 * n)), p + 4 * Z.of_nat n).
Proof.
  induction n as [| n IH]; intros crc p; cbn [hw_word_loop].
  - change (Z.of_nat 0) with 0. change (4 * 0)%nat with 0%nat.
    rewrite Z.add_0_r, mem_bytes_0, fold_nil. reflexivity.
  - rewrite IH, crc32si_fold, <- mem_bytes_4, <- fold_app.
    replace (4 * S n)%nat with (4 + 4 * n)%nat by lia.
    rewrite mem_bytes_app. f_equal. lia.
Qed.

Lemma sw_bulk_loop_fold (M : memory) (n : nat) :
  forall crc p,
    is_uint crc ->
    sw_bulk_loop M n crc p =
    (crc32c_fold crc (mem_bytes M p (8 * n)), p + 8 * Z.of_nat n).
Proof.
  induction n as [| n IH]; intros crc p Hc; cbn [sw_bulk_loop].
  - change (Z.of_nat 0) with 0. change (8 * 0)%nat with 0%nat.
    rewrite Z.add_0_r, mem_bytes_0, fold_nil. reflexivity.
  - rewrite sw_bulk_step_fold by exact Hc.
    rewrite IH by (apply fold_range, Hc).
    rewrite <- fold_app.
    replace (8 * S n)%nat with (8 + 8 * n)%nat by lia.
    rewrite mem_bytes_app. f_equal. lia.
Qed.

Lemma hw_tail_fold (M : memory) (crc p r : Z) :
  0 <= r < 4 ->
  hw_tail M crc p r = crc32c_fold crc (mem_bytes M p (Z.to_nat r)).
Proof.
  intros Hr.
  assert (H : r = 0 \/ r = 1 \/ r = 2 \/ r = 3) by lia.
  destruct H as [-> | [-> | [-> | ->]]]; unfold hw_tail; cbn [Z.eqb Pos.eqb].
  - change (Z.to_nat 0) with 0%nat.
    rewrite mem_bytes_0, fold_nil. reflexivity.
  - rewrite crc32qi_fold. change (Z.to_nat 1) with 1%nat.
    rewrite mem_bytes_S, mem_bytes_0, fold_cons, fold_nil. reflexivity.
  - rewrite crc32hi_fold. change (Z.to_nat 2) with 2%nat.
    rewrite !mem_bytes_S, mem_bytes_0. reflexivity.
  - rewrite crc32qi_fold, crc32hi_fold. change (Z.to_nat 3) with 3%nat.
    rewrite !mem_bytes_S, mem_bytes_0, !fold_cons. reflexivity.
Qed.

Lemma checksum_hw_fold (M : memory) (icrc mem size : Z) :
  0 <= size ->
  checksum_hw M icrc mem size =
  crc32c_fold icrc (mem_bytes M mem (Z.to_nat size)).
Proof.
  intros Hs. unfold checksum_hw.
  rewrite hw_word_loop_fold, land_3.
  pose proof (Z.mod_pos_bound size 4 ltac:(lia)) as Hr.
  pose proof (Z.div_mod size 4 ltac:(lia)) as Hq.
  assert (0 <= size / 4) by (apply Z.div_pos; lia).
  rewrite hw_tail_fold by exact Hr.
  rewrite <- fold_app.
  replace (Z.to_nat size)
    with (4 * Z.to_nat (size / 4) + Z.to_nat (size mod 4))%nat by lia.
  rewrite mem_bytes_app. do 3 f_equal. lia.
Qed.

Lemma initial_bytes_range (mem : Z) :
  Z.land (to_size_t (4 - mem)) (4 - 1) = (4 - mem) mod 4.
Proof.
  rewrite land_3. unfold to_size_t.
  change (2 ^ 64) with 18446744073709551616.
  Z.div_mod_to_equations. lia.
Qed.

Lemma checksum_sw_fold (M : memory) (icrc mem size : Z) :
  is_uint icrc -> is_size_t size ->
  checksum_sw M icrc mem size =
  crc32c_fold icrc (mem_bytes M mem (Z.to_nat size)).
Proof.
  intros Hc Hs. unfold checksum_sw. unfold is_size_t in Hs.
  rewrite initial_bytes_range.
  pose proof (Z.mod_pos_bound (4 - mem) 4 ltac:(lia)) as Hi.
  set (ib := if size <? (4 - mem) mod 4 then size else (4 - mem) mod 4).
  assert (Hib : 0 <= ib <= size)
    by (subst ib; destruct (Z.ltb_spec size ((4 - mem) mod 4)); lia).
  rewrite sw_byte_loop_fold.
  rewrite land_lnot7 by lia.
  rewrite (Z.mul_comm 8), Z.div_mul by lia.
  pose proof (Z.div_mod (size - ib) 8 ltac:(lia)) as Hq.
  pose proof (Z.mod_pos_bound (size - ib) 8 ltac:(lia)) as Hr.
  assert (0 <= (size - ib) / 8) by (apply Z.div_pos; lia).
  rewrite sw_bulk_loop_fold by (apply fold_range, Hc).
  rewrite sw_byte_loop_fold. cbn [fst].
  rewrite <- !fold_app.
  replace (Z.to_nat size)
    with (Z.to_nat ib +
          (8 * Z.to_nat ((size - ib) / 8) +
           Z.to_nat (size - ib - (size - ib) / 8 * 8)))%nat by lia.
  rewrite !mem_bytes_app. do 4 f_equal. lia.
Qed.

(** Whatever the path and the alignment, [get_checksum_crc32c] is the fold
    of the register over the [size] bytes at [mem]. *)
Lemma get_checksum_crc32c_fold (M : memory) (icrc mem size hw : Z) :
  is_uint icrc -> is_size_t size ->
  get_checksum_crc32c M icrc mem size hw =
  crc32c_fold icrc (mem_bytes M mem (Z.to_nat size)).
Proof.
  intros Hc Hs. unfold get_checksum_crc32c.
  destruct (hw =? YES).
  - apply checksum_hw_fold, Hs.
  - apply checksum_sw_fold; assumption.
Qed.

Lemma get_checksum_crc32c_range (M : memory) (icrc mem size hw : Z) :
  is_uint icrc -> is_size_t size ->
  is_uint (get_checksum_crc32c M icrc mem size hw).
Proof.
  intros Hc Hs. rewrite get_checksum_crc32c_fold by assumption.
  apply fold_range, Hc.
Qed.

End Core.

(** ** The buffer checksum core *)

Module Checksum.
Import Bits Register Tables Mem Steps Core.

Lemma fold_chunks_cons (M : memory) (hw crc mem n : Z) (rest : list Z) :
  fold_chunks M hw crc mem (n :: rest) =
  fold_chunks M hw (get_checksum_crc32c M crc mem n hw) (mem + n) rest.
Proof.
  unfold fold_chunks. cbn [fold_left]. unfold chunk_step. cbn [fst snd].
  reflexivity.
Qed.

Lemma sum_sizes_nonneg (sizes : list Z) :
  Forall (fun n => 0 <= n) sizes -> 0 <= sum_sizes sizes.
Proof.
  unfold sum_sizes.
  induction 1 as [| n rest Hn _ IH]; cbn [fold_right]; lia.
Qed.

(** C1. Chunking invariance: for every initial CRC value, every memory
    content and every partition of [sum_sizes sizes] bytes at [mem] into
    contiguous chunks of the given sizes, folding the chunks one call after
    the other (each result being the next [icrc]) gives the CRC of a single
    call over the whole sequence; [hw] is any flag value, so this holds on
    the hardware path ([YES]) and on the software path alike. *)
Theorem chunking_invariance
    (M : memory) (hw icrc mem : Z) (sizes : list Z) :
  is_uint icrc ->
  Forall (fun n => 0 <= n) sizes ->
  is_size_t (sum_sizes sizes) ->
  fold_chunks M hw icrc mem sizes =
  get_checksum_crc32c M icrc mem (sum_sizes sizes) hw.
Proof.
  intros Hc Hpos. revert icrc mem Hc.
  induction Hpos as [| n rest Hn Hrest IH]; intros icrc mem Hc Hsum.
  - unfold fold_chunks, sum_sizes. cbn [fold_left fold_right fst].
    rewrite get_checksum_crc32c_fold by (assumption || ranges).
    change (Z.to_nat 0) with 0%nat. rewrite mem_bytes_0, fold_nil.
    reflexivity.
  - pose proof (sum_sizes_nonneg rest Hrest) as Hr.
    change (sum_sizes (n :: rest)) with (n + sum_sizes rest) in *.
    assert (Hn' : is_size_t n) by ranges.
    assert (Hr' : is_size_t (sum_sizes rest)) by ranges.
    rewrite fold_chunks_cons.
    rewrite IH
      by (try apply get_checksum_crc32c_range; assumption).
    rewrite !get_checksum_crc32c_fold
      by (try apply fold_range; try apply get_checksum_crc32c_range;
          assumption).
    rewrite <- fold_app.
    replace (Z.to_nat (n + sum_sizes rest))
      with (Z.to_nat n + Z.to_nat (sum_sizes rest))%nat by lia.
    rewrite mem_bytes_app. do 3 f_equal. lia.
Qed.

(** C2. Hardware/software equivalence: for every initial CRC value, every
    memory content, every length and every address (hence alignment) of
    the buffer, the call with [have_hw_crc32 = YES] and the call with
    [have_hw_crc32 = NO] return the same value. *)
Theorem hw_sw_equivalence (M : memory) (icrc mem size : Z) :
  is_uint icrc ->
  is_size_t size ->
  get_checksum_crc32c M icrc mem size YES =
  get_checksum_crc32c M icrc mem size NO.
Proof.
  intros Hc Hs. rewrite !get_checksum_crc32c_fold by assumption.
  reflexivity.
Qed.

End Checksum.

Module KnownAnswers.
Import Bits Register Tables Mem Steps Core.

Lemma INITIAL_CRC_range : is_uint INITIAL_CRC.
Proof. unfold INITIAL_CRC. ranges. Qed.

Lemma sw_checksum_at_fold (mem : Z) (l : list byte) :
  is_size_t (Z.of_nat (length l)) ->
  sw_checksum_at mem l = crc32c_fold INITIAL_CRC l.
Proof.
  intros Hl. unfold sw_checksum_at.
  rewrite get_checksum_crc32c_fold by (apply INITIAL_CRC_range || exact Hl).
  rewrite Nat2Z.id. unfold mem_of_list. rewrite mem_bytes_store.
  reflexivity.
Qed.

(** The published value of ["123456789"] is not what the code returns. *)
Lemma known_answer_digits_differs :
  get_checksum_crc32c (mem_of_list 0 digits_1_9) INITIAL_CRC 0 9 NO
  <> 0xE3069283.
Proof. vm_compute. discriminate. Qed.

(** No seed whatever makes the empty buffer and ["123456789"] both come
    out at their published values [0] and [0xE3069283]. *)
Lemma known_answers_need_final_xor (seed : Z) :
  is_uint seed ->
  ~ (get_checksum_crc32c (mem_of_list 0 []) seed 0 0 NO = 0 /\
     get_checksum_crc32c (mem_of_list 0 digits_1_9) seed 0 9 NO
     = 0xE3069283).
Proof.
  intros Hs [H0 H9].
  rewrite get_checksum_crc32c_fold in H0 by (exact Hs || ranges).
  change (Z.to_nat 0) with 0%nat in H0.
  rewrite mem_bytes_0, fold_nil in H0. subst seed.
  vm_compute in H9. discriminate.
Qed.

(** C3 (amended). Known answers: from [INITIAL_CRC], at every address, the
    software path returns the bitwise complement of the published CRC-32C
    of the reference inputs, no final XOR being applied: [0xFFFFFFFF] for
    the empty buffer, [0xAD82ACAE] for the byte [0x00] and [0x1CF96D7C]
    for ["123456789"]; XOR with [0xFFFFFFFF] gives the published [0],
    [0x527D5351] and [0xE3069283]. *)
Theorem known_answers_complemented (mem : Z) :
  (sw_checksum_at mem [] = 0xFFFFFFFF /\
   sw_checksum_at mem [x00] = 0xAD82ACAE /\
   sw_checksum_at mem digits_1_9 = 0x1CF96D7C) /\
  (Z.lxor (sw_checksum_at mem []) 0xFFFFFFFF = 0x00000000 /\
   Z.lxor (sw_checksum_at mem [x00]) 0xFFFFFFFF = 0x527D5351 /\
   Z.lxor (sw_checksum_at mem digits_1_9) 0xFFFFFFFF = 0xE3069283).
Proof.
  rewrite !sw_checksum_at_fold
    by (vm_compute; split; [discriminate | reflexivity]).
  vm_compute. repeat split; reflexivity.
Qed.

End KnownAnswers.

Module Paths.
Import Bits Register Tables Mem Steps Core.

Lemma byte_low (b w : Z) :
  0 <= b < 256 -> Z.land (Z.lor b (Z.shiftl w 8)) 255 = b.
Proof.
  intros Hb.
  rewrite (lor_shiftl_lxor 8) by (change (2 ^ 8) with 256; lia).
  rewrite land_lxor_distr.
  change 255 with (Z.ones 8).
  rewrite (small_land_ones 8 b) by (change (2 ^ 8) with 256; lia).
  replace (Z.land (Z.shiftl w 8) (Z.ones 8)) with 0;
    [apply Z.lxor_0_r |].
  symmetry. apply Z.bits_inj'; intros n Hn.
  rewrite Z.land_spec, Z.bits_0.
  destruct (Z.lt_ge_cases n 8) as [Hlt | Hge].
  - rewrite Z.shiftl_spec_low by assumption. reflexivity.
  - rewrite Z.ones_spec_high by lia. apply andb_false_r.
Qed.

Lemma byte_high (b w : Z) :
  0 <= b < 256 -> Z.shiftr (Z.lor b (Z.shiftl w 8)) 8 = w.
Proof.
  intros Hb.
  rewrite Z.shiftr_lor, (shiftr_small 8 b)
    by (change (2 ^ 8) with 256; lia).
  rewrite Z.shiftr_shiftl_l by lia.
  change (8 - 8) with 0. rewrite Z.shiftl_0_r. apply Z.lor_0_l.
Qed.

(** The four bytes of a little-endian word, as the bulk loop extracts
    them. *)
Lemma load_uint32_bytes (M : memory) (p : Z) :
  let w := load_uint32 M p in
  Z.land w 255 = load_uint8 M p /\
  Z.land (Z.shiftr w 8) 255 = load_uint8 M (p + 1) /\
  Z.land (Z.shiftr w 16) 255 = load_uint8 M (p + 2) /\
  Z.land (Z.shiftr (Z.shiftr w 16) 8) 255 = load_uint8 M (p + 3).
Proof.
  intros w. subst w. rewrite load_uint32_nested.
  pose proof (load_uint8_range M p) as H0.
  pose proof (load_uint8_range M (p + 1)) as H1.
  pose proof (load_uint8_range M (p + 2)) as H2.
  pose proof (load_uint8_range M (p + 3)) as H3.
  change 16 with (8 + 8).
  rewrite <- !Z.shiftr_shiftr by lia.
  rewrite !byte_high, !byte_low by assumption.
  repeat split.
  change 255 with (Z.ones 8). apply small_land_ones; [lia | exact H3].
Qed.

Lemma min_as_if (a b : Z) : (if a <? b then a else b) = Z.min a b.
Proof. destruct (Z.ltb_spec a b); lia. Qed.

Lemma sw_bulk_loop_ptr (M : memory) (n : nat) :
  forall crc p, snd (sw_bulk_loop M n crc p) = p + 8 * Z.of_nat n.
Proof.
  induction n as [| n IH]; intros crc p; cbn [sw_bulk_loop].
  - cbn [snd]. lia.
  - rewrite IH. lia.
Qed.

Lemma sw_byte_loop_ptr (M : memory) (n : nat) :
  forall crc p, snd (sw_byte_loop M n crc p) = p + Z.of_nat n.
Proof.
  induction n as [| n IH]; intros crc p; cbn [sw_byte_loop].
  - cbn [snd]. lia.
  - rewrite IH. lia.
Qed.

Lemma sw_byte_step_table (M : memory) (crc p : Z) :
  sw_byte_step M crc p =
  Z.lxor (tbl crc_tableil8_o32
              (Z.land (Z.lxor crc (load_uint8 M p)) 0xFF))
         (Z.shiftr crc 8).
Proof.
  unfold sw_byte_step. change 0x000000FF with 255. change 0xFF with 255.
  do 2 f_equal.
  rewrite !land_lxor_distr, to_uint_load_char_low. f_equal.
  symmetry. apply (small_land_ones 8); [lia | apply load_uint8_range].
Qed.

Lemma sw_bulk_step_lanes (M : memory) (crc p : Z) :
  sw_bulk_step M crc p =
  let x := Z.lxor crc (load_uint32 M p) in
  Z.lxor
    (Z.lxor
       (Z.lxor
          (Z.lxor
             (Z.lxor
                (Z.lxor
                   (Z.lxor (tbl crc_tableil8_o88 (Z.land x 0xFF))
                           (tbl crc_tableil8_o80
                                (Z.land (Z.shiftr x 8) 0xFF)))
                   (tbl crc_tableil8_o72 (Z.land (Z.shiftr x 16) 0xFF)))
                (tbl crc_tableil8_o64 (Z.land (Z.shiftr x 24) 0xFF)))
             (tbl crc_tableil8_o56 (load_uint8 M (p + 4))))
          (tbl crc_tableil8_o48 (load_uint8 M (p + 5))))
       (tbl crc_tableil8_o40 (load_uint8 M (p + 6))))
    (tbl crc_tableil8_o32 (load_uint8 M (p + 7))).
Proof.
  unfold sw_bulk_step. cbv zeta.
  destruct (load_uint32_bytes M (p + 4)) as (E0 & E1 & E2 & E3).
  change 0x000000FF with 255. change 0xFF with 255.
  rewrite E0, E1, E2, E3.
  rewrite (Z.shiftr_shiftr _ 16 8) by lia. change (16 + 8) with 24.
  replace (p + 4 + 1) with (p + 5) by lia.
  replace (p + 4 + 2) with (p + 6) by lia.
  replace (p + 4 + 3) with (p + 7) by lia.
  rewrite !Z.lxor_assoc. reflexivity.
Qed.

Lemma fold_left_head {A B : Type} (f : A -> B -> A) (b : B) (l : list B)
    (a : A) :
  fold_left f (b :: l) a = fold_left f l (f a b).
Proof. reflexivity. Qed.

Lemma fold_left_pointwise {A B : Type} (f g : A -> B -> A) (l : list B) :
  (forall a b, f a b = g a b) ->
  forall a, fold_left f l a = fold_left g l a.
Proof.
  intros H. induction l as [| b l IH]; intros a.
  - reflexivity.
  - rewrite !fold_left_head, H. apply IH.
Qed.

Lemma fold_left_seq_S {A : Type} (f : A -> nat -> A) (n : nat) :
  forall (s : nat) (a : A),
    fold_left f (seq (S s) n) a =
    fold_left (fun c i => f c (S i)) (seq s n) a.
Proof.
  induction n as [| n IH]; intros s a.
  - reflexivity.
  - rewrite <- !cons_seq, !fold_left_head. apply IH.
Qed.

(** The single-byte loop applies the single-byte step to each of its [n]
    bytes in turn. *)
Lemma sw_byte_loop_steps (M : memory) (n : nat) :
  forall crc p,
    sw_byte_loop M n crc p =
    (fold_left (fun c i => sw_byte_step M c (p + Z.of_nat i)) (seq 0 n) crc,
     p + Z.of_nat n).
Proof.
  induction n as [| n IH]; intros crc p; cbn [sw_byte_loop].
  - cbn [seq fold_left]. f_equal. lia.
  - rewrite IH, <- cons_seq, fold_left_head, fold_left_seq_S.
    change (Z.of_nat 0) with 0. rewrite Z.add_0_r.
    f_equal; [| lia].
    apply fold_left_pointwise. intros c i. f_equal. lia.
Qed.

(** The bulk loop applies the bulk step to each of its [n] groups in
    turn. *)
Lemma sw_bulk_loop_steps (M : memory) (n : nat) :
  forall crc p,
    sw_bulk_loop M n crc p =
    (fold_left (fun c i => sw_bulk_step M c (p + 8 * Z.of_nat i))
               (seq 0 n) crc,
     p + 8 * Z.of_nat n).
Proof.
  induction n as [| n IH]; intros crc p; cbn [sw_bulk_loop].
  - cbn [seq fold_left]. f_equal. lia.
  - rewrite IH, <- cons_seq, fold_left_head, fold_left_seq_S.
    change (Z.of_nat 0) with 0. rewrite Z.mul_0_r, Z.add_0_r.
    f_equal; [| lia].
    apply fold_left_pointwise. intros c i. f_equal. lia.
Qed.

(** C4. Software-path prologue and epilogue: the result of the software
    path is the single-byte table step applied in turn to each of the
    leading [min(size, (4 - mem) mod 4)] bytes, at most 3, after which the
    pointer is 4-byte aligned or the buffer is used up; then the bulk step
    applied to each 8-byte group; then the same single-byte step applied in
    turn to each of the trailing [0..7] bytes, every byte being consumed.
    The single-byte step is
    [crc_tableil8_o32[(crc ^ byte) & 0xFF] ^ (crc >> 8)], and
    [crc_tableil8_o32] is also the table the bulk step indexes with the
    last byte of a group. *)
Theorem sw_prologue_epilogue (M : memory) (icrc mem size : Z) :
  is_size_t size ->
  let initial_bytes := Z.min size ((4 - mem) mod 4) in
  let groups := (size - initial_bytes) / 8 in
  let end_bytes := (size - initial_bytes) mod 8 in
  let byte_steps := fun (crc p : Z) (n : nat) =>
    fold_left (fun c i => sw_byte_step M c (p + Z.of_nat i)) (seq 0 n) crc in
  let bulk_steps := fun (crc p : Z) (n : nat) =>
    fold_left (fun c i => sw_bulk_step M c (p + 8 * Z.of_nat i))
              (seq 0 n) crc in
  let prologue := sw_byte_loop M (Z.to_nat initial_bytes) icrc mem in
  let bulk := sw_bulk_loop M (Z.to_nat groups) (fst prologue) (snd prologue) in
  get_checksum_crc32c M icrc mem size NO =
    byte_steps
      (bulk_steps (byte_steps icrc mem (Z.to_nat initial_bytes))
                  (mem + initial_bytes) (Z.to_nat groups))
      (mem + initial_bytes + 8 * groups) (Z.to_nat end_bytes)
  /\ fst prologue = byte_steps icrc mem (Z.to_nat initial_bytes)
  /\ fst bulk =
     bulk_steps (fst prologue) (mem + initial_bytes) (Z.to_nat groups)
  /\ get_checksum_crc32c M icrc mem size NO =
    fst (sw_byte_loop M (Z.to_nat end_bytes) (fst bulk) (snd bulk))
  /\ 0 <= initial_bytes <= 3
  /\ snd prologue = mem + initial_bytes
  /\ ((mem + initial_bytes) mod 4 = 0 \/ initial_bytes = size)
  /\ snd bulk = mem + initial_bytes + 8 * groups
  /\ 0 <= end_bytes <= 7
  /\ initial_bytes + 8 * groups + end_bytes = size
  /\ (forall crc p,
        sw_byte_step M crc p =
        Z.lxor (tbl crc_tableil8_o32
                    (Z.land (Z.lxor crc (load_uint8 M p)) 0xFF))
               (Z.shiftr crc 8))
  /\ (forall crc p,
        sw_bulk_step M crc p =
        let x := Z.lxor crc (load_uint32 M p) in
        Z.lxor
          (Z.lxor
             (Z.lxor
                (Z.lxor
                   (Z.lxor
                      (Z.lxor
                         (Z.lxor (tbl crc_tableil8_o88 (Z.land x 0xFF))
                                 (tbl crc_tableil8_o80
                                      (Z.land (Z.shiftr x 8) 0xFF)))
                         (tbl crc_tableil8_o72
                              (Z.land (Z.shiftr x 16) 0xFF)))
                      (tbl crc_tableil8_o64 (Z.land (Z.shiftr x 24) 0xFF)))
                   (tbl crc_tableil8_o56 (load_uint8 M (p + 4))))
                (tbl crc_tableil8_o48 (load_uint8 M (p + 5))))
             (tbl crc_tableil8_o40 (load_uint8 M (p + 6))))
          (tbl crc_tableil8_o32 (load_uint8 M (p + 7)))).
Proof.
  intros Hs ib groups eb byte_steps bulk_steps prologue bulk.
  pose proof (Z.mod_pos_bound (4 - mem) 4 ltac:(lia)) as Hi.
  assert (Hib : 0 <= ib <= 3 /\ ib <= size) by (subst ib; ranges).
  assert (Hgroups : 0 <= groups) by (subst groups; apply Z.div_pos; lia).
  pose proof (Z.mod_pos_bound (size - ib) 8 ltac:(lia)) as Heb.
  pose proof (Z.div_mod (size - ib) 8 ltac:(lia)) as Hdiv.
  fold groups eb in Hdiv, Heb.
  assert (Hprologue :
    prologue = (byte_steps icrc mem (Z.to_nat ib), mem + ib)).
  { subst prologue byte_steps. cbv beta. rewrite sw_byte_loop_steps.
    f_equal. lia. }
  assert (Hbulk :
    bulk = (bulk_steps (fst prologue) (mem + ib) (Z.to_nat groups),
            mem + ib + 8 * groups)).
  { subst bulk bulk_steps. cbv beta. rewrite sw_bulk_loop_steps.
    rewrite Hprologue. cbn [fst snd]. f_equal. lia. }
  assert (Hloops :
    get_checksum_crc32c M icrc mem size NO =
    fst (sw_byte_loop M (Z.to_nat eb) (fst bulk) (snd bulk))).
  { unfold get_checksum_crc32c. change (NO =? YES) with false.
    unfold checksum_sw.
    rewrite initial_bytes_range, min_as_if. fold ib.
    rewrite land_lnot7 by ranges.
    rewrite (Z.mul_comm 8), Z.div_mul by lia. fold groups.
    replace (size - ib - groups * 8) with eb by lia.
    subst bulk prologue.
    destruct (sw_byte_loop M (Z.to_nat ib) icrc mem) as [c1 p1].
    cbn [fst snd].
    destruct (sw_bulk_loop M (Z.to_nat groups) c1 p1) as [c2 p2].
    reflexivity. }
  assert (Hsteps :
    get_checksum_crc32c M icrc mem size NO =
    byte_steps
      (bulk_steps (byte_steps icrc mem (Z.to_nat ib)) (mem + ib)
                  (Z.to_nat groups))
      (mem + ib + 8 * groups) (Z.to_nat eb)).
  { rewrite Hloops, sw_byte_loop_steps. cbn [fst].
    rewrite Hbulk. cbn [fst snd]. rewrite Hprologue. cbn [fst].
    reflexivity. }
  split; [exact Hsteps |].
  split; [rewrite Hprologue; reflexivity |].
  split; [rewrite Hbulk; reflexivity |].
  split; [exact Hloops |].
  split; [lia |].
  split; [rewrite Hprologue; reflexivity |].
  split.
  { subst ib. destruct (Z.min_spec size ((4 - mem) mod 4)) as [[_ E] | [_ E]];
      rewrite E; [right; reflexivity | left].
    Z.div_mod_to_equations. lia. }
  split; [rewrite Hbulk; reflexivity |].
  split; [lia |].
  split; [lia |].
  split; [apply sw_byte_step_table | apply sw_bulk_step_lanes].
Qed.

End Paths.

Module Hardware.
Import Bits Register Tables Mem Steps Core.

Lemma fold_left_cons {A B : Type} (f : A -> B -> A) (b : B) (l : list B)
    (a : A) :
  fold_left f (b :: l) a = fold_left f l (f a b).
Proof. reflexivity. Qed.

(** The word loop is a left fold of the word instruction over the
    consecutive 4-byte words. *)
Lemma hw_word_loop_words (M : memory) (n : nat) :
  forall crc mem,
    hw_word_loop M n crc mem =
    (fold_left __builtin_ia32_crc32si
               (map (fun i => load_uint32 M (mem + 4 * Z.of_nat i)) (seq 0 n))
               crc,
     mem + 4 * Z.of_nat n).
Proof.
  induction n as [| n IH]; intros crc mem; cbn [hw_word_loop].
  - cbn [seq map fold_left]. f_equal. lia.
  - rewrite IH.
    rewrite <- cons_seq, <- seq_shift, map_cons, map_map, fold_left_cons.
    change (Z.of_nat 0) with 0. rewrite Z.mul_0_r, Z.add_0_r.
    f_equal; [| lia].
    f_equal. apply map_ext. intros i. f_equal. lia.
Qed.

(** C5. Hardware-path tail handling: with [have_hw_crc32 = YES] the
    function first folds the [size / 4] consecutive 4-byte words with the
    word instruction, then the remaining [size mod 4] bytes: three bytes by
    a 1-byte fold followed by a 2-byte fold of the next two bytes, two
    bytes by one 2-byte fold, one byte by one 1-byte fold, none by
    nothing. *)
Theorem hw_tail_handling (M : memory) (icrc mem size : Z) :
  let words := Z.to_nat (size / 4) in
  let crc :=
    fold_left __builtin_ia32_crc32si
              (map (fun i => load_uint32 M (mem + 4 * Z.of_nat i))
                   (seq 0 words))
              icrc in
  let p := mem + 4 * Z.of_nat words in
  hw_word_loop M words icrc mem = (crc, p) /\
  get_checksum_crc32c M icrc mem size YES =
  match size mod 4 with
  | 3 => __builtin_ia32_crc32hi
           (__builtin_ia32_crc32qi crc (load_uint8 M p))
           (load_uint16 M (p + 1))
  | 2 => __builtin_ia32_crc32hi crc (load_uint16 M p)
  | 1 => __builtin_ia32_crc32qi crc (load_uint8 M p)
  | _ => crc
  end.
Proof.
  intros words crc p.
  assert (Hloop : hw_word_loop M words icrc mem = (crc, p))
    by apply hw_word_loop_words.
  split; [exact Hloop |].
  unfold get_checksum_crc32c. change (YES =? YES) with true.
  unfold checksum_hw. fold words. rewrite Hloop, land_3.
  pose proof (Z.mod_pos_bound size 4 ltac:(lia)) as Hr.
  remember (size mod 4) as r eqn:Er.
  assert (H : r = 0 \/ r = 1 \/ r = 2 \/ r = 3) by lia.
  unfold hw_tail.
  destruct H as [-> | [-> | [-> | ->]]]; cbn [Z.eqb Pos.eqb];
    rewrite ?to_uchar_load_char; reflexivity.
Qed.

End Hardware.

Module Strings.
Import Bits Register Tables Mem Steps Core KnownAnswers.

Lemma strlen_c_string (s : list byte) :
  forall (M : memory) (str : Z) (fuel : nat),
    is_c_string M str s ->
    (length s < fuel)%nat ->
    strlen fuel M str = Some (Z.of_nat (length s)).
Proof.
  induction s as [| b s IH]; intros M str fuel (Hb & Hnz & Hend) Hfuel.
  - destruct fuel as [| fuel]; [cbn [length] in Hfuel; lia |].
    cbn [strlen length] in *. change (Z.of_nat 0) with 0 in Hend.
    rewrite Z.add_0_r in Hend. rewrite Hend. reflexivity.
  - destruct fuel as [| fuel]; [lia |].
    cbn [length] in *. rewrite mem_bytes_S in Hb.
    injection Hb as Hb0 Hbs.
    inversion Hnz as [| ? ? Hb_nz Hs_nz]; subst.
    cbn [strlen].
    destruct (Byte.eqb (M str) x00) eqn:E.
    + apply Byte.byte_dec_bl in E. contradiction.
    + rewrite (IH M (str + 1) fuel).
      * cbn [option_map]. f_equal. lia.
      * repeat split; try assumption.
        rewrite <- Hend. f_equal. lia.
      * lia.
Qed.

(** C6. String adapter: for a NUL-terminated string [s] at [str],
    [get_str_checksum_crc32c] returns
    [get_checksum_crc32c(INITIAL_CRC, str, strlen(str))], which is the
    CRC-32C register folded from [INITIAL_CRC] over the bytes of [s], the
    NUL excluded; for the empty string it is the checksum of any
    zero-length buffer. *)
Theorem str_checksum_correct
    (M : memory) (str hw : Z) (s : list byte) (fuel : nat) :
  is_c_string M str s ->
  is_size_t (Z.of_nat (length s)) ->
  (length s < fuel)%nat ->
  strlen fuel M str = Some (Z.of_nat (length s)) /\
  get_str_checksum_crc32c fuel M str hw =
    Some (get_checksum_crc32c M INITIAL_CRC str (Z.of_nat (length s)) hw) /\
  get_checksum_crc32c M INITIAL_CRC str (Z.of_nat (length s)) hw =
    crc32c_fold INITIAL_CRC s /\
  (s = [] ->
   forall M' mem',
     get_str_checksum_crc32c fuel M str hw =
     Some (get_checksum_crc32c M' INITIAL_CRC mem' 0 hw)).
Proof.
  intros Hstr Hlen Hfuel.
  pose proof (strlen_c_string s M str fuel Hstr Hfuel) as Hsl.
  assert (Hfold :
    get_checksum_crc32c M INITIAL_CRC str (Z.of_nat (length s)) hw =
    crc32c_fold INITIAL_CRC s).
  { rewrite get_checksum_crc32c_fold
      by (apply INITIAL_CRC_range || exact Hlen).
    rewrite Nat2Z.id. destruct Hstr as (Hb & _). rewrite Hb. reflexivity. }
  assert (Hget :
    get_str_checksum_crc32c fuel M str hw =
    Some (get_checksum_crc32c M INITIAL_CRC str (Z.of_nat (length s)) hw)).
  { unfold get_str_checksum_crc32c. rewrite Hsl. reflexivity. }
  repeat split; try assumption.
  intros -> M' mem'. rewrite Hget, Hfold.
  rewrite get_checksum_crc32c_fold
    by (apply INITIAL_CRC_range || ranges).
  change (Z.to_nat 0) with 0%nat. rewrite mem_bytes_0. reflexivity.
Qed.

End Strings.

(** ** The file adapter *)

Module File.
Import Bits Register Tables Mem Steps Core KnownAnswers.

Lemma to_size_t_small (x : Z) : is_size_t x -> to_size_t x = x.
Proof. intros H. apply Z.mod_small, H. Qed.

Lemma to_int_small (x : Z) : 0 <= x < 2 ^ 31 -> to_int x = x.
Proof.
  intros H. unfold to_int.
  change (2 ^ 31) with 2147483648 in *. change (2 ^ 32) with 4294967296.
  rewrite Z.mod_small; lia.
Qed.

Lemma read_eof (w : world) (buf count : Z) :
  w_script w = [] ->
  read w buf count = (0, mkWorld (w_mem w) [] (w_log w ++ [(buf, count)])).
Proof. intros H. unfold read. rewrite H. reflexivity. Qed.

Lemma read_error (w : world) (buf count : Z) (s : list outcome) :
  w_script w = ReadError :: s ->
  read w buf count = (-1, mkWorld (w_mem w) s (w_log w ++ [(buf, count)])).
Proof. intros H. unfold read. rewrite H. reflexivity. Qed.

Lemma read_data (w : world) (buf count : Z) (l : list byte)
    (s : list outcome) :
  w_script w = ReadData l :: s ->
  read w buf count =
  (Z.of_nat (length (firstn (Z.to_nat count) l)),
   mkWorld (store_bytes (w_mem w) buf (firstn (Z.to_nat count) l)) s
           (w_log w ++ [(buf, count)])).
Proof. intros H. unfold read. rewrite H. reflexivity. Qed.

Section Adapter.

Variables buffer buf_size hw : Z.
Hypothesis buf_size_range : 0 < buf_size < 2 ^ 31.

Lemma buf_size_size_t : is_size_t buf_size.
Proof. ranges. Qed.

(** *** One pass of the loop body *)

Lemma loop_body_eof (w : world) (crc : Z) :
  w_script w = [] ->
  file_loop_body w buffer buf_size crc hw =
  Test 0 crc (mkWorld (w_mem w) [] (w_log w ++ [(buffer, buf_size)])).
Proof.
  intros H. unfold file_loop_body.
  rewrite (to_size_t_small _ buf_size_size_t), (read_eof _ _ _ H).
  reflexivity.
Qed.

Lemma loop_body_error (w : world) (crc : Z) (s : list outcome) :
  w_script w = ReadError :: s ->
  file_loop_body w buffer buf_size crc hw =
  Return (INCORRECT, crc,
          mkWorld (w_mem w) s (w_log w ++ [(buffer, buf_size)])).
Proof.
  intros H. unfold file_loop_body.
  rewrite (to_size_t_small _ buf_size_size_t), (read_error _ _ _ _ H).
  reflexivity.
Qed.

Lemma loop_body_data (w : world) (crc : Z) (l : list byte)
    (s : list outcome) :
  is_uint crc ->
  w_script w = ReadData l :: s ->
  file_loop_body w buffer buf_size crc hw =
  Test (Z.of_nat (length (firstn (Z.to_nat buf_size) l)))
       (crc32c_fold crc (firstn (Z.to_nat buf_size) l))
       (mkWorld (store_bytes (w_mem w) buffer (firstn (Z.to_nat buf_size) l))
                s (w_log w ++ [(buffer, buf_size)])).
Proof.
  intros Hc H. unfold file_loop_body.
  rewrite (to_size_t_small _ buf_size_size_t), (read_data _ _ _ _ _ H).
  pose proof (firstn_le_length (Z.to_nat buf_size) l) as Hle.
  remember (firstn (Z.to_nat buf_size) l) as d eqn:Ed.
  cbv beta iota. cbn [w_mem].
  destruct d as [| b d].
  - reflexivity.
  - replace (0 <? Z.of_nat (length (b :: d))) with true
      by (symmetry; apply Z.ltb_lt; cbn [length]; lia).
    assert (Hn : is_size_t (Z.of_nat (length (b :: d)))) by ranges.
    rewrite (to_size_t_small _ Hn).
    rewrite get_checksum_crc32c_fold by assumption.
    rewrite Nat2Z.id, mem_bytes_store. reflexivity.
Qed.

(** *** The loop *)

Lemma file_loop_S (fuel : nat) (w : world) (crc : Z) :
  file_loop (S fuel) w buffer buf_size crc hw =
  match file_loop_body w buffer buf_size crc hw with
  | Return r => Some r
  | Test bytes_read crc w =>
      if bytes_read =? buf_size
      then file_loop fuel w buffer buf_size crc hw
      else Some (SUCCESS, crc, w)
  end.
Proof. reflexivity. Qed.

Lemma file_loop_eof (fuel : nat) (w : world) (crc : Z) :
  w_script w = [] ->
  file_loop (S fuel) w buffer buf_size crc hw =
  Some (SUCCESS, crc,
        mkWorld (w_mem w) [] (w_log w ++ [(buffer, buf_size)])).
Proof.
  intros H. rewrite file_loop_S, (loop_body_eof _ _ H).
  replace (0 =? buf_size) with false by (symmetry; apply Z.eqb_neq; lia).
  reflexivity.
Qed.

Lemma file_loop_error (fuel : nat) (w : world) (crc : Z)
    (s : list outcome) :
  w_script w = ReadError :: s ->
  file_loop (S fuel) w buffer buf_size crc hw =
  Some (INCORRECT, crc,
        mkWorld (w_mem w) s (w_log w ++ [(buffer, buf_size)])).
Proof.
  intros H. rewrite file_loop_S, (loop_body_error _ _ _ H). reflexivity.
Qed.

Lemma file_loop_data (fuel : nat) (w : world) (crc : Z) (l : list byte)
    (s : list outcome) :
  is_uint crc ->
  w_script w = ReadData l :: s ->
  file_loop (S fuel) w buffer buf_size crc hw =
  if Z.of_nat (length (firstn (Z.to_nat buf_size) l)) =? buf_size
  then file_loop fuel
         (mkWorld (store_bytes (w_mem w) buffer
                               (firstn (Z.to_nat buf_size) l))
                  s (w_log w ++ [(buffer, buf_size)]))
         buffer buf_size (crc32c_fold crc (firstn (Z.to_nat buf_size) l)) hw
  else Some (SUCCESS, crc32c_fold crc (firstn (Z.to_nat buf_size) l),
             mkWorld (store_bytes (w_mem w) buffer
                                  (firstn (Z.to_nat buf_size) l))
                     s (w_log w ++ [(buffer, buf_size)])).
Proof.
  intros Hc H. rewrite file_loop_S, (loop_body_data _ _ _ _ Hc H).
  reflexivity.
Qed.

Lemma file_loop_short (fuel : nat) (w : world) (crc : Z) (l : list byte)
    (s : list outcome) :
  is_uint crc ->
  w_script w = ReadData l :: s ->
  Z.of_nat (length l) < buf_size ->
  file_loop (S fuel) w buffer buf_size crc hw =
  Some (SUCCESS, crc32c_fold crc l,
        mkWorld (store_bytes (w_mem w) buffer l) s
                (w_log w ++ [(buffer, buf_size)])).
Proof.
  intros Hc H Hl. rewrite (file_loop_data _ _ _ _ _ Hc H).
  rewrite (firstn_all2 l) by lia.
  replace (Z.of_nat (length l) =? buf_size) with false
    by (symmetry; apply Z.eqb_neq; lia).
  reflexivity.
Qed.

Lemma file_loop_full (fuel : nat) (w : world) (crc : Z) (l : list byte)
    (s : list outcome) :
  is_uint crc ->
  w_script w = ReadData l :: s ->
  Z.of_nat (length l) = buf_size ->
  file_loop (S fuel) w buffer buf_size crc hw =
  file_loop fuel
    (mkWorld (store_bytes (w_mem w) buffer l) s
             (w_log w ++ [(buffer, buf_size)]))
    buffer buf_size (crc32c_fold crc l) hw.
Proof.
  intros Hc H Hl. rewrite (file_loop_data _ _ _ _ _ Hc H).
  rewrite (firstn_all2 l) by lia.
  rewrite Hl, Z.eqb_refl. reflexivity.
Qed.

(** A run of full reads keeps the loop going and folds all their bytes. *)
Lemma file_loop_full_reads (chunks : list (list byte)) :
  forall (w : world) (crc : Z) (rest : list outcome),
    is_uint crc ->
    Forall (fun c => Z.of_nat (length c) = buf_size) chunks ->
    w_script w = map ReadData chunks ++ rest ->
    exists w',
      w_script w' = rest /\
      w_log w' = w_log w ++ repeat (buffer, buf_size) (length chunks) /\
      forall fuel,
        file_loop (length chunks + fuel) w buffer buf_size crc hw =
        file_loop fuel w' buffer buf_size
                  (crc32c_fold crc (concat chunks)) hw.
Proof.
  induction chunks as [| c cs IH]; intros w crc rest Hc Hfull Hs.
  - exists w. cbn [map app] in Hs. cbn [length repeat concat Nat.add].
    rewrite app_nil_r, fold_nil. auto.
  - apply Forall_cons_iff in Hfull. destruct Hfull as [Hlen Hcs].
    cbn [map app] in Hs. cbn [length Nat.add].
    destruct (IH (mkWorld (store_bytes (w_mem w) buffer c)
                          (map ReadData cs ++ rest)
                          (w_log w ++ [(buffer, buf_size)]))
                 (crc32c_fold crc c) rest
                 (fold_range _ _ Hc) Hcs eq_refl)
      as (w' & Hs' & Hl' & Hrun).
    exists w'. split; [exact Hs' |]. split.
    + rewrite Hl'. cbn [w_log repeat]. rewrite <- app_assoc. reflexivity.
    + intros fuel.
      rewrite (file_loop_full _ _ _ _ _ Hc Hs Hlen).
      rewrite Hrun. cbn [concat]. rewrite fold_app. reflexivity.
Qed.

(** *** The first read *)

Variable offset : Z.
Hypothesis offset_range : 0 <= offset <= buf_size.

Lemma first_count : to_size_t (buf_size - offset) = buf_size - offset.
Proof. apply to_size_t_small. ranges. Qed.

Lemma file_first_eof (w : world) :
  w_script w = [] ->
  file_first w buffer buf_size offset hw =
  Test offset
       (crc32c_fold INITIAL_CRC (mem_bytes (w_mem w) buffer (Z.to_nat offset)))
       (mkWorld (w_mem w) []
                (w_log w ++ [(buffer + offset, buf_size - offset)])).
Proof.
  intros H. unfold file_first.
  rewrite first_count, (read_eof _ _ _ H).
  cbv beta iota. cbn [w_mem]. change (0 <=? 0) with true. cbv iota.
  rewrite !Z.add_0_l, to_int_small by ranges.
  rewrite get_checksum_crc32c_fold
    by (apply INITIAL_CRC_range || (rewrite to_size_t_small; ranges)).
  rewrite to_size_t_small by ranges. reflexivity.
Qed.

Lemma file_first_error (w : world) (s : list outcome) :
  w_script w = ReadError :: s ->
  file_first w buffer buf_size offset hw =
  Return (INCORRECT, INITIAL_CRC,
          mkWorld (w_mem w) s
                  (w_log w ++ [(buffer + offset, buf_size - offset)])).
Proof.
  intros H. unfold file_first.
  rewrite first_count, (read_error _ _ _ _ H). reflexivity.
Qed.

Lemma file_first_data (w : world) (l : list byte) (s : list outcome) :
  w_script w = ReadData l :: s ->
  file_first w buffer buf_size offset hw =
  Test (Z.of_nat (length (firstn (Z.to_nat (buf_size - offset)) l)) + offset)
       (crc32c_fold INITIAL_CRC
          (mem_bytes (w_mem w) buffer (Z.to_nat offset) ++
           firstn (Z.to_nat (buf_size - offset)) l))
       (mkWorld (store_bytes (w_mem w) (buffer + offset)
                             (firstn (Z.to_nat (buf_size - offset)) l))
                s (w_log w ++ [(buffer + offset, buf_size - offset)])).
Proof.
  intros H. unfold file_first.
  rewrite first_count, (read_data _ _ _ _ _ H).
  pose proof (firstn_le_length (Z.to_nat (buf_size - offset)) l) as Hle.
  remember (firstn (Z.to_nat (buf_size - offset)) l) as d eqn:Ed.
  cbv beta iota. cbn [w_mem].
  replace (0 <=? Z.of_nat (length d)) with true
    by (symmetry; apply Z.leb_le; lia).
  cbv iota.
  assert (Hn : 0 <= Z.of_nat (length d) + offset < 2 ^ 31) by ranges.
  rewrite (to_int_small _ Hn).
  assert (Hn' : is_size_t (Z.of_nat (length d) + offset)) by ranges.
  rewrite (to_size_t_small _ Hn').
  rewrite get_checksum_crc32c_fold
    by (apply INITIAL_CRC_range || exact Hn').
  replace (Z.to_nat (Z.of_nat (length d) + offset))
    with (Z.to_nat offset + length d)%nat by lia.
  replace (buffer + offset) with (buffer + Z.of_nat (Z.to_nat offset))
    at 1 by lia.
  rewrite mem_bytes_store_above.
  replace (buffer + Z.of_nat (Z.to_nat offset)) with (buffer + offset) by lia.
  reflexivity.
Qed.

Lemma get_file_unfold (fuel : nat) (w : world) :
  get_file_checksum_crc32c fuel w buffer buf_size offset hw =
  match file_first w buffer buf_size offset hw with
  | Return r => Some r
  | Test bytes_read crc w =>
      if bytes_read =? buf_size
      then file_loop fuel w buffer buf_size crc hw
      else Some (SUCCESS, crc, w)
  end.
Proof. reflexivity. Qed.

(** After full reads the function is in its loop, with everything read so
    far folded in. *)
Lemma get_file_full_reads (w : world) (c0 : list byte)
    (cs : list (list byte)) (rest : list outcome) :
  full_reads buf_size offset (c0 :: cs) ->
  w_script w = map ReadData (c0 :: cs) ++ rest ->
  exists w1,
    w_script w1 = rest /\
    w_log w1 = w_log w ++ requests buffer buf_size offset (S (length cs)) /\
    forall fuel,
      get_file_checksum_crc32c (length cs + fuel) w buffer buf_size offset hw
      = file_loop fuel w1 buffer buf_size
          (crc32c_fold INITIAL_CRC
             (folded_bytes (w_mem w) buffer offset (c0 :: cs)))
          hw.
Proof.
  intros [Hlen Hcs] Hs. cbn [map app] in Hs.
  pose proof (file_first_data w c0 _ Hs) as Hfirst.
  rewrite (firstn_all2 c0) in Hfirst by lia.
  set (crc1 := crc32c_fold INITIAL_CRC
                 (mem_bytes (w_mem w) buffer (Z.to_nat offset) ++ c0))
    in Hfirst.
  assert (Hcrc1 : is_uint crc1) by apply fold_range, INITIAL_CRC_range.
  destruct (file_loop_full_reads cs
              (mkWorld (store_bytes (w_mem w) (buffer + offset) c0)
                       (map ReadData cs ++ rest)
                       (w_log w ++ [(buffer + offset, buf_size - offset)]))
              crc1 rest Hcrc1 Hcs eq_refl)
    as (w1 & Hs1 & Hl1 & Hrun).
  exists w1. split; [exact Hs1 |]. split.
  - rewrite Hl1. cbn [w_log requests]. rewrite <- app_assoc. reflexivity.
  - intros fuel. rewrite get_file_unfold, Hfirst.
    replace (Z.of_nat (length c0) + offset =? buf_size) with true
      by (symmetry; apply Z.eqb_eq; lia).
    rewrite Hrun. subst crc1. unfold folded_bytes. cbn [concat].
    rewrite <- fold_app, <- app_assoc. reflexivity.
Qed.

(** *** Whole runs: full reads, then the read that ends the run *)

Lemma requests_snoc (n : nat) :
  requests buffer buf_size offset (S n) ++ [(buffer, buf_size)] =
  requests buffer buf_size offset (S (S n)).
Proof.
  cbn [requests app]. f_equal. symmetry. apply (repeat_cons n).
Qed.

Lemma fuel_split (n fuel : nat) :
  (S n <= fuel)%nat -> exists k, fuel = (n + S k)%nat.
Proof. intros H. exists (fuel - S n)%nat. lia. Qed.

Lemma run_error (w : world) (chunks : list (list byte))
    (post : list outcome) (fuel : nat) :
  full_reads buf_size offset chunks ->
  (length chunks <= fuel)%nat ->
  w_script w = map ReadData chunks ++ ReadError :: post ->
  exists w',
    get_file_checksum_crc32c fuel w buffer buf_size offset hw =
    Some (INCORRECT,
          match chunks with
          | [] => INITIAL_CRC
          | _ :: _ =>
              crc32c_fold INITIAL_CRC
                          (folded_bytes (w_mem w) buffer offset chunks)
          end,
          w') /\
    w_script w' = post /\
    w_log w' =
    w_log w ++ requests buffer buf_size offset (S (length chunks)).
Proof.
  intros Hfull Hfuel Hs. destruct chunks as [| c0 cs].
  - cbn [map app] in Hs.
    rewrite get_file_unfold, (file_first_error _ _ Hs).
    eexists. split; [reflexivity |]. split; reflexivity.
  - destruct (get_file_full_reads w c0 cs _ Hfull Hs)
      as (w1 & Hs1 & Hl1 & Hrun).
    destruct (fuel_split _ _ Hfuel) as [k ->].
    rewrite Hrun, (file_loop_error _ _ _ _ Hs1).
    eexists. split; [reflexivity |]. split; [reflexivity |].
    cbn [w_log]. rewrite Hl1, <- app_assoc, requests_snoc. reflexivity.
Qed.

Lemma run_eof (w : world) (chunks : list (list byte)) (fuel : nat) :
  offset < buf_size ->
  full_reads buf_size offset chunks ->
  (length chunks <= fuel)%nat ->
  w_script w = map ReadData chunks ->
  exists w',
    get_file_checksum_crc32c fuel w buffer buf_size offset hw =
    Some (SUCCESS,
          crc32c_fold INITIAL_CRC
                      (folded_bytes (w_mem w) buffer offset chunks),
          w') /\
    w_script w' = [] /\
    w_log w' =
    w_log w ++ requests buffer buf_size offset (S (length chunks)).
Proof.
  intros Hoff Hfull Hfuel Hs. destruct chunks as [| c0 cs].
  - cbn [map] in Hs.
    rewrite get_file_unfold, (file_first_eof _ Hs).
    replace (offset =? buf_size) with false
      by (symmetry; apply Z.eqb_neq; lia).
    unfold folded_bytes. cbn [concat]. rewrite app_nil_r.
    eexists. split; [reflexivity |]. split; reflexivity.
  - rewrite <- (app_nil_r (map ReadData (c0 :: cs))) in Hs.
    destruct (get_file_full_reads w c0 cs _ Hfull Hs)
      as (w1 & Hs1 & Hl1 & Hrun).
    destruct (fuel_split _ _ Hfuel) as [k ->].
    rewrite Hrun, (file_loop_eof _ _ _ Hs1).
    eexists. split; [reflexivity |]. split; [reflexivity |].
    cbn [w_log]. rewrite Hl1, <- app_assoc, requests_snoc. reflexivity.
Qed.

Lemma run_short (w : world) (chunks : list (list byte)) (l : list byte)
    (post : list outcome) (fuel : nat) :
  full_reads buf_size offset chunks ->
  (length chunks <= fuel)%nat ->
  w_script w = map ReadData chunks ++ ReadData l :: post ->
  Z.of_nat (length l) <
    match chunks with [] => buf_size - offset | _ :: _ => buf_size end ->
  exists w',
    get_file_checksum_crc32c fuel w buffer buf_size offset hw =
    Some (SUCCESS,
          crc32c_fold INITIAL_CRC
                      (folded_bytes (w_mem w) buffer offset (chunks ++ [l])),
          w') /\
    w_script w' = post /\
    w_log w' =
    w_log w ++ requests buffer buf_size offset (S (length chunks)).
Proof.
  intros Hfull Hfuel Hs Hl. destruct chunks as [| c0 cs].
  - cbn [map app] in Hs.
    rewrite get_file_unfold, (file_first_data _ _ _ Hs).
    rewrite (firstn_all2 l) by lia.
    replace (Z.of_nat (length l) + offset =? buf_size) with false
      by (symmetry; apply Z.eqb_neq; lia).
    unfold folded_bytes. cbn [app concat]. rewrite app_nil_r.
    eexists. split; [reflexivity |]. split; reflexivity.
  - destruct (get_file_full_reads w c0 cs _ Hfull Hs)
      as (w1 & Hs1 & Hl1 & Hrun).
    destruct (fuel_split _ _ Hfuel) as [k ->].
    rewrite Hrun.
    rewrite (file_loop_short _ _ _ _ _
               (fold_range _ _ INITIAL_CRC_range) Hs1 Hl).
    unfold folded_bytes.
    rewrite <- fold_app, <- app_assoc, concat_app.
    cbn [concat]. rewrite app_nil_r.
    eexists. split; [reflexivity |]. split; [reflexivity |].
    cbn [w_log]. rewrite Hl1, <- app_assoc, requests_snoc. reflexivity.
Qed.

End Adapter.

(** Whatever the descriptor does, a returned [*crc] is a 32-bit value. *)
Lemma file_loop_crc_range (buffer buf_size hw : Z) (fuel : nat) :
  forall (w : world) (crc st c : Z) (w' : world),
    is_uint crc ->
    file_loop fuel w buffer buf_size crc hw = Some (st, c, w') ->
    is_uint c.
Proof.
  induction fuel as [| fuel IH]; intros w crc st c w' Hc Hrun.
  - discriminate Hrun.
  - rewrite file_loop_S in Hrun. unfold file_loop_body in Hrun.
    destruct (read w buffer (to_size_t buf_size)) as [n w1].
    assert (Hsz : is_size_t (to_size_t n))
      by (apply Z.mod_pos_bound; reflexivity).
    pose proof (get_checksum_crc32c_range (w_mem w1) crc buffer
                  (to_size_t n) hw Hc Hsz) as Hc1.
    destruct (0 <? n).
    + destruct (n =? buf_size).
      * exact (IH _ _ _ _ _ Hc1 Hrun).
      * injection Hrun as _ <- _. exact Hc1.
    + destruct (n =? -1).
      * injection Hrun as _ <- _. exact Hc.
      * destruct (n =? buf_size).
        -- exact (IH _ _ _ _ _ Hc Hrun).
        -- injection Hrun as _ <- _. exact Hc.
Qed.

Lemma get_file_crc_range (buffer buf_size offset hw : Z) (fuel : nat)
    (w : world) (st c : Z) (w' : world) :
  get_file_checksum_crc32c fuel w buffer buf_size offset hw
  = Some (st, c, w') ->
  is_uint c.
Proof.
  intros Hrun. rewrite get_file_unfold in Hrun. unfold file_first in Hrun.
  destruct (read w (buffer + offset) (to_size_t (buf_size - offset)))
    as [n w1].
  assert (Hsz : is_size_t (to_size_t (to_int (n + offset))))
    by (apply Z.mod_pos_bound; reflexivity).
  pose proof (get_checksum_crc32c_range (w_mem w1) INITIAL_CRC buffer
                (to_size_t (to_int (n + offset))) hw INITIAL_CRC_range Hsz)
    as Hc1.
  pose proof INITIAL_CRC_range as Hc0.
  destruct (0 <=? n).
  - destruct (to_int (n + offset) =? buf_size).
    + exact (file_loop_crc_range _ _ _ _ _ _ _ _ _ Hc1 Hrun).
    + injection Hrun as _ <- _. exact Hc1.
  - destruct (n =? -1).
    + injection Hrun as _ <- _. exact Hc0.
    + destruct (n =? buf_size).
      * exact (file_loop_crc_range _ _ _ _ _ _ _ _ _ Hc0 Hrun).
      * injection Hrun as _ <- _. exact Hc0.
Qed.

End File.

(** ** The claims on the file adapter *)

Module FileClaims.
Import Bits Register Tables Mem Steps Core KnownAnswers File.

Lemma first_fold (M : memory) (buffer offset hw : Z) (d : list byte) :
  0 <= offset ->
  is_size_t (Z.of_nat (length d) + offset) ->
  get_checksum_crc32c (store_bytes M (buffer + offset) d) INITIAL_CRC buffer
                      (Z.of_nat (length d) + offset) hw =
  crc32c_fold INITIAL_CRC (mem_bytes M buffer (Z.to_nat offset) ++ d).
Proof.
  intros Ho Hn.
  rewrite get_checksum_crc32c_fold by (apply INITIAL_CRC_range || exact Hn).
  replace (Z.to_nat (Z.of_nat (length d) + offset))
    with (Z.to_nat offset + length d)%nat by lia.
  replace (buffer + offset) with (buffer + Z.of_nat (Z.to_nat offset)) by lia.
  rewrite mem_bytes_store_above. reflexivity.
Qed.

Lemma loop_fold (M : memory) (buffer crc hw : Z) (d : list byte) :
  is_uint crc ->
  is_size_t (Z.of_nat (length d)) ->
  get_checksum_crc32c (store_bytes M buffer d) crc buffer
                      (Z.of_nat (length d)) hw =
  crc32c_fold crc d.
Proof.
  intros Hc Hn. rewrite get_checksum_crc32c_fold by assumption.
  rewrite Nat2Z.id, mem_bytes_store. reflexivity.
Qed.

(** C7. File-adapter fold and termination: the first read asks for
    [buf_size - offset] bytes at [buffer + offset]; [bytes_read + offset]
    bytes from the start of [buffer], the bytes found below [offset]
    included, are folded from [INITIAL_CRC]; the loop is entered, and each
    further read of [buf_size] bytes at [buffer] is folded and followed by
    another, exactly when the fold just made was of [buf_size] bytes,
    otherwise the function returns [SUCCESS]; in particular a file of
    exactly [buf_size] bytes read with [offset = 0] takes exactly two
    reads and yields [SUCCESS] with the one-call checksum of its content. *)
Theorem file_adapter_fold (w : world) (buffer buf_size offset hw : Z) :
  0 < buf_size < 2 ^ 31 ->
  0 <= offset <= buf_size ->
  (forall l s,
     w_script w = ReadData l :: s ->
     let d := firstn (Z.to_nat (buf_size - offset)) l in
     let w1 := mkWorld (store_bytes (w_mem w) (buffer + offset) d) s
                       (w_log w ++ [(buffer + offset, buf_size - offset)]) in
     let bytes_read := Z.of_nat (length d) + offset in
     let crc1 :=
       get_checksum_crc32c (w_mem w1) INITIAL_CRC buffer bytes_read hw in
     crc1 =
       crc32c_fold INITIAL_CRC
                   (mem_bytes (w_mem w) buffer (Z.to_nat offset) ++ d) /\
     forall fuel,
       get_file_checksum_crc32c fuel w buffer buf_size offset hw =
       if bytes_read =? buf_size
       then file_loop fuel w1 buffer buf_size crc1 hw
       else Some (SUCCESS, crc1, w1))
  /\
  (forall fuel w1 crc l s,
     is_uint crc ->
     w_script w1 = ReadData l :: s ->
     let d := firstn (Z.to_nat buf_size) l in
     let w2 := mkWorld (store_bytes (w_mem w1) buffer d) s
                       (w_log w1 ++ [(buffer, buf_size)]) in
     let crc2 :=
       get_checksum_crc32c (w_mem w2) crc buffer (Z.of_nat (length d)) hw in
     crc2 = crc32c_fold crc d /\
     file_loop (S fuel) w1 buffer buf_size crc hw =
     if Z.of_nat (length d) =? buf_size
     then file_loop fuel w2 buffer buf_size crc2 hw
     else Some (SUCCESS, crc2, w2))
  /\
  (forall content fuel,
     offset = 0 ->
     Z.of_nat (length content) = buf_size ->
     w_script w = [ReadData content] ->
     exists w',
       get_file_checksum_crc32c (S fuel) w buffer buf_size offset hw =
       Some (SUCCESS,
             get_checksum_crc32c (mem_of_list buffer content) INITIAL_CRC
                                 buffer buf_size hw,
             w') /\
       w_script w' = [] /\
       w_log w' = w_log w ++ [(buffer, buf_size); (buffer, buf_size)]).
Proof.
  intros Hb Ho. split; [| split].
  - intros l s Hs d w1 bytes_read crc1.
    pose proof (firstn_le_length (Z.to_nat (buf_size - offset)) l) as Hle.
    fold d in Hle.
    assert (Hn : is_size_t bytes_read) by (subst bytes_read; ranges).
    assert (Hcrc1 :
      crc1 = crc32c_fold INITIAL_CRC
               (mem_bytes (w_mem w) buffer (Z.to_nat offset) ++ d)).
    { subst crc1 w1 bytes_read. cbn [w_mem]. apply first_fold; [lia | exact Hn]. }
    split; [exact Hcrc1 |].
    intros fuel.
    rewrite get_file_unfold, (file_first_data _ _ _ Hb _ Ho _ _ _ Hs).
    fold d. fold bytes_read. rewrite <- Hcrc1. reflexivity.
  - intros fuel w1 crc l s Hc Hs d w2 crc2.
    pose proof (firstn_le_length (Z.to_nat buf_size) l) as Hle.
    fold d in Hle.
    assert (Hcrc2 : crc2 = crc32c_fold crc d).
    { subst crc2 w2. cbn [w_mem]. apply loop_fold; [exact Hc | ranges]. }
    split; [exact Hcrc2 |].
    rewrite (file_loop_data _ _ _ Hb _ _ _ _ _ Hc Hs).
    fold d. rewrite <- Hcrc2. reflexivity.
  - intros content fuel -> Hlen Hs.
    destruct (run_eof buffer buf_size hw Hb 0 Ho w [content] (S fuel))
      as (w' & Hrun & Hs' & Hl'); try (cbn [length]; lia).
    + cbn [full_reads]. split; [lia | constructor].
    + exact Hs.
    + exists w'. split; [| split].
      * rewrite Hrun. do 3 f_equal.
        unfold folded_bytes, mem_of_list. cbn [concat].
        rewrite app_nil_r. change (Z.to_nat 0) with 0%nat.
        rewrite mem_bytes_0. cbn [app].
        rewrite <- Hlen. symmetry.
        apply loop_fold; [apply INITIAL_CRC_range | ranges].
      * exact Hs'.
      * rewrite Hl'. cbn [requests length repeat].
        rewrite Z.add_0_r, Z.sub_0_r. reflexivity.
Qed.

(** End of file after at least one full read needs no room in the buffer
    for the first read. *)
Lemma run_eof_after_reads (w : world) (buffer buf_size offset hw : Z)
    (c0 : list byte) (cs : list (list byte)) (fuel : nat) :
  0 < buf_size < 2 ^ 31 ->
  0 <= offset <= buf_size ->
  full_reads buf_size offset (c0 :: cs) ->
  (length (c0 :: cs) <= fuel)%nat ->
  w_script w = map ReadData (c0 :: cs) ->
  exists crc w',
    get_file_checksum_crc32c fuel w buffer buf_size offset hw =
    Some (SUCCESS, crc, w') /\
    w_script w' = [] /\
    w_log w' =
    w_log w ++ requests buffer buf_size offset (S (length (c0 :: cs))).
Proof.
  intros Hb Ho Hfull Hfuel Hs.
  rewrite <- (app_nil_r (map ReadData (c0 :: cs))) in Hs.
  destruct (get_file_full_reads buffer buf_size hw Hb offset Ho w c0 cs []
              Hfull Hs) as (w1 & Hs1 & Hl1 & Hrun).
  destruct (fuel_split _ _ Hfuel) as [k ->].
  rewrite Hrun, (file_loop_eof buffer buf_size hw Hb _ _ _ Hs1).
  eexists. eexists. split; [reflexivity |]. split; [reflexivity |].
  cbn [w_log length]. rewrite Hl1, <- app_assoc.
  rewrite (requests_snoc buffer buf_size offset (length cs)).
  reflexivity.
Qed.

(** With [offset = buf_size] the first read, of 0 bytes, returns 0 and the
    function reads on: here into a failing read. *)
Lemma eof_on_first_read_then_error :
  fst (read (fresh_world [ReadData []; ReadError]) (1000 + 4)
            (to_size_t (4 - 4))) = 0 /\
  status_and_crc
    (get_file_checksum_crc32c 1 (fresh_world [ReadData []; ReadError])
                              1000 4 4 NO)
  = Some (INCORRECT, 0xB798B438) /\
  option_map (fun r => w_log (snd r))
    (get_file_checksum_crc32c 1 (fresh_world [ReadData []; ReadError])
                              1000 4 4 NO)
  = Some [(1004, 0); (1000, 4)].
Proof.
  split; [reflexivity |]. split; vm_compute; reflexivity.
Qed.

(** C8 (amended). File-adapter error handling: when a read fails, on the
    first call or after any number of full reads, the function returns
    [INCORRECT] at once: the failed request is the last one issued and the
    outcomes that follow it are never consumed.  A read that returns fewer
    bytes than asked for, or that returns nothing when at least one byte
    was asked for (any read of the loop, and the first read when
    [offset < buf_size]), is no error: it ends the run with [SUCCESS],
    again without a further read.  When [offset = buf_size] the first read
    asks for 0 bytes: its return of 0 counts as a filled buffer and the
    function goes on to the reads of the loop. *)
Theorem file_adapter_errors
    (w : world) (buffer buf_size offset hw : Z)
    (chunks : list (list byte)) (post : list outcome) (fuel : nat) :
  0 < buf_size < 2 ^ 31 ->
  0 <= offset <= buf_size ->
  full_reads buf_size offset chunks ->
  (length chunks <= fuel)%nat ->
  (w_script w = map ReadData chunks ++ ReadError :: post ->
   exists crc w',
     get_file_checksum_crc32c fuel w buffer buf_size offset hw =
     Some (INCORRECT, crc, w') /\
     w_script w' = post /\
     w_log w' =
     w_log w ++ requests buffer buf_size offset (S (length chunks)))
  /\
  (w_script w = map ReadData chunks ->
   (chunks = [] -> offset < buf_size) ->
   exists crc w',
     get_file_checksum_crc32c fuel w buffer buf_size offset hw =
     Some (SUCCESS, crc, w') /\
     w_script w' = [] /\
     w_log w' =
     w_log w ++ requests buffer buf_size offset (S (length chunks)))
  /\
  (forall l,
     w_script w = map ReadData chunks ++ ReadData l :: post ->
     Z.of_nat (length l) <
       match chunks with [] => buf_size - offset | _ :: _ => buf_size end ->
     exists crc w',
       get_file_checksum_crc32c fuel w buffer buf_size offset hw =
       Some (SUCCESS, crc, w') /\
       w_script w' = post /\
       w_log w' =
       w_log w ++ requests buffer buf_size offset (S (length chunks)))
  /\
  (offset = buf_size ->
   fst (read w (buffer + offset) (to_size_t (buf_size - offset))) = 0 ->
   forall fuel0,
     get_file_checksum_crc32c fuel0 w buffer buf_size offset hw =
     file_loop fuel0
       (snd (read w (buffer + offset) (to_size_t (buf_size - offset))))
       buffer buf_size
       (crc32c_fold INITIAL_CRC
                    (mem_bytes (w_mem w) buffer (Z.to_nat buf_size)))
       hw).
Proof.
  intros Hb Ho Hfull Hfuel.
  split; [| split; [| split]].
  - intros Hs.
    destruct (run_error buffer buf_size hw Hb offset Ho w chunks post fuel
                Hfull Hfuel Hs) as (w' & Hrun & Hs' & Hl').
    eexists. exists w'. split; [exact Hrun |]. split; assumption.
  - intros Hs Hroom. destruct chunks as [| c0 cs].
    + destruct (run_eof buffer buf_size hw Hb offset Ho w [] fuel
                  (Hroom eq_refl) Hfull Hfuel Hs) as (w' & Hrun & Hs' & Hl').
      eexists. exists w'. split; [exact Hrun |]. split; assumption.
    + exact (run_eof_after_reads w buffer buf_size offset hw c0 cs fuel
               Hb Ho Hfull Hfuel Hs).
  - intros l Hs Hl.
    destruct (run_short buffer buf_size hw Hb offset Ho w chunks l post fuel
                Hfull Hfuel Hs Hl) as (w' & Hrun & Hs' & Hl').
    eexists. exists w'. split; [exact Hrun |]. split; assumption.
  - intros Heq Hread fuel0. rewrite get_file_unfold.
    rewrite (first_count buf_size Hb offset Ho) in *.
    destruct (w_script w) as [| [| l] s] eqn:Hs.
    + rewrite (file_first_eof _ _ _ Hb _ Ho _ Hs), (read_eof _ _ _ Hs).
      cbn [snd]. rewrite Heq, Z.eqb_refl. reflexivity.
    + rewrite (read_error _ _ _ _ Hs) in Hread. discriminate Hread.
    + rewrite (read_data _ _ _ _ _ Hs) in Hread. cbn [fst] in Hread.
      assert (Hd : firstn (Z.to_nat (buf_size - offset)) l = [])
        by (apply length_zero_iff_nil; lia).
      rewrite (file_first_data _ _ _ Hb _ Ho _ _ _ Hs),
        (read_data _ _ _ _ _ Hs), Hd.
      cbn [snd length]. change (Z.of_nat 0) with 0.
      rewrite Z.add_0_l, app_nil_r, Heq, Z.eqb_refl. reflexivity.
Qed.

(** With bytes below [offset] and an empty file, [*crc] is not the seed. *)
Lemma zero_length_file_with_offset :
  fst (read (fresh_world []) (1000 + 1) (to_size_t (4 - 1))) = 0 /\
  status_and_crc (get_file_checksum_crc32c 1 (fresh_world []) 1000 4 1 NO)
  = Some (SUCCESS, 0xAD82ACAE) /\
  0xAD82ACAE <> INITIAL_CRC.
Proof.
  split; [reflexivity |]. split; [vm_compute; reflexivity |].
  vm_compute. discriminate.
Qed.

(** C9 (amended). Zero-length file: when [offset = 0] and the first read
    returns 0 bytes, the function returns [SUCCESS] after that one read
    and [*crc] is the unmodified [INITIAL_CRC]. *)
Theorem zero_length_file
    (w : world) (buffer buf_size offset hw : Z) (fuel : nat) :
  0 < buf_size < 2 ^ 31 ->
  offset = 0 ->
  fst (read w (buffer + offset) (to_size_t (buf_size - offset))) = 0 ->
  exists w',
    get_file_checksum_crc32c fuel w buffer buf_size offset hw =
    Some (SUCCESS, INITIAL_CRC, w') /\
    w_log w' = w_log w ++ [(buffer, buf_size)].
Proof.
  intros Hb -> Hread.
  assert (Ho : 0 <= 0 <= buf_size) by lia.
  rewrite (first_count buf_size Hb 0 Ho) in Hread.
  rewrite get_file_unfold.
  destruct (w_script w) as [| [| l] s] eqn:Hs.
  - rewrite (file_first_eof _ _ _ Hb _ Ho _ Hs).
    replace (0 =? buf_size) with false by (symmetry; apply Z.eqb_neq; lia).
    change (Z.to_nat 0) with 0%nat. rewrite mem_bytes_0, fold_nil.
    eexists. split; [reflexivity |]. cbn [w_log].
    rewrite Z.add_0_r, Z.sub_0_r. reflexivity.
  - rewrite (read_error _ _ _ _ Hs) in Hread. discriminate Hread.
  - rewrite (read_data _ _ _ _ _ Hs) in Hread. cbn [fst] in Hread.
    assert (Hd : firstn (Z.to_nat (buf_size - 0)) l = [])
      by (apply length_zero_iff_nil; lia).
    rewrite (file_first_data _ _ _ Hb _ Ho _ _ _ Hs), Hd.
    cbn [length]. change (Z.of_nat 0 + 0) with 0.
    replace (0 =? buf_size) with false by (symmetry; apply Z.eqb_neq; lia).
    change (Z.to_nat 0) with 0%nat. rewrite mem_bytes_0. cbn [app].
    rewrite fold_nil.
    eexists. split; [reflexivity |]. cbn [w_log].
    rewrite Z.add_0_r, Z.sub_0_r. reflexivity.
Qed.

(** C10. Out-parameter on error: [*crc] is set to [INITIAL_CRC] before any
    read, so every return leaves a 32-bit value in it; a failure of the
    first read leaves [INITIAL_CRC]; a failure after full reads leaves the
    checksum of all bytes folded before it (the bytes below [offset] and
    everything read), which is neither reset nor lost. *)
Theorem crc_on_error
    (w : world) (buffer buf_size offset hw : Z)
    (chunks : list (list byte)) (post : list outcome) (fuel : nat) :
  0 < buf_size < 2 ^ 31 ->
  0 <= offset <= buf_size ->
  full_reads buf_size offset chunks ->
  (length chunks <= fuel)%nat ->
  w_script w = map ReadData chunks ++ ReadError :: post ->
  (exists w',
     get_file_checksum_crc32c fuel w buffer buf_size offset hw =
     Some (INCORRECT,
           match chunks with
           | [] => INITIAL_CRC
           | _ :: _ =>
               crc32c_fold INITIAL_CRC
                           (folded_bytes (w_mem w) buffer offset chunks)
           end,
           w'))
  /\
  (forall w0 fuel0 st c w',
     get_file_checksum_crc32c fuel0 w0 buffer buf_size offset hw
     = Some (st, c, w') ->
     is_uint c).
Proof.
  intros Hb Ho Hfull Hfuel Hs. split.
  - destruct (run_error buffer buf_size hw Hb offset Ho w chunks post fuel
                Hfull Hfuel Hs) as (w' & Hrun & _).
    exists w'. exact Hrun.
  - intros w0 fuel0 st c w' Hrun.
    exact (get_file_crc_range _ _ _ _ _ _ _ _ _ Hrun).
Qed.

End FileClaims.

(** ** The theorems at concrete inputs *)

Module Examples.

Lemma chunking_invariance_witness :
  fold_chunks (mem_of_list 1001 digits_1_9) NO INITIAL_CRC 1001 [3; 0; 4; 2] =
  get_checksum_crc32c (mem_of_list 1001 digits_1_9) INITIAL_CRC 1001
                      (sum_sizes [3; 0; 4; 2]) NO.
Proof.
  apply Checksum.chunking_invariance.
  - unfold is_uint, INITIAL_CRC. change (2 ^ 32) with 4294967296. lia.
  - repeat constructor; lia.
  - unfold is_size_t. vm_compute. split; [discriminate | reflexivity].
Defined.

Lemma hw_sw_equivalence_witness :
  get_checksum_crc32c (mem_of_list 1001 digits_1_9) INITIAL_CRC 1001 9 YES =
  get_checksum_crc32c (mem_of_list 1001 digits_1_9) INITIAL_CRC 1001 9 NO.
Proof.
  apply Checksum.hw_sw_equivalence.
  - unfold is_uint, INITIAL_CRC. change (2 ^ 32) with 4294967296. lia.
  - unfold is_size_t. change (2 ^ 64) with 18446744073709551616. lia.
Defined.

Lemma sw_prologue_epilogue_witness :
  is_size_t 9 /\
  get_checksum_crc32c (mem_of_list 1001 digits_1_9) INITIAL_CRC 1001 9 NO =
    fold_left
      (fun c i =>
         sw_byte_step (mem_of_list 1001 digits_1_9) c (1004 + Z.of_nat i))
      (seq 0 6)
      (fold_left
         (fun c i =>
            sw_byte_step (mem_of_list 1001 digits_1_9) c (1001 + Z.of_nat i))
         (seq 0 3) INITIAL_CRC) /\
  0 <= Z.min 9 ((4 - 1001) mod 4) <= 3 /\
  (1001 + Z.min 9 ((4 - 1001) mod 4)) mod 4 = 0.
Proof.
  assert (H : is_size_t 9)
    by (unfold is_size_t; change (2 ^ 64) with 18446744073709551616; lia).
  split; [exact H |].
  pose proof (Paths.sw_prologue_epilogue
                (mem_of_list 1001 digits_1_9) INITIAL_CRC 1001 9 H) as P.
  cbv zeta beta in P.
  destruct P as (P1 & _ & _ & _ & P5 & _ & [P7 | P7] & _).
  - split; [exact P1 |]. split; [exact P5 | exact P7].
  - vm_compute in P7. discriminate P7.
Defined.

Lemma str_checksum_correct_witness :
  get_str_checksum_crc32c 10 (mem_of_list 1001 digits_1_9) 1001 NO =
  Some (get_checksum_crc32c (mem_of_list 1001 digits_1_9) INITIAL_CRC 1001
                            (Z.of_nat (length digits_1_9)) NO).
Proof.
  assert (Hstr : is_c_string (mem_of_list 1001 digits_1_9) 1001 digits_1_9).
  { split; [reflexivity |]. split; [| reflexivity].
    repeat constructor; discriminate. }
  assert (Hlen : is_size_t (Z.of_nat (length digits_1_9)))
    by (unfold is_size_t; vm_compute; split; [discriminate | reflexivity]).
  assert (Hfuel : (length digits_1_9 < 10)%nat) by (vm_compute; lia).
  destruct (Strings.str_checksum_correct
              (mem_of_list 1001 digits_1_9) 1001 NO digits_1_9 10
              Hstr Hlen Hfuel) as (_ & H & _).
  exact H.
Defined.

Lemma file_adapter_fold_witness :
  exists w',
    get_file_checksum_crc32c
      1 (fresh_world [ReadData [x41; x42; x43; x44]]) 1000 4 0 NO =
    Some (SUCCESS,
          get_checksum_crc32c (mem_of_list 1000 [x41; x42; x43; x44])
                              INITIAL_CRC 1000 4 NO,
          w') /\
    w_script w' = [] /\
    w_log w' =
    w_log (fresh_world [ReadData [x41; x42; x43; x44]]) ++
    [(1000, 4); (1000, 4)].
Proof.
  assert (Hb : 0 < 4 < 2 ^ 31) by (change (2 ^ 31) with 2147483648; lia).
  assert (Ho : 0 <= 0 <= 4) by lia.
  destruct (FileClaims.file_adapter_fold
              (fresh_world [ReadData [x41; x42; x43; x44]]) 1000 4 0 NO
              Hb Ho) as (_ & _ & H).
  apply (H [x41; x42; x43; x44] 0%nat); reflexivity.
Defined.

Lemma file_adapter_errors_witness :
  exists crc w',
    get_file_checksum_crc32c
      1 (fresh_world [ReadData [x41; x42; x43; x44]; ReadError;
                      ReadData [x45]])
      1000 4 0 NO =
    Some (INCORRECT, crc, w') /\
    w_script w' = [ReadData [x45]] /\
    w_log w' =
    w_log (fresh_world [ReadData [x41; x42; x43; x44]; ReadError;
                        ReadData [x45]]) ++
    requests 1000 4 0 2.
Proof.
  assert (Hb : 0 < 4 < 2 ^ 31) by (change (2 ^ 31) with 2147483648; lia).
  assert (Ho : 0 <= 0 <= 4) by lia.
  assert (Hfull : full_reads 4 0 [[x41; x42; x43; x44]])
    by (split; [reflexivity | constructor]).
  assert (Hfuel : (length [[x41; x42; x43; x44]] <= 1)%nat)
    by (cbn [length]; lia).
  destruct (FileClaims.file_adapter_errors
              (fresh_world [ReadData [x41; x42; x43; x44]; ReadError;
                            ReadData [x45]])
              1000 4 0 NO [[x41; x42; x43; x44]] [ReadData [x45]] 1%nat
              Hb Ho Hfull Hfuel) as (H & _).
  apply H. reflexivity.
Defined.

Lemma zero_length_file_witness :
  exists w',
    get_file_checksum_crc32c 0 (fresh_world []) 1000 4 0 NO =
    Some (SUCCESS, INITIAL_CRC, w') /\
    w_log w' = w_log (fresh_world []) ++ [(1000, 4)].
Proof.
  apply FileClaims.zero_length_file.
  - change (2 ^ 31) with 2147483648. lia.
  - reflexivity.
  - reflexivity.
Defined.

Lemma crc_on_error_witness :
  exists w',
    get_file_checksum_crc32c
      1 (fresh_world [ReadData [x41; x42; x43; x44]; ReadError;
                      ReadData [x45]])
      1000 4 0 NO =
    Some (INCORRECT,
          crc32c_fold INITIAL_CRC
                      (folded_bytes zero_mem 1000 0 [[x41; x42; x43; x44]]),
          w').
Proof.
  assert (Hb : 0 < 4 < 2 ^ 31) by (change (2 ^ 31) with 2147483648; lia).
  assert (Ho : 0 <= 0 <= 4) by lia.
  assert (Hfull : full_reads 4 0 [[x41; x42; x43; x44]])
    by (split; [reflexivity | constructor]).
  assert (Hfuel : (length [[x41; x42; x43; x44]] <= 1)%nat)
    by (cbn [length]; lia).
  destruct (FileClaims.crc_on_error
              (fresh_world [ReadData [x41; x42; x43; x44]; ReadError;
                            ReadData [x45]])
              1000 4 0 NO [[x41; x42; x43; x44]] [ReadData [x45]] 1%nat
              Hb Ho Hfull Hfuel eq_refl) as (H & _).
  exact H.
Defined.

End Examples.

(** * Further properties of the code *)

(** ** The tables *)

Module TableFacts.
Import Bits Register Tables.

(** X1. Every entry of each of the eight embedded tables is what the
    reflected Castagnoli polynomial generates: entry [i] of the table for
    lane [k] is [i] after [8 * (k + 1)] shifts of the register. *)
Theorem tables_from_polynomial (i : Z) :
  0 <= i < 256 ->
  tbl crc_tableil8_o32 i = crc32c_bits 8 i /\
  tbl crc_tableil8_o40 i = crc32c_bits 16 i /\
  tbl crc_tableil8_o48 i = crc32c_bits 24 i /\
  tbl crc_tableil8_o56 i = crc32c_bits 32 i /\
  tbl crc_tableil8_o64 i = crc32c_bits 40 i /\
  tbl crc_tableil8_o72 i = crc32c_bits 48 i /\
  tbl crc_tableil8_o80 i = crc32c_bits 56 i /\
  tbl crc_tableil8_o88 i = crc32c_bits 64 i.
Proof.
  intros Hi.
  rewrite o32_bits, o40_bits, o48_bits, o56_bits, o64_bits, o72_bits,
    o80_bits, o88_bits.
  repeat split; apply tbl_table_of_bits, Hi.
Qed.

Lemma table_entry_range (n : nat) (i : Z) :
  0 <= i < 256 -> is_uint (tbl (table_of_bits n) i).
Proof.
  intros Hi. rewrite tbl_table_of_bits by exact Hi.
  apply bits_range. ranges.
Qed.

Lemma table_next (n : nat) (i : Z) :
  0 <= i < 256 ->
  tbl (table_of_bits (n + 8)) i =
  Z.lxor (tbl crc_tableil8_o32 (Z.land (tbl (table_of_bits n) i) 0xFF))
         (Z.shiftr (tbl (table_of_bits n) i) 8).
Proof.
  intros Hi. rewrite !tbl_table_of_bits by exact Hi.
  change 0xFF with 255.
  rewrite o32_at, bits_add. apply bits8_slice.
Qed.

(** X2. The tables form a chain under the single-byte table step of the
    code: each table's entry is the entry of the table before it taken
    through [crc_tableil8_o32[x & 0xFF] ^ (x >> 8)], and every entry is a
    32-bit value. *)
Theorem tables_chain (i : Z) :
  0 <= i < 256 ->
  let step x :=
    Z.lxor (tbl crc_tableil8_o32 (Z.land x 0xFF)) (Z.shiftr x 8) in
  tbl crc_tableil8_o32 i = step i /\
  tbl crc_tableil8_o40 i = step (tbl crc_tableil8_o32 i) /\
  tbl crc_tableil8_o48 i = step (tbl crc_tableil8_o40 i) /\
  tbl crc_tableil8_o56 i = step (tbl crc_tableil8_o48 i) /\
  tbl crc_tableil8_o64 i = step (tbl crc_tableil8_o56 i) /\
  tbl crc_tableil8_o72 i = step (tbl crc_tableil8_o64 i) /\
  tbl crc_tableil8_o80 i = step (tbl crc_tableil8_o72 i) /\
  tbl crc_tableil8_o88 i = step (tbl crc_tableil8_o80 i) /\
  is_uint (tbl crc_tableil8_o32 i) /\ is_uint (tbl crc_tableil8_o40 i) /\
  is_uint (tbl crc_tableil8_o48 i) /\ is_uint (tbl crc_tableil8_o56 i) /\
  is_uint (tbl crc_tableil8_o64 i) /\ is_uint (tbl crc_tableil8_o72 i) /\
  is_uint (tbl crc_tableil8_o80 i) /\ is_uint (tbl crc_tableil8_o88 i).
Proof.
  intros Hi step. subst step. cbv beta.
  assert (H0 : tbl crc_tableil8_o32 i =
               Z.lxor (tbl crc_tableil8_o32 (Z.land i 0xFF)) (Z.shiftr i 8)).
  { change 0xFF with 255.
    rewrite (shiftr_small 8 i) by (change (2 ^ 8) with 256; lia).
    rewrite Z.lxor_0_r. change 255 with (Z.ones 8).
    rewrite (small_land_ones 8 i) by (change (2 ^ 8) with 256; lia).
    reflexivity. }
  split; [exact H0 |].
  rewrite o32_bits, o40_bits, o48_bits, o56_bits, o64_bits, o72_bits,
    o80_bits, o88_bits.
  rewrite <- o32_bits.
  repeat split;
    first [ apply (table_next 8 i Hi) | apply (table_next 16 i Hi)
          | apply (table_next 24 i Hi) | apply (table_next 32 i Hi)
          | apply (table_next 40 i Hi) | apply (table_next 48 i Hi)
          | apply (table_next 56 i Hi)
          | rewrite ?o32_bits; apply table_entry_range, Hi ].
Qed.

End TableFacts.

(** ** The running CRC *)

Module StateFacts.
Import Bits Register Tables Mem Steps Core Paths.

Lemma uint_bit32 (x : Z) : is_uint x -> Z.testbit x 32 = false.
Proof.
  intros Hx. rewrite <- (small_land_ones 32 x) by (lia || exact Hx).
  rewrite Z.land_spec, Z.ones_spec_high by lia. apply andb_false_r.
Qed.

Lemma lxor_cancel_r (a b k : Z) : Z.lxor a k = Z.lxor b k -> a = b.
Proof.
  intros H. apply (f_equal (fun z => Z.lxor z k)) in H.
  rewrite !Z.lxor_assoc, Z.lxor_nilpotent, !Z.lxor_0_r in H. exact H.
Qed.

Lemma lxor_cancel_l (a b k : Z) : Z.lxor k a = Z.lxor k b -> a = b.
Proof. rewrite !(Z.lxor_comm k). apply lxor_cancel_r. Qed.

Lemma bit_top (x : Z) :
  is_uint x -> Z.testbit (crc32c_bit x) 31 = Z.odd x.
Proof.
  intros Hx. unfold crc32c_bit.
  rewrite Z.lxor_spec, Z.shiftr_spec by lia.
  change (31 + 1) with 32. rewrite (uint_bit32 x Hx).
  destruct (Z.odd x); reflexivity.
Qed.

(** One shift of the register loses nothing of a 32-bit state. *)
Lemma bit_inj (x y : Z) :
  is_uint x -> is_uint y -> crc32c_bit x = crc32c_bit y -> x = y.
Proof.
  intros Hx Hy H.
  assert (Hodd : Z.odd x = Z.odd y)
    by (rewrite <- (bit_top x Hx), <- (bit_top y Hy), H; reflexivity).
  unfold crc32c_bit in H. rewrite Hodd in H. apply lxor_cancel_r in H.
  rewrite (Z.div2_odd x), (Z.div2_odd y), !Z.div2_spec, H, Hodd.
  reflexivity.
Qed.

Lemma bits_inj (n : nat) :
  forall x y,
    is_uint x -> is_uint y -> crc32c_bits n x = crc32c_bits n y -> x = y.
Proof.
  induction n as [| n IH]; intros x y Hx Hy H; cbn [crc32c_bits] in H.
  - exact H.
  - apply bit_inj; try assumption.
    apply IH; try apply bit_range; assumption.
Qed.

Lemma byte_uint (b : byte) : is_uint (Z.of_N (Byte.to_N b)).
Proof. pose proof (Byte.to_N_bounded b). ranges. Qed.

Lemma crc32c_byte_eq (c : Z) (b : byte) :
  crc32c_byte c b = crc32c_bits 8 (Z.lxor c (Z.of_N (Byte.to_N b))).
Proof. reflexivity. Qed.

Lemma byte_inj_state (c1 c2 : Z) (b : byte) :
  is_uint c1 -> is_uint c2 ->
  crc32c_byte c1 b = crc32c_byte c2 b -> c1 = c2.
Proof.
  intros H1 H2 H. rewrite !crc32c_byte_eq in H.
  assert (Hx : is_uint (Z.lxor c1 (Z.of_N (Byte.to_N b))))
    by (apply lxor_range; [lia | assumption | apply byte_uint]).
  assert (Hy : is_uint (Z.lxor c2 (Z.of_N (Byte.to_N b))))
    by (apply lxor_range; [lia | assumption | apply byte_uint]).
  exact (lxor_cancel_r c1 c2 _
           (bits_inj 8 (Z.lxor c1 (Z.of_N (Byte.to_N b)))
                     (Z.lxor c2 (Z.of_N (Byte.to_N b))) Hx Hy H)).
Qed.

Lemma fold_inj_state (l : list byte) :
  forall c1 c2,
    is_uint c1 -> is_uint c2 ->
    crc32c_fold c1 l = crc32c_fold c2 l -> c1 = c2.
Proof.
  induction l as [| b l IH]; intros c1 c2 H1 H2 H.
  - rewrite !fold_nil in H. exact H.
  - rewrite !fold_cons in H.
    apply IH in H; try apply byte_range; try assumption.
    exact (byte_inj_state _ _ _ H1 H2 H).
Qed.

(** *** Little-endian windows *)

Lemma le_value_range (l : list byte) :
  0 <= le_value l < 2 ^ (8 * Z.of_nat (length l)).
Proof.
  induction l as [| b l IH]; cbn [le_value length].
  - change (8 * Z.of_nat 0) with 0. change (2 ^ 0) with 1. lia.
  - pose proof (Byte.to_N_bounded b) as Hb.
    replace (8 * Z.of_nat (S (length l)))
      with (8 + 8 * Z.of_nat (length l)) by lia.
    assert (Hp : 2 ^ (8 + 8 * Z.of_nat (length l)) =
                 256 * 2 ^ (8 * Z.of_nat (length l)))
      by (rewrite Z.pow_add_r by lia; reflexivity).
    assert (Hpos : 0 < 2 ^ (8 * Z.of_nat (length l)))
      by (apply Z.pow_pos_nonneg; lia).
    apply lor_range; [lia | | ].
    + rewrite Hp. lia.
    + rewrite Z.shiftl_mul_pow2, Hp by lia. change (2 ^ 8) with 256. nia.
Qed.

Lemma le_value_uint (l : list byte) :
  (length l <= 4)%nat -> is_uint (le_value l).
Proof.
  intros Hl. pose proof (le_value_range l) as H.
  assert (2 ^ (8 * Z.of_nat (length l)) <= 2 ^ 32)
    by (apply Z.pow_le_mono_r; lia).
  unfold is_uint. lia.
Qed.

Lemma to_N_inj (b1 b2 : byte) : Byte.to_N b1 = Byte.to_N b2 -> b1 = b2.
Proof.
  intros H. pose proof (Byte.of_to_N b1) as E1.
  rewrite H, Byte.of_to_N in E1. congruence.
Qed.

Lemma le_value_inj (l1 : list byte) :
  forall l2, length l1 = length l2 -> le_value l1 = le_value l2 -> l1 = l2.
Proof.
  induction l1 as [| b1 l1 IH]; intros [| b2 l2] Hlen H;
    try discriminate Hlen.
  - reflexivity.
  - cbn [le_value] in H.
    pose proof (Byte.to_N_bounded b1) as Hb1.
    pose proof (Byte.to_N_bounded b2) as Hb2.
    assert (Hlow := f_equal (fun z => Z.land z 255) H).
    assert (Hhigh := f_equal (fun z => Z.shiftr z 8) H).
    cbv beta in Hlow, Hhigh.
    rewrite !byte_low in Hlow by lia.
    rewrite !byte_high in Hhigh by lia.
    f_equal.
    + apply to_N_inj. lia.
    + apply IH; [injection Hlen as Hlen; exact Hlen | exact Hhigh].
Qed.

(** The fold of a byte sequence is the register shifted over the running
    value XORed with the sequence as a little-endian number. *)
Lemma fold_as_bits (l : list byte) :
  forall c,
    crc32c_fold c l = crc32c_bits (8 * length l) (Z.lxor c (le_value l)).
Proof.
  induction l as [| b l IH]; intros c.
  - rewrite fold_nil. cbn [length le_value]. rewrite Z.lxor_0_r.
    reflexivity.
  - rewrite fold_cons, IH. cbn [length le_value].
    replace (8 * S (length l))%nat with (8 + 8 * length l)%nat by lia.
    pose proof (Byte.to_N_bounded b) as Hb.
    rewrite bits_absorb by lia.
    reflexivity.
Qed.

(** Up to four bytes folded into the same state: different bytes, different
    state. *)
Lemma window_inj (c : Z) (l1 l2 : list byte) :
  is_uint c ->
  length l1 = length l2 ->
  (length l1 <= 4)%nat ->
  crc32c_fold c l1 = crc32c_fold c l2 ->
  l1 = l2.
Proof.
  intros Hc Hlen H4 H.
  rewrite !fold_as_bits, <- Hlen in H.
  apply bits_inj in H.
  - apply le_value_inj; [exact Hlen | exact (lxor_cancel_l _ _ _ H)].
  - apply lxor_range; [lia | exact Hc | apply le_value_uint, H4].
  - apply lxor_range; [lia | exact Hc |].
    apply le_value_uint. rewrite <- Hlen. exact H4.
Qed.

End StateFacts.

(** ** The buffer checksum *)

Module BufferFacts.
Import Bits Register Tables Mem Steps Core Paths StateFacts.

(** X3. An empty buffer leaves the running CRC as it is, on either path, at
    any address and whatever the value passed in. *)
Theorem empty_buffer_keeps_crc (M : memory) (icrc mem hw : Z) :
  get_checksum_crc32c M icrc mem 0 hw = icrc.
Proof.
  unfold get_checksum_crc32c. destruct (hw =? YES).
  - reflexivity.
  - unfold checksum_sw.
    rewrite initial_bytes_range, min_as_if.
    pose proof (Z.mod_pos_bound (4 - mem) 4 ltac:(lia)) as Hi.
    rewrite Z.min_l by lia. reflexivity.
Qed.

(** X4. The result of [get_checksum_crc32c] is a 32-bit value whenever
    [icrc] is one. *)
Theorem checksum_is_32_bit (M : memory) (icrc mem size hw : Z) :
  is_uint icrc -> is_size_t size ->
  is_uint (get_checksum_crc32c M icrc mem size hw).
Proof.
  intros Hc Hs. rewrite get_checksum_crc32c_fold by assumption.
  apply fold_range, Hc.
Qed.

(** X5. The result depends on the [size] bytes of the buffer and on
    nothing else: not on memory outside the buffer, not on where the
    buffer lies, not on the path taken. *)
Theorem checksum_depends_on_bytes_only
    (M1 M2 : memory) (icrc mem1 mem2 size hw1 hw2 : Z) :
  is_uint icrc -> is_size_t size ->
  mem_bytes M1 mem1 (Z.to_nat size) = mem_bytes M2 mem2 (Z.to_nat size) ->
  get_checksum_crc32c M1 icrc mem1 size hw1 =
  get_checksum_crc32c M2 icrc mem2 size hw2.
Proof.
  intros Hc Hs Hb. rewrite !get_checksum_crc32c_fold by assumption.
  rewrite Hb. reflexivity.
Qed.

(** X6. Over the same buffer, different running CRCs give different
    results: nothing of the incoming CRC is lost. *)
Theorem checksum_injective_in_icrc (M : memory) (c1 c2 mem size hw : Z) :
  is_uint c1 -> is_uint c2 -> is_size_t size ->
  c1 <> c2 ->
  get_checksum_crc32c M c1 mem size hw <>
  get_checksum_crc32c M c2 mem size hw.
Proof.
  intros H1 H2 Hs Hne H. apply Hne.
  rewrite !get_checksum_crc32c_fold in H by assumption.
  exact (fold_inj_state _ _ _ H1 H2 H).
Qed.

(** X7. Error detection: two buffers of the same size that differ, and
    differ only inside a window of four consecutive bytes, never have the
    same checksum. *)
Theorem burst_error_detected
    (M1 M2 : memory) (icrc mem size hw k : Z) :
  is_uint icrc -> is_size_t size -> 0 <= k ->
  (forall a, mem <= a < mem + size ->
             a < mem + k \/ mem + k + 4 <= a -> M1 a = M2 a) ->
  (exists a, mem <= a < mem + size /\ M1 a <> M2 a) ->
  get_checksum_crc32c M1 icrc mem size hw <>
  get_checksum_crc32c M2 icrc mem size hw.
Proof.
  intros Hc Hs Hk Hsame (a & Ha & Hdiff) Heq.
  rewrite !get_checksum_crc32c_fold in Heq by assumption.
  unfold is_size_t in Hs.
  set (kn := Z.to_nat (Z.min k size)).
  set (wn := Z.to_nat (Z.min 4 (size - Z.min k size))).
  set (sn := (Z.to_nat size - kn - wn)%nat).
  assert (Hn : Z.to_nat size = (kn + (wn + sn))%nat) by (subst kn wn sn; lia).
  rewrite Hn, !mem_bytes_app, !fold_app in Heq.
  assert (Hpre : mem_bytes M1 mem kn = mem_bytes M2 mem kn).
  { apply mem_bytes_ext. intros i Hi. apply Hsame; subst kn; lia. }
  assert (Hsuf :
    mem_bytes M1 (mem + Z.of_nat kn + Z.of_nat wn) sn =
    mem_bytes M2 (mem + Z.of_nat kn + Z.of_nat wn) sn).
  { apply mem_bytes_ext. intros i Hi. apply Hsame; subst kn wn sn; lia. }
  rewrite Hpre, Hsuf in Heq.
  set (c := crc32c_fold icrc (mem_bytes M2 mem kn)) in Heq.
  assert (Hcu : is_uint c) by (subst c; apply fold_range, Hc).
  apply fold_inj_state in Heq; try (apply fold_range; exact Hcu).
  apply window_inj in Heq;
    [ | exact Hcu | rewrite !length_mem_bytes; reflexivity
      | rewrite length_mem_bytes; subst wn; lia ].
  destruct (Z.lt_ge_cases a (mem + k)) as [Hlo | Hlo];
    [apply Hdiff, Hsame; [exact Ha | left; exact Hlo] |].
  destruct (Z.lt_ge_cases a (mem + k + 4)) as [Hhi | Hhi];
    [| apply Hdiff, Hsame; [exact Ha | right; lia]].
  apply Hdiff.
  assert (Hj : (Z.to_nat (a - (mem + Z.of_nat kn)) < wn)%nat)
    by (subst kn wn; lia).
  pose proof (nth_mem_bytes M1 (mem + Z.of_nat kn) wn _ Hj) as E1.
  pose proof (nth_mem_bytes M2 (mem + Z.of_nat kn) wn _ Hj) as E2.
  rewrite Heq, E2 in E1.
  replace (mem + Z.of_nat kn +
           Z.of_nat (Z.to_nat (a - (mem + Z.of_nat kn)))) with a in E1
    by (subst kn; lia).
  symmetry. exact E1.
Qed.

(** X8. Round trip: when the four bytes after a buffer hold the buffer's
    checksum as a little-endian word, the checksum of the buffer together
    with these four bytes is zero. *)
Theorem checksum_of_buffer_and_trailer
    (M : memory) (icrc mem size hw hw' : Z) :
  is_uint icrc -> 0 <= size -> is_size_t (size + 4) ->
  load_uint32 M (mem + size) = get_checksum_crc32c M icrc mem size hw ->
  get_checksum_crc32c M icrc mem (size + 4) hw' = 0.
Proof.
  intros Hc H0 Hs4 Htrailer.
  assert (Hs : is_size_t size) by ranges.
  rewrite get_checksum_crc32c_fold in Htrailer by assumption.
  rewrite get_checksum_crc32c_fold by assumption.
  replace (Z.to_nat (size + 4)) with (Z.to_nat size + 4)%nat by lia.
  rewrite mem_bytes_app, fold_app, mem_bytes_4, <- crc32si_fold.
  replace (mem + Z.of_nat (Z.to_nat size)) with (mem + size) by lia.
  unfold __builtin_ia32_crc32si.
  rewrite Htrailer, Z.lxor_nilpotent. apply Register.bits_0.
Qed.

End BufferFacts.

(** ** The file adapter, for any descriptor *)

Module FileFacts.
Import Bits Register Tables Mem Steps Core KnownAnswers File FileClaims.

Lemma flag_irrelevant (M : memory) (icrc mem size hw1 hw2 : Z) :
  is_uint icrc -> is_size_t size ->
  get_checksum_crc32c M icrc mem size hw1 =
  get_checksum_crc32c M icrc mem size hw2.
Proof.
  intros Hc Hs. rewrite !get_checksum_crc32c_fold by assumption.
  reflexivity.
Qed.

Lemma to_size_t_range (x : Z) : is_size_t (to_size_t x).
Proof. apply Z.mod_pos_bound. reflexivity. Qed.

Lemma file_loop_flag (buffer buf_size hw1 hw2 : Z) (fuel : nat) :
  forall (w : world) (crc : Z),
    is_uint crc ->
    file_loop fuel w buffer buf_size crc hw1 =
    file_loop fuel w buffer buf_size crc hw2.
Proof.
  induction fuel as [| fuel IH]; intros w crc Hc.
  - reflexivity.
  - rewrite !file_loop_S. unfold file_loop_body.
    destruct (read w buffer (to_size_t buf_size)) as [n w1].
    rewrite (flag_irrelevant (w_mem w1) crc buffer (to_size_t n) hw1 hw2 Hc
               (to_size_t_range n)).
    pose proof (get_checksum_crc32c_range (w_mem w1) crc buffer
                  (to_size_t n) hw2 Hc (to_size_t_range n)) as Hc1.
    destruct (0 <? n).
    + destruct (n =? buf_size); [apply IH, Hc1 | reflexivity].
    + destruct (n =? -1); [reflexivity |].
      destruct (n =? buf_size); [apply IH, Hc | reflexivity].
Qed.

(** X9. The capability flag changes nothing in what the file adapter
    does: for every descriptor behaviour the status, [*crc], the reads
    issued and the memory are the same for any two flag values. *)
Theorem file_checksum_flag_independent
    (fuel : nat) (w : world) (buffer buf_size offset hw1 hw2 : Z) :
  get_file_checksum_crc32c fuel w buffer buf_size offset hw1 =
  get_file_checksum_crc32c fuel w buffer buf_size offset hw2.
Proof.
  rewrite !get_file_unfold. unfold file_first.
  destruct (read w (buffer + offset) (to_size_t (buf_size - offset)))
    as [n w1].
  rewrite (flag_irrelevant (w_mem w1) INITIAL_CRC buffer
             (to_size_t (to_int (n + offset))) hw1 hw2 INITIAL_CRC_range
             (to_size_t_range _)).
  pose proof (get_checksum_crc32c_range (w_mem w1) INITIAL_CRC buffer
                (to_size_t (to_int (n + offset))) hw2 INITIAL_CRC_range
                (to_size_t_range _)) as Hc1.
  destruct (0 <=? n).
  - destruct (to_int (n + offset) =? buf_size);
      [apply file_loop_flag, Hc1 | reflexivity].
  - destruct (n =? -1); [reflexivity |].
    destruct (n =? buf_size);
      [apply file_loop_flag, INITIAL_CRC_range | reflexivity].
Qed.

(** *** What a read changes *)

Lemma read_effects (w : world) (buf count : Z) :
  0 <= count ->
  let w1 := snd (read w buf count) in
  w_log w1 = w_log w ++ [(buf, count)] /\
  w_script w1 = tl (w_script w) /\
  (forall a, a < buf \/ buf + count <= a -> w_mem w1 a = w_mem w a).
Proof.
  intros Hcount. unfold read.
  destruct (w_script w) as [| [| l] s]; cbn [snd w_log w_script w_mem tl];
    repeat split; try reflexivity.
  intros a Ha. unfold store_bytes.
  pose proof (firstn_le_length (Z.to_nat count) l) as Hle.
  replace ((buf <=? a) &&
           (a <? buf + Z.of_nat (length (firstn (Z.to_nat count) l))))
    with false; [reflexivity |].
  symmetry. apply andb_false_iff.
  destruct Ha; [left; apply Z.leb_gt | right; apply Z.ltb_ge]; lia.
Qed.

Lemma tl_skipn {A : Type} (n : nat) :
  forall l : list A, tl (skipn n l) = skipn (S n) l.
Proof.
  induction n as [| n IH]; intros [| x l]; try reflexivity.
  cbn [skipn] in *. apply IH.
Qed.

Section Effects.

Variables buffer buf_size offset hw : Z.
Hypothesis buf_size_size_t : is_size_t buf_size.
Hypothesis offset_range : 0 <= offset <= buf_size.

Lemma effects_step (w w1 : world) (n : nat) :
  run_effects buffer buf_size offset w w1 (S n) ->
  run_effects buffer buf_size offset w
              (snd (read w1 buffer (to_size_t buf_size))) (S (S n)).
Proof.
  intros (Hl & Hs & Hm).
  rewrite (to_size_t_small _ buf_size_size_t).
  assert (H0 : 0 <= buf_size) by (unfold is_size_t in *; lia).
  destruct (read_effects w1 buffer buf_size H0) as (Hl1 & Hs1 & Hm1).
  split; [| split].
  - rewrite Hl1, Hl, <- app_assoc. cbn [requests app].
    do 2 f_equal. symmetry. apply (repeat_cons n).
  - rewrite Hs1, Hs. apply tl_skipn.
  - intros a Ha. rewrite Hm1 by exact Ha. apply Hm, Ha.
Qed.

Lemma file_loop_effects (fuel : nat) :
  forall (w w1 : world) (n : nat) (crc st c : Z) (w' : world),
    run_effects buffer buf_size offset w w1 (S n) ->
    file_loop fuel w1 buffer buf_size crc hw = Some (st, c, w') ->
    exists m,
      (m <= n + fuel)%nat /\ run_effects buffer buf_size offset w w' (S m).
Proof.
  induction fuel as [| fuel IH]; intros w w1 n crc st c w' He Hrun.
  - discriminate Hrun.
  - rewrite file_loop_S in Hrun. unfold file_loop_body in Hrun.
    pose proof (effects_step w w1 n He) as He1.
    destruct (read w1 buffer (to_size_t buf_size)) as [k w2].
    cbn [snd] in He1.
    assert (Hdone : forall st0 c0,
              Some (st0, c0, w2) = Some (st, c, w') ->
              exists m,
                (m <= n + S fuel)%nat /\
                run_effects buffer buf_size offset w w' (S m)).
    { intros st0 c0 E. injection E as _ _ <-.
      exists (S n). split; [lia | exact He1]. }
    assert (Hmore : forall c0,
              file_loop fuel w2 buffer buf_size c0 hw = Some (st, c, w') ->
              exists m,
                (m <= n + S fuel)%nat /\
                run_effects buffer buf_size offset w w' (S m)).
    { intros c0 E. destruct (IH w w2 (S n) c0 st c w' He1 E) as (m & Hm & Hem).
      exists m. split; [lia | exact Hem]. }
    destruct (0 <? k).
    + destruct (k =? buf_size); [exact (Hmore _ Hrun) | exact (Hdone _ _ Hrun)].
    + destruct (k =? -1); [exact (Hdone _ _ Hrun) |].
      destruct (k =? buf_size); [exact (Hmore _ Hrun) | exact (Hdone _ _ Hrun)].
Qed.

Lemma get_file_effects (fuel : nat) (w : world) (st c : Z) (w' : world) :
  get_file_checksum_crc32c fuel w buffer buf_size offset hw
  = Some (st, c, w') ->
  exists m,
    (m <= fuel)%nat /\ run_effects buffer buf_size offset w w' (S m).
Proof.
  intros Hrun. rewrite get_file_unfold in Hrun. unfold file_first in Hrun.
  assert (Hcount : to_size_t (buf_size - offset) = buf_size - offset)
    by (apply to_size_t_small; unfold is_size_t in *; lia).
  rewrite Hcount in Hrun.
  assert (H0 : 0 <= buf_size - offset) by lia.
  destruct (read_effects w (buffer + offset) (buf_size - offset) H0)
    as (Hl1 & Hs1 & Hm1).
  assert (He1 : run_effects buffer buf_size offset w
                  (snd (read w (buffer + offset) (buf_size - offset))) 1).
  { split; [exact Hl1 |]. split.
    - rewrite Hs1. destruct (w_script w); reflexivity.
    - intros a Ha. apply Hm1. lia. }
  destruct (read w (buffer + offset) (buf_size - offset)) as [k w1].
  cbn [snd] in He1.
  assert (Hdone : forall st0 c0,
            Some (st0, c0, w1) = Some (st, c, w') ->
            exists m,
              (m <= fuel)%nat /\
              run_effects buffer buf_size offset w w' (S m)).
  { intros st0 c0 E. injection E as _ _ <-.
    exists 0%nat. split; [lia | exact He1]. }
  assert (Hmore : forall c0,
            file_loop fuel w1 buffer buf_size c0 hw = Some (st, c, w') ->
            exists m,
              (m <= fuel)%nat /\
              run_effects buffer buf_size offset w w' (S m)).
  { intros c0 E. exact (file_loop_effects fuel w w1 0 c0 st c w' He1 E). }
  destruct (0 <=? k).
  - destruct (to_int (k + offset) =? buf_size);
      [exact (Hmore _ Hrun) | exact (Hdone _ _ Hrun)].
  - destruct (k =? -1); [exact (Hdone _ _ Hrun) |].
    destruct (k =? buf_size); [exact (Hmore _ Hrun) | exact (Hdone _ _ Hrun)].
Qed.

End Effects.

Lemma requests_in_buffer (buffer buf_size offset : Z) (n : nat) :
  0 <= offset <= buf_size ->
  Forall (fun r => buffer <= fst r /\ 0 <= snd r /\
                   fst r + snd r <= buffer + buf_size)
         (requests buffer buf_size offset n).
Proof.
  intros Ho. destruct n as [| n]; cbn [requests]; constructor.
  - cbn [fst snd]. lia.
  - apply Forall_forall. intros r Hr.
    apply repeat_spec in Hr. subst r. cbn [fst snd]. lia.
Qed.

(** X10. The reads never reach outside the caller's buffer: on every
    return, with either status, each request issued asked [read] to store
    its bytes within [buffer, buffer + buf_size), and what the reads
    stored left memory below [buffer] and from [buffer + buf_size] on as
    it was.  ([w_mem] holds what the reads store; the out-parameter
    [*crc], the one other place the function writes, is returned as a
    value and is no part of this statement.) *)
Theorem file_adapter_reads_stay_in_buffer
    (fuel : nat) (w : world) (buffer buf_size offset hw st c : Z)
    (w' : world) :
  is_size_t buf_size ->
  0 <= offset <= buf_size ->
  get_file_checksum_crc32c fuel w buffer buf_size offset hw
  = Some (st, c, w') ->
  exists reqs,
    w_log w' = w_log w ++ reqs /\
    reqs <> [] /\
    Forall (fun r => buffer <= fst r /\ 0 <= snd r /\
                     fst r + snd r <= buffer + buf_size) reqs /\
    (forall a, a < buffer \/ buffer + buf_size <= a ->
               w_mem w' a = w_mem w a).
Proof.
  intros Hb Ho Hrun.
  destruct (get_file_effects buffer buf_size offset hw Hb Ho fuel w st c w'
              Hrun) as (m & _ & Hl & _ & Hm).
  exists (requests buffer buf_size offset (S m)).
  split; [exact Hl |]. split; [discriminate |].
  split; [apply requests_in_buffer, Ho | exact Hm].
Qed.

(** X11. On every return the reads issued are one request for
    [buf_size - offset] bytes at [buffer + offset] followed by requests for
    exactly [buf_size] bytes at [buffer]; each consumed one outcome of the
    descriptor, and no outcome beyond them was touched. *)
Theorem file_adapter_requests
    (fuel : nat) (w : world) (buffer buf_size offset hw st c : Z)
    (w' : world) :
  is_size_t buf_size ->
  0 <= offset <= buf_size ->
  get_file_checksum_crc32c fuel w buffer buf_size offset hw
  = Some (st, c, w') ->
  exists n,
    (n <= fuel)%nat /\
    w_log w' = w_log w ++ requests buffer buf_size offset (S n) /\
    w_script w' = skipn (S n) (w_script w).
Proof.
  intros Hb Ho Hrun.
  destruct (get_file_effects buffer buf_size offset hw Hb Ho fuel w st c w'
              Hrun) as (m & Hm & Hl & Hs & _).
  exists m. split; [exact Hm |]. split; assumption.
Qed.

End FileFacts.

(** ** Whole files, degenerate buffers, and the other entry points *)

Module UseFacts.
Import Bits Register Tables Mem Steps Core KnownAnswers Strings File
  FileClaims.

Lemma buffer_checksum_of_list (mem hw : Z) (data : list byte) :
  is_size_t (Z.of_nat (length data)) ->
  get_checksum_crc32c (mem_of_list mem data) INITIAL_CRC mem
                      (Z.of_nat (length data)) hw =
  crc32c_fold INITIAL_CRC data.
Proof.
  intros Hn. unfold mem_of_list.
  apply loop_fold; [apply INITIAL_CRC_range | exact Hn].
Qed.

(** X12. File and buffer agree: when the descriptor delivers a file in
    full reads followed by a short read or by end of file, the adapter
    returns [SUCCESS] after one read more than the full ones, and [*crc]
    is what one call of [get_checksum_crc32c] gives from [INITIAL_CRC]
    over the bytes found below [offset] followed by the whole file,
    wherever these lie in memory and on either path. *)
Theorem file_checksum_is_buffer_checksum
    (w : world) (buffer buf_size offset hw mem hw' : Z)
    (chunks : list (list byte)) (last : list byte) (fuel : nat) :
  0 < buf_size < 2 ^ 31 ->
  0 <= offset < buf_size ->
  full_reads buf_size offset chunks ->
  (length chunks <= fuel)%nat ->
  Z.of_nat (length last) <
    match chunks with [] => buf_size - offset | _ :: _ => buf_size end ->
  w_script w = map ReadData chunks ++ [ReadData last] \/
  (last = [] /\ w_script w = map ReadData chunks) ->
  is_size_t (Z.of_nat
               (length (folded_bytes (w_mem w) buffer offset
                                     (chunks ++ [last])))) ->
  exists w',
    get_file_checksum_crc32c fuel w buffer buf_size offset hw =
    Some (SUCCESS,
          get_checksum_crc32c
            (mem_of_list mem
               (folded_bytes (w_mem w) buffer offset (chunks ++ [last])))
            INITIAL_CRC mem
            (Z.of_nat
               (length (folded_bytes (w_mem w) buffer offset
                                     (chunks ++ [last]))))
            hw',
          w') /\
    w_log w' = w_log w ++ requests buffer buf_size offset (S (length chunks)).
Proof.
  intros Hb Ho Hfull Hfuel Hlast Hscript Hsize.
  assert (Ho' : 0 <= offset <= buf_size) by lia.
  rewrite (buffer_checksum_of_list mem hw' _ Hsize).
  destruct Hscript as [Hs | [-> Hs]].
  - destruct (run_short buffer buf_size hw Hb offset Ho' w chunks last []
                fuel Hfull Hfuel Hs Hlast) as (w' & Hrun & _ & Hl).
    exists w'. split; assumption.
  - destruct (run_eof buffer buf_size hw Hb offset Ho' w chunks fuel
                (proj2 Ho) Hfull Hfuel Hs) as (w' & Hrun & _ & Hl).
    exists w'. split; [| exact Hl].
    rewrite Hrun. unfold folded_bytes.
    rewrite concat_app. cbn [concat app]. rewrite !app_nil_r. reflexivity.
Qed.

Lemma file_loop_zero_capacity (buffer hw : Z) (fuel : nat) :
  forall (w : world) (crc : Z),
    Forall (fun o => o <> ReadError) (w_script w) ->
    file_loop fuel w buffer 0 crc hw = None.
Proof.
  induction fuel as [| fuel IH]; intros w crc Hok.
  - reflexivity.
  - rewrite file_loop_S. unfold file_loop_body.
    change (to_size_t 0) with 0.
    destruct (w_script w) as [| [| l] s] eqn:Hs.
    + rewrite (read_eof _ _ _ Hs). cbv beta iota.
      change (0 <? 0) with false. change (0 =? -1) with false.
      change (0 =? 0) with true. cbv iota.
      apply IH. cbn [w_script]. constructor.
    + apply Forall_inv in Hok. contradiction.
    + rewrite (read_data _ _ _ _ _ Hs). change (Z.to_nat 0) with 0%nat.
      rewrite firstn_0. cbn [length]. cbv beta iota.
      change (0 <? Z.of_nat 0) with false.
      change (Z.of_nat 0 =? -1) with false.
      change (Z.of_nat 0 =? 0) with true. cbv iota.
      apply IH. cbn [w_script]. apply Forall_inv_tail in Hok. exact Hok.
Qed.

(** X13. A buffer of capacity 0: with [buf_size = 0] and [offset = 0], as
    long as no read fails the function never returns; every read of 0
    bytes returns 0, which the loop takes for a full buffer. *)
Theorem zero_capacity_never_returns
    (fuel : nat) (w : world) (buffer hw : Z) :
  Forall (fun o => o <> ReadError) (w_script w) ->
  get_file_checksum_crc32c fuel w buffer 0 0 hw = None.
Proof.
  intros Hok. rewrite get_file_unfold. unfold file_first.
  change (to_size_t (0 - 0)) with 0.
  destruct (w_script w) as [| [| l] s] eqn:Hs.
  - rewrite (read_eof _ _ _ Hs). cbv beta iota.
    change (0 <=? 0) with true. cbv iota.
    change (to_int (0 + 0)) with 0. change (0 =? 0) with true. cbv iota.
    apply file_loop_zero_capacity. cbn [w_script]. constructor.
  - apply Forall_inv in Hok. contradiction.
  - rewrite (read_data _ _ _ _ _ Hs). change (Z.to_nat 0) with 0%nat.
    rewrite firstn_0. cbn [length]. cbv beta iota.
    change (0 <=? Z.of_nat 0) with true. cbv iota.
    change (to_int (Z.of_nat 0 + 0)) with 0. change (0 =? 0) with true.
    cbv iota.
    apply file_loop_zero_capacity. cbn [w_script].
    apply Forall_inv_tail in Hok. exact Hok.
Qed.

Lemma land_bit20 (c : Z) :
  (Z.land c bit_SSE4_2 =? 0) = negb (Z.testbit c 20).
Proof.
  unfold bit_SSE4_2. rewrite Z.shiftl_1_l.
  destruct (Z.testbit c 20) eqn:E; cbn [negb].
  - apply Z.eqb_neq. intros H.
    apply (f_equal (fun z => Z.testbit z 20)) in H.
    rewrite Z.land_spec, E, Z.pow2_bits_true, Z.bits_0 in H by lia.
    discriminate H.
  - apply Z.eqb_eq. apply Z.bits_inj'. intros n Hn.
    rewrite Z.land_spec, Z.bits_0, Z.pow2_bits_eqb by lia.
    destruct (Z.eqb_spec 20 n) as [<- | _].
    + rewrite E. reflexivity.
    + apply andb_false_r.
Qed.

(** X14. [detect_cpu_crc32] returns [YES] exactly when CPUID leaf 1 is
    supported and bit 20 of [ecx] is set, and [NO] otherwise, whatever the
    other bits and registers hold; and the flag it returns never changes
    the checksum [get_checksum_crc32c] computes. *)
Theorem detect_cpu_crc32_flag
    (cpuid1 : option (Z * Z * Z * Z)) (M : memory) (icrc mem size : Z) :
  is_uint icrc -> is_size_t size ->
  (detect_cpu_crc32 cpuid1 = YES \/ detect_cpu_crc32 cpuid1 = NO) /\
  (detect_cpu_crc32 cpuid1 = YES <->
   exists eax ebx ecx edx,
     cpuid1 = Some (eax, ebx, ecx, edx) /\ Z.testbit ecx 20 = true) /\
  get_checksum_crc32c M icrc mem size (detect_cpu_crc32 cpuid1) =
  get_checksum_crc32c M icrc mem size NO.
Proof.
  intros Hc Hs. split; [| split].
  - unfold detect_cpu_crc32.
    destruct (negb _); [left | right]; reflexivity.
  - unfold detect_cpu_crc32.
    destruct cpuid1 as [[[[eax ebx] ecx] edx] |].
    + rewrite land_bit20, negb_involutive. split.
      * destruct (Z.testbit ecx 20) eqn:E; [| discriminate].
        intros _. exists eax, ebx, ecx, edx. split; [reflexivity | exact E].
      * intros (a & b & c & d & Heq & Hbit).
        injection Heq as _ _ <- _. rewrite Hbit. reflexivity.
    + split; [discriminate |].
      intros (a & b & c & d & Heq & _). discriminate Heq.
  - rewrite !get_checksum_crc32c_fold by assumption. reflexivity.
Qed.

(** X15. The string checksum depends on the string alone: the same bytes
    before the terminating NUL give the same result wherever the string
    lies, whatever follows the NUL, and on either path. *)
Theorem str_checksum_depends_on_string_only
    (M1 M2 : memory) (str1 str2 hw1 hw2 : Z) (s : list byte)
    (fuel1 fuel2 : nat) :
  is_c_string M1 str1 s ->
  is_c_string M2 str2 s ->
  is_size_t (Z.of_nat (length s)) ->
  (length s < fuel1)%nat ->
  (length s < fuel2)%nat ->
  get_str_checksum_crc32c fuel1 M1 str1 hw1 =
  get_str_checksum_crc32c fuel2 M2 str2 hw2.
Proof.
  intros H1 H2 Hlen Hf1 Hf2. unfold get_str_checksum_crc32c.
  rewrite (strlen_c_string s M1 str1 fuel1 H1 Hf1).
  rewrite (strlen_c_string s M2 str2 fuel2 H2 Hf2).
  cbn [option_map]. f_equal.
  rewrite !get_checksum_crc32c_fold
    by (apply INITIAL_CRC_range || exact Hlen).
  rewrite Nat2Z.id.
  destruct H1 as (E1 & _). destruct H2 as (E2 & _).
  rewrite E1, E2. reflexivity.
Qed.

End UseFacts.

(** ** These properties at concrete inputs *)

Module MoreExamples.

Lemma tables_from_polynomial_witness :
  tbl crc_tableil8_o32 255 = crc32c_bits 8 255 /\
  tbl crc_tableil8_o88 255 = crc32c_bits 64 255.
Proof.
  assert (H : 0 <= 255 < 256) by lia.
  destruct (TableFacts.tables_from_polynomial 255 H)
    as (P0 & _ & _ & _ & _ & _ & _ & P7).
  split; [exact P0 | exact P7].
Defined.

Lemma tables_chain_witness :
  tbl crc_tableil8_o40 255 =
  Z.lxor (tbl crc_tableil8_o32 (Z.land (tbl crc_tableil8_o32 255) 0xFF))
         (Z.shiftr (tbl crc_tableil8_o32 255) 8).
Proof.
  assert (H : 0 <= 255 < 256) by lia.
  pose proof (TableFacts.tables_chain 255 H) as P. cbv zeta beta in P.
  destruct P as (_ & P1 & _). exact P1.
Defined.

Lemma checksum_is_32_bit_witness :
  is_uint (get_checksum_crc32c (mem_of_list 1001 digits_1_9) INITIAL_CRC
                               1001 9 NO).
Proof.
  apply BufferFacts.checksum_is_32_bit.
  - unfold is_uint, INITIAL_CRC. change (2 ^ 32) with 4294967296. lia.
  - unfold is_size_t. change (2 ^ 64) with 18446744073709551616. lia.
Defined.

Lemma checksum_depends_on_bytes_only_witness :
  get_checksum_crc32c (mem_of_list 1001 digits_1_9) INITIAL_CRC 1001 9 YES =
  get_checksum_crc32c (mem_of_list 2002 (digits_1_9 ++ [xff])) INITIAL_CRC
                      2002 9 NO.
Proof.
  apply BufferFacts.checksum_depends_on_bytes_only.
  - unfold is_uint, INITIAL_CRC. change (2 ^ 32) with 4294967296. lia.
  - unfold is_size_t. change (2 ^ 64) with 18446744073709551616. lia.
  - vm_compute. reflexivity.
Defined.

Lemma checksum_injective_in_icrc_witness :
  get_checksum_crc32c (mem_of_list 1001 digits_1_9) 0 1001 9 NO <>
  get_checksum_crc32c (mem_of_list 1001 digits_1_9) 1 1001 9 NO.
Proof.
  apply BufferFacts.checksum_injective_in_icrc.
  - unfold is_uint. change (2 ^ 32) with 4294967296. lia.
  - unfold is_uint. change (2 ^ 32) with 4294967296. lia.
  - unfold is_size_t. change (2 ^ 64) with 18446744073709551616. lia.
  - lia.
Defined.

Lemma burst_error_detected_witness :
  get_checksum_crc32c (mem_of_list 1001 digits_1_9) INITIAL_CRC 1001 9 NO <>
  get_checksum_crc32c
    (mem_of_list 1001 [x31; x32; x33; x34; x36; x36; x38; x38; x39])
    INITIAL_CRC 1001 9 NO.
Proof.
  apply (BufferFacts.burst_error_detected _ _ INITIAL_CRC 1001 9 NO 4).
  - unfold is_uint, INITIAL_CRC. change (2 ^ 32) with 4294967296. lia.
  - unfold is_size_t. change (2 ^ 64) with 18446744073709551616. lia.
  - lia.
  - intros a Ha Hout.
    assert (H : a = 1001 \/ a = 1002 \/ a = 1003 \/ a = 1004 \/ a = 1009)
      by lia.
    destruct H as [-> | [-> | [-> | [-> | ->]]]]; reflexivity.
  - exists 1005. split; [lia |]. vm_compute. discriminate.
Defined.

Lemma checksum_of_buffer_and_trailer_witness :
  get_checksum_crc32c
    (mem_of_list 1001 (digits_1_9 ++ [x7c; x6d; xf9; x1c]))
    INITIAL_CRC 1001 (9 + 4) YES = 0.
Proof.
  apply (BufferFacts.checksum_of_buffer_and_trailer _ _ _ _ NO).
  - unfold is_uint, INITIAL_CRC. change (2 ^ 32) with 4294967296. lia.
  - lia.
  - unfold is_size_t. change (2 ^ 64) with 18446744073709551616. lia.
  - vm_compute. reflexivity.
Defined.

Lemma file_adapter_reads_stay_in_buffer_witness :
  exists reqs,
    w_log (mkWorld (store_bytes zero_mem 1000 [x41]) [] [(1000, 4)]) =
    w_log (fresh_world [ReadData [x41]]) ++ reqs /\
    reqs <> [] /\
    Forall (fun r => 1000 <= fst r /\ 0 <= snd r /\
                     fst r + snd r <= 1000 + 4) reqs /\
    (forall a, a < 1000 \/ 1000 + 4 <= a ->
               w_mem (mkWorld (store_bytes zero_mem 1000 [x41]) []
                              [(1000, 4)]) a =
               w_mem (fresh_world [ReadData [x41]]) a).
Proof.
  assert (Hrun :
    get_file_checksum_crc32c 0 (fresh_world [ReadData [x41]]) 1000 4 0 NO =
    Some (SUCCESS, 0x1E923211,
          mkWorld (store_bytes zero_mem 1000 [x41]) [] [(1000, 4)]))
    by (vm_compute; reflexivity).
  assert (Hb : is_size_t 4)
    by (unfold is_size_t; change (2 ^ 64) with 18446744073709551616; lia).
  assert (Ho : 0 <= 0 <= 4) by lia.
  exact (FileFacts.file_adapter_reads_stay_in_buffer
           _ _ _ _ _ _ _ _ _ Hb Ho Hrun).
Defined.

Lemma file_adapter_requests_witness :
  exists n,
    (n <= 0)%nat /\
    w_log (mkWorld (store_bytes zero_mem 1000 [x41]) [ReadData [x42]]
                   [(1000, 4)]) =
    w_log (fresh_world [ReadData [x41]; ReadData [x42]]) ++
    requests 1000 4 0 (S n) /\
    w_script (mkWorld (store_bytes zero_mem 1000 [x41]) [ReadData [x42]]
                      [(1000, 4)]) =
    skipn (S n) (w_script (fresh_world [ReadData [x41]; ReadData [x42]])).
Proof.
  assert (Hrun :
    get_file_checksum_crc32c
      0 (fresh_world [ReadData [x41]; ReadData [x42]]) 1000 4 0 NO =
    Some (SUCCESS, 0x1E923211,
          mkWorld (store_bytes zero_mem 1000 [x41]) [ReadData [x42]]
                  [(1000, 4)]))
    by (vm_compute; reflexivity).
  assert (Hb : is_size_t 4)
    by (unfold is_size_t; change (2 ^ 64) with 18446744073709551616; lia).
  assert (Ho : 0 <= 0 <= 4) by lia.
  exact (FileFacts.file_adapter_requests _ _ _ _ _ _ _ _ _ Hb Ho Hrun).
Defined.

Lemma file_checksum_is_buffer_checksum_witness :
  exists w',
    get_file_checksum_crc32c
      1 (fresh_world [ReadData [x41; x42; x43; x44]; ReadData [x45]])
      1000 4 0 NO =
    Some (SUCCESS,
          get_checksum_crc32c
            (mem_of_list 2002
               (folded_bytes
                  (w_mem (fresh_world [ReadData [x41; x42; x43; x44];
                                       ReadData [x45]]))
                  1000 0 ([[x41; x42; x43; x44]] ++ [[x45]])))
            INITIAL_CRC 2002
            (Z.of_nat
               (length
                  (folded_bytes
                     (w_mem (fresh_world [ReadData [x41; x42; x43; x44];
                                          ReadData [x45]]))
                     1000 0 ([[x41; x42; x43; x44]] ++ [[x45]]))))
            YES,
          w') /\
    w_log w' =
    w_log (fresh_world [ReadData [x41; x42; x43; x44]; ReadData [x45]]) ++
    requests 1000 4 0 (S (length [[x41; x42; x43; x44]])).
Proof.
  apply UseFacts.file_checksum_is_buffer_checksum.
  - change (2 ^ 31) with 2147483648. lia.
  - lia.
  - split; [reflexivity | constructor].
  - cbn [length]. lia.
  - cbn [length]. lia.
  - left. reflexivity.
  - vm_compute. split; [discriminate | reflexivity].
Defined.

Lemma zero_capacity_never_returns_witness :
  get_file_checksum_crc32c 5 (fresh_world [ReadData [x41]]) 1000 0 0 NO
  = None.
Proof.
  apply UseFacts.zero_capacity_never_returns.
  repeat constructor; discriminate.
Defined.

Lemma detect_cpu_crc32_flag_witness :
  get_checksum_crc32c (mem_of_list 1001 digits_1_9) INITIAL_CRC 1001 9
                      (detect_cpu_crc32 (Some (0, 0, 2 ^ 20, 0))) =
  get_checksum_crc32c (mem_of_list 1001 digits_1_9) INITIAL_CRC 1001 9 NO.
Proof.
  assert (Hc : is_uint INITIAL_CRC)
    by (unfold is_uint, INITIAL_CRC; change (2 ^ 32) with 4294967296; lia).
  assert (Hs : is_size_t 9)
    by (unfold is_size_t; change (2 ^ 64) with 18446744073709551616; lia).
  destruct (UseFacts.detect_cpu_crc32_flag
              (Some (0, 0, 2 ^ 20, 0)) (mem_of_list 1001 digits_1_9)
              INITIAL_CRC 1001 9 Hc Hs) as (_ & _ & H).
  exact H.
Defined.

Lemma str_checksum_depends_on_string_only_witness :
  get_str_checksum_crc32c 10 (mem_of_list 1001 digits_1_9) 1001 YES =
  get_str_checksum_crc32c
    12 (mem_of_list 2002 (digits_1_9 ++ [x00; x41])) 2002 NO.
Proof.
  apply (UseFacts.str_checksum_depends_on_string_only
           _ _ _ _ _ _ digits_1_9).
  - split; [reflexivity |]. split; [| reflexivity].
    repeat constructor; discriminate.
  - split; [reflexivity |]. split; [| reflexivity].
    repeat constructor; discriminate.
  - unfold is_size_t. vm_compute. split; [discriminate | reflexivity].
  - vm_compute. lia.
  - vm_compute. lia.
Defined.

End MoreExamples.
